(** * zk-gas-soundness: gas utilisation of recent blocks

    A shallow embedding of [app.py] and the properties of its three stages:
    the block fetcher [fetch_gas_data], the range analyzer [analyze_blocks]
    and the summarizer [summarize], together with the control flow of [main].

    Python [int] is [Z].  Python [float] is IEEE 754 binary64 with
    round-to-nearest, ties-to-even, modelled exactly (module [Float]).
    The JSON-RPC node is an external object with a state of its own; the
    program talks to it through the three calls of [Web3]. *)

From Stdlib Require Import ZArith Lia Bool List.
From Stdlib.Floats Require SpecFloat.
From stdpp Require Import base gmap strings list pretty.

Local Open Scope Z_scope.

(** ** Binary64 floating point *)

Module Float.

(** Every finite double is an integer multiple of [2^-1074], the smallest
    subnormal.  A finite float is stored as its sign and its magnitude
    counted in that unit; [quantum] is the number of units in [1.0]. *)
Definition quantum : Z := 2 ^ 1074.

(** [2^1024] in units: the first magnitude that is out of range. *)
Definition huge : Z := 2 ^ 2098.

Inductive float : Type :=
  | Ffin (neg : bool) (mag : Z)
  | Finf (neg : bool)
  | Fnan.

(** Nearest integer to [n / d], ties to the even one ([0 <= n], [0 < d]). *)
Definition rhe (n d : Z) : Z :=
  let q := n / d in
  let r := n mod d in
  if 2 * r <? d then q
  else if d <? 2 * r then q + 1
  else if Z.even q then q else q + 1.

(** Exponent (in units) of the last place of a 53-bit significand holding
    the magnitude [n / d]; [0] in the subnormal range. *)
Definition ulp_exp (n d : Z) : Z := Z.max (Z.log2 (n / d) - 52) 0.

(** The representable magnitude nearest to [n / d] units, ties to even,
    with an unbounded exponent range. *)
Definition rnd_mag (n d : Z) : Z :=
  let e := ulp_exp n d in rhe n (d * 2 ^ e) * 2 ^ e.

(** Rounding of the exact result [n / d] units with sign [neg]; magnitudes
    that round to [2^1024] or more overflow to infinity. *)
Definition round_to (neg : bool) (n d : Z) : float :=
  let m := rnd_mag n d in
  if huge <=? m then Finf neg else Ffin neg m.

Definition signed (neg : bool) (m : Z) : Z := if neg then - m else m.

(** The value of a finite float, in units. *)
Definition fval (x : float) : Z :=
  match x with Ffin s m => signed s m | _ => 0 end.

Definition is_finite (x : float) : bool :=
  match x with Ffin _ _ => true | _ => false end.

Definition is_zero (x : float) : bool :=
  match x with Ffin _ m => m =? 0 | _ => false end.

(** [x + y] *)
Definition add (x y : float) : float :=
  match x, y with
  | Fnan, _ | _, Fnan => Fnan
  | Finf s1, Finf s2 => if Bool.eqb s1 s2 then Finf s1 else Fnan
  | Finf s, Ffin _ _ | Ffin _ _, Finf s => Finf s
  | Ffin s1 m1, Ffin s2 m2 =>
      let v := signed s1 m1 + signed s2 m2 in
      if v =? 0 then Ffin (s1 && s2) 0
      else round_to (v <? 0) (Z.abs v) 1
  end.

(** [x * y] *)
Definition mul (x y : float) : float :=
  match x, y with
  | Fnan, _ | _, Fnan => Fnan
  | Finf s1, Finf s2 => Finf (xorb s1 s2)
  | Finf s1, Ffin s2 m | Ffin s1 m, Finf s2 =>
      if m =? 0 then Fnan else Finf (xorb s1 s2)
  | Ffin s1 m1, Ffin s2 m2 => round_to (xorb s1 s2) (m1 * m2) quantum
  end.

(** [x / y] for a divisor that is not zero (Python raises on a zero
    divisor before the hardware division is reached). *)
Definition div (x y : float) : float :=
  match x, y with
  | Fnan, _ | _, Fnan => Fnan
  | Finf _, Finf _ => Fnan
  | Finf s1, Ffin s2 _ => Finf (xorb s1 s2)
  | Ffin s1 _, Finf s2 => Ffin (xorb s1 s2) 0
  | Ffin s1 m1, Ffin s2 m2 => round_to (xorb s1 s2) (m1 * quantum) m2
  end.

(** The double nearest to the quotient of two integers [a / b], [b <> 0];
    the sign of a zero quotient follows CPython's [long_true_divide]. *)
Definition of_ratio (a b : Z) : float :=
  round_to (xorb (a <? 0) (b <? 0)) (Z.abs a * quantum) (Z.abs b).

(** The double nearest to an integer. *)
Definition of_Z (z : Z) : float := of_ratio z 1.

(** Order of two floats: [None] when one of them is a NaN. *)
Definition compare (x y : float) : option comparison :=
  match x, y with
  | Fnan, _ | _, Fnan => None
  | Finf s1, Finf s2 =>
      Some (if s1 then (if s2 then Eq else Lt) else (if s2 then Gt else Eq))
  | Finf s, Ffin _ _ => Some (if s then Lt else Gt)
  | Ffin _ _, Finf s => Some (if s then Gt else Lt)
  | Ffin s1 m1, Ffin s2 m2 => Some (signed s1 m1 ?= signed s2 m2)
  end.

(** Order of an integer and a float, exact as in CPython. *)
Definition compare_Z (z : Z) (y : float) : option comparison :=
  match y with
  | Fnan => None
  | Finf s => Some (if s then Gt else Lt)
  | Ffin s m => Some (z * quantum ?= signed s m)
  end.

(** [round(x, ndigits)] for [0 <= ndigits]: the exact value is rounded to
    [ndigits] decimals, ties to even, and the decimal result is converted
    back to the nearest double.  Infinities and NaN round to themselves. *)
Definition round_digits (ndigits : Z) (x : float) : float :=
  match x with
  | Ffin s m =>
      if 323 <? ndigits then x
      else
        let p := 10 ^ ndigits in
        round_to s (rhe (m * p) quantum * quantum) p
  | _ => x
  end.

(** The number of [10^-ndigits] nearest to [|x|], ties to even: the digits
    that the fixed-point formats [%.Nf] print. *)
Definition fixed_digits (ndigits : Z) (x : float) : Z :=
  match x with
  | Ffin _ m => rhe (m * 10 ^ ndigits) quantum
  | _ => 0
  end.

(** A magnitude is representable when it is a multiple of its own unit in
    the last place: it has a significand of at most 53 bits. *)
Definition rep (m : Z) : Prop := 0 <= m /\ m mod 2 ^ ulp_exp m 1 = 0.

(** The floats that the hardware has: finite ones are representable and
    in range. *)
Definition valid (x : float) : Prop :=
  match x with Ffin _ m => rep m /\ m < huge | _ => True end.

(** Interchange with the Standard Library's specification floats. *)
Definition to_spec (x : float) : SpecFloat.spec_float :=
  match x with
  | Fnan => SpecFloat.S754_nan
  | Finf s => SpecFloat.S754_infinity s
  | Ffin s m =>
      match m / 2 ^ ulp_exp m 1 with
      | Zpos p => SpecFloat.S754_finite s p (ulp_exp m 1 - 1074)
      | _ => SpecFloat.S754_zero s
      end
  end.

(** Structural equality of specification floats. *)
Definition spec_eqb (x y : SpecFloat.spec_float) : bool :=
  match x, y with
  | SpecFloat.S754_zero s1, SpecFloat.S754_zero s2 => Bool.eqb s1 s2
  | SpecFloat.S754_infinity s1, SpecFloat.S754_infinity s2 => Bool.eqb s1 s2
  | SpecFloat.S754_nan, SpecFloat.S754_nan => true
  | SpecFloat.S754_finite s1 m1 e1, SpecFloat.S754_finite s2 m2 e2 =>
      Bool.eqb s1 s2 && Pos.eqb m1 m2 && Z.eqb e1 e2
  | _, _ => false
  end.

End Float.

Import Float.

(** Agreement of an operation with the Standard Library's IEEE 754
    specification on every pair of the given samples. *)
Definition agrees (op : float -> float -> float)
    (sop : SpecFloat.spec_float -> SpecFloat.spec_float -> SpecFloat.spec_float)
    (xs ys : list float) : bool :=
  forallb (fun x => forallb (fun y =>
    spec_eqb (to_spec (op x y)) (sop (to_spec x) (to_spec y))) ys) xs.

(** ** Python values, exceptions and arithmetic *)

Inductive exn : Type :=
  | AttributeError (attr : string)
  | KeyError (key : string)
  | ZeroDivisionError
  | OverflowError
  | ValueError
  | RemoteError (msg : string).

(** The result of an expression that may raise. *)
Inductive result (A : Type) : Type :=
  | Ok (a : A)
  | Raise (e : exn).
Arguments Ok {A} a.
Arguments Raise {A} e.

Definition rbind {A B} (r : result A) (k : A -> result B) : result B :=
  match r with Ok a => k a | Raise e => Raise e end.

Declare Scope result_scope.
Delimit Scope result_scope with result.
Notation "x <- r ;; k" := (rbind r (fun x => k))
  (at level 100, r at next level, right associativity) : result_scope.

(** A Python number: [int] or [float]. *)
Inductive num : Type :=
  | NInt (z : Z)
  | NFloat (x : float).

Inductive pyval : Type :=
  | VNum (n : num)
  | VBool (b : bool)
  | VStr (s : string).

Module Py.
Local Open Scope result_scope.

(** [float(z)]: an OverflowError when the integer is out of range. *)
Definition float_of_int (z : Z) : result float :=
  match of_Z z with
  | Finf _ => Raise OverflowError
  | x => Ok x
  end.

(** [a / b] on two integers: the correctly rounded quotient. *)
Definition int_truediv (a b : Z) : result float :=
  if b =? 0 then Raise ZeroDivisionError
  else match of_ratio a b with
       | Finf _ => Raise OverflowError
       | x => Ok x
       end.

(** [x / y] on two floats. *)
Definition float_truediv (x y : float) : result float :=
  if is_zero y then Raise ZeroDivisionError else Ok (div x y).

Definition to_float (a : num) : result float :=
  match a with NInt z => float_of_int z | NFloat x => Ok x end.

(** [a + b] *)
Definition add (a b : num) : result num :=
  match a, b with
  | NInt x, NInt y => Ok (NInt (x + y))
  | _, _ => x <- to_float a ;; y <- to_float b ;; Ok (NFloat (Float.add x y))
  end.

(** [a * b] *)
Definition mul (a b : num) : result num :=
  match a, b with
  | NInt x, NInt y => Ok (NInt (x * y))
  | _, _ => x <- to_float a ;; y <- to_float b ;; Ok (NFloat (Float.mul x y))
  end.

(** [a / b] *)
Definition truediv (a b : num) : result num :=
  match a, b with
  | NInt x, NInt y => q <- int_truediv x y ;; Ok (NFloat q)
  | _, _ => x <- to_float a ;; y <- to_float b ;;
            q <- float_truediv x y ;; Ok (NFloat q)
  end.

(** The order of two numbers; [None] when a NaN is involved. *)
Definition cmp (a b : num) : option comparison :=
  match a, b with
  | NInt x, NInt y => Some (x ?= y)
  | NInt x, NFloat y => compare_Z x y
  | NFloat x, NInt y => CompOpp <$> compare_Z y x
  | NFloat x, NFloat y => Float.compare x y
  end.

(** [a < b], [a > b], [a <= b] *)
Definition lt (a b : num) : bool :=
  match cmp a b with Some Lt => true | _ => false end.
Definition gt (a b : num) : bool := lt b a.
Definition le (a b : num) : bool :=
  match cmp a b with Some Lt | Some Eq => true | _ => false end.

(** [round(a, ndigits)] with [0 <= ndigits]: an [int] is returned as it
    is, a [float] is rounded to [ndigits] decimals. *)
Definition round (a : num) (ndigits : Z) : result num :=
  match a with
  | NInt z => Ok (NInt z)
  | NFloat x =>
      match round_digits ndigits x with
      | Finf s => if is_finite x then Raise OverflowError
                  else Ok (NFloat (Finf s))
      | y => Ok (NFloat y)
      end
  end.

(** [sum(xs)]: the items are added from left to right, starting at the
    integer [0], each float addition rounded.  This is the builtin of
    CPython up to 3.11.  From 3.12 on the interpreter adds floats with a
    compensated sum, whose result can differ from this one in the last
    bit; both add integers exactly, and both return the correctly rounded
    sum of two floats.  What is proved of a float sum below is proved of
    this plain sum. *)
Fixpoint sum_from (acc : num) (xs : list num) : result num :=
  match xs with
  | [] => Ok acc
  | x :: rest => acc' <- add acc x ;; sum_from acc' rest
  end.
Definition sum (xs : list num) : result num := sum_from (NInt 0) xs.

(** [max(xs)] and [min(xs)] on a list [x :: rest]: the first of the
    largest (smallest) items, found with [>] (with [<]). *)
Definition max (x : num) (rest : list num) : num :=
  fold_left (fun best item => if gt item best then item else best) rest x.
Definition min (x : num) (rest : list num) : num :=
  fold_left (fun best item => if lt item best then item else best) rest x.

(** [len(xs)] *)
Definition len {A} (xs : list A) : Z := Z.of_nat (length xs).

(** [d[key]] on a dict, kept as the list of its items in insertion order. *)
Definition getitem {A} (d : list (string * A)) (key : string) : result A :=
  match List.find (fun kv => String.eqb (fst kv) key) d with
  | Some kv => Ok (snd kv)
  | None => Raise (KeyError key)
  end.

(** [str(z)] *)
Definition str_int (z : Z) : string := pretty z.

(** [f"{a:.1f}"] *)
Definition format_1f (a : num) : result string :=
  x <- to_float a ;;
  Ok match x with
     | Fnan => "nan"
     | Finf s => if s then "-inf" else "inf"
     | Ffin s _ =>
         let t := fixed_digits 1 x in
         (if s then "-" else EmptyString) +:+ pretty (t / 10) +:+ "." +:+ pretty (t mod 10)
     end.

End Py.

(** ** [datetime.utcfromtimestamp(ts).isoformat()] *)

Module Datetime.

Definition pad (width : nat) (z : Z) : string :=
  let s := pretty z in
  String.concat EmptyString (replicate (width - String.length s) "0") +:+ s.

(** Year, month and day of the proleptic Gregorian calendar for a count of
    days since 1970-01-01. *)
Definition civil_from_days (days : Z) : Z * Z * Z :=
  let z := days + 719468 in
  let era := z / 146097 in
  let doe := z - era * 146097 in
  let yoe := (doe - doe / 1460 + doe / 36524 - doe / 146096) / 365 in
  let doy := doe - (365 * yoe + yoe / 4 - yoe / 100) in
  let mp := (5 * doy + 2) / 153 in
  let d := doy - (153 * mp + 2) / 5 + 1 in
  let m := if mp <? 10 then mp + 3 else mp - 9 in
  let y := yoe + era * 400 + (if m <=? 2 then 1 else 0) in
  (y, m, d).

(** Seconds of 0001-01-01T00:00:00 and of 9999-12-31T23:59:59. *)
Definition min_timestamp : Z := -62135596800.
Definition max_timestamp : Z := 253402300799.

(** The ISO 8601 text of an integer Unix timestamp; a timestamp outside
    the years 1 to 9999 raises (ValueError stands for the exception that
    the platform picks). *)
Definition utc_isoformat (ts : Z) : result string :=
  if (ts <? min_timestamp) || (max_timestamp <? ts) then Raise ValueError
  else
    let '(y, m, d) := civil_from_days (ts / 86400) in
    let secs := ts mod 86400 in
    Ok (pad 4 y +:+ "-" +:+ pad 2 m +:+ "-" +:+ pad 2 d +:+ "T" +:+
        pad 2 (secs / 3600) +:+ ":" +:+ pad 2 (secs mod 3600 / 60) +:+ ":" +:+
        pad 2 (secs mod 60)).

End Datetime.

(** ** The node, the console and the program monad *)

(** A block identifier: the tag ["latest"] or a block number. *)
Inductive block_id : Type :=
  | Latest
  | BlockNum (n : Z).

(** A block as [get_block] returns it: its integer fields by name. *)
Abbreviation block := (gmap string Z).

(** The connection.  The node has a state [W] of its own, which every call
    may change (new blocks arrive while the program runs).  Every call can
    raise, the connection test too: [is_connected] stands for lines 74-75
    of [main], the construction of the provider with the timeout of the
    command line and [w3.is_connected()], and the HTTP library refuses
    some timeouts with a [ValueError]. *)
Record Web3 (W : Type) : Type := {
  is_connected : W -> result bool * W;
  eth_block_number : W -> result Z * W;
  eth_get_block : block_id -> W -> result block * W;
}.
Arguments is_connected {W}.
Arguments eth_block_number {W}.
Arguments eth_get_block {W}.

Record BlockMetrics : Type := {
  block_number : Z;
  base_fee_wei : Z;
  gas_limit : Z;
  gas_used : Z;
  utilization_percent : num;
  timestamp : string;
}.

(** What the program does to the outside, in order: remote calls and
    lines written to the console.  The lines of [main] that interpolate a
    clock reading or the [repr] of a value keep that part symbolic. *)
Inductive event : Type :=
  | EvIsConnected
  | EvBlockNumber
  | EvGetBlock (id : block_id)
  | EvPrint (line : string)
  | EvPrintClock
  | EvPrintError (e : exn)
  | EvPrintField (label : string) (v : pyval) (unit : string)
  | EvPrintElapsed
  | EvPrintJson (blocks : list BlockMetrics) (summary : list (string * pyval)).

(** State of a run: the node and the events so far, oldest first. *)
Definition state (W : Type) : Type := W * list event.

Definition M (W A : Type) : Type := state W -> result A * state W.

Section Program.

Context {W : Type} (w3 : Web3 W).

Definition ret {A} (a : A) : M W A := fun s => (Ok a, s).

Definition bind {A B} (m : M W A) (k : A -> M W B) : M W B :=
  fun s => match m s with
           | (Ok a, s') => k a s'
           | (Raise e, s') => (Raise e, s')
           end.

Definition lift {A} (r : result A) : M W A := fun s => (r, s).

Definition emit (ev : event) : M W unit :=
  fun '(w, log) => (Ok tt, (w, log ++ [ev])).

Definition print (line : string) : M W unit := emit (EvPrint line).

Definition call_block_number : M W Z :=
  fun '(w, log) =>
    let '(r, w') := eth_block_number w3 w in (r, (w', log ++ [EvBlockNumber])).

Definition call_get_block (id : block_id) : M W block :=
  fun '(w, log) =>
    let '(r, w') := eth_get_block w3 id w in (r, (w', log ++ [EvGetBlock id])).

Definition call_is_connected : M W bool :=
  fun '(w, log) =>
    let '(r, w') := is_connected w3 w in (r, (w', log ++ [EvIsConnected])).

End Program.

Declare Scope prog_scope.
Delimit Scope prog_scope with prog.
Notation "x <- m ;; k" := (bind m (fun x => k))
  (at level 100, m at next level, right associativity) : prog_scope.
Notation "m ;;; k" := (bind m (fun _ => k))
  (at level 100, right associativity) : prog_scope.

(** ** The program *)

(** [block.name] on the attribute dictionary that web3 returns. *)
Definition getattr (b : block) (name : string) : result Z :=
  match b !! name with
  | Some v => Ok v
  | None => Raise (AttributeError name)
  end.

(** [block.get(name, 0)] *)
Definition get_or_zero (b : block) (name : string) : Z :=
  default 0 (b !! name).

(** [round((gas_used / gas_limit) * 100, 2) if gas_limit else 0] *)
Definition utilization (gas_used gas_limit : Z) : result num :=
  if gas_limit =? 0 then Ok (NInt 0)
  else (q <- Py.int_truediv gas_used gas_limit ;;
        p <- Py.mul (NFloat q) (NInt 100) ;;
        Py.round p 2)%result.

(** The part of [fetch_gas_data] after the remote call. *)
Definition metrics_of_block (b : block) : result BlockMetrics :=
  (let base_fee := get_or_zero b "baseFeePerGas" in
   let gas_limit := get_or_zero b "gasLimit" in
   let gas_used := get_or_zero b "gasUsed" in
   u <- utilization gas_used gas_limit ;;
   number <- getattr b "number" ;;
   ts <- getattr b "timestamp" ;;
   iso <- Datetime.utc_isoformat ts ;;
   Ok {| block_number := number;
         base_fee_wei := base_fee;
         gas_limit := gas_limit;
         gas_used := gas_used;
         utilization_percent := u;
         timestamp := iso +:+ "Z" |})%result.

(** The line that [analyze_blocks] prints for block [i]. *)
Definition progress_line (i processed count : Z) (percent : string) : string :=
  "🔍 Analyzing block " +:+ Py.str_int i +:+ " (" +:+ Py.str_int processed +:+
  "/" +:+ Py.str_int count +:+ ", " +:+ percent +:+ "% complete)...".

(** [(processed / count) * 100] *)
Definition percent_complete (processed count : Z) : result num :=
  (q <- Py.int_truediv processed count ;;
   Py.mul (NFloat q) (NInt 100))%result.

(** [{"ok": False, "msg": "No data"}] *)
Definition no_data : list (string * pyval) :=
  [("ok", VBool false); ("msg", VStr "No data")].

(** [summarize(blocks)] *)
Definition summarize (blocks : list BlockMetrics)
  : result (list (string * pyval)) :=
  match map utilization_percent blocks with
  | [] => Ok no_data
  | u :: us =>
      (let utils := u :: us in
       total <- Py.sum utils ;;
       avg_util <- Py.truediv total (NInt (Py.len utils)) ;;
       let high := Py.max u us in
       let low := Py.min u us in
       fees <- Py.sum (map (fun b => NInt (base_fee_wei b)) blocks) ;;
       avg_base_fee <- Py.truediv fees (NInt (Py.len blocks)) ;;
       r_avg <- Py.round avg_util 2 ;;
       r_high <- Py.round high 2 ;;
       r_low <- Py.round low 2 ;;
       gwei <- Py.truediv avg_base_fee (NFloat (of_Z 1000000000)) ;;
       r_fee <- Py.round gwei 3 ;;
       Ok [("avg_utilization_percent", VNum r_avg);
           ("max_utilization_percent", VNum r_high);
           ("min_utilization_percent", VNum r_low);
           ("avg_base_fee_gwei", VNum r_fee);
           ("total_blocks", VNum (NInt (Py.len blocks)))])%result
  end.

(** Command-line arguments after [parse_args]. *)
Record Args : Type := {
  rpc : string;
  count : Z;
  json : bool;
  timeout : Z;
}.

(** How the process ends: [sys.exit(code)], or an exception that nothing
    catches. *)
Inductive outcome : Type :=
  | Exit (code : Z)
  | Uncaught (e : exn).

(** The exit status the shell sees: the interpreter ends with status 1 on
    an uncaught exception. *)
Definition exit_status (o : outcome) : Z :=
  match o with Exit code => code | Uncaught _ => 1 end.

Section Stages.

Context {W : Type} (w3 : Web3 W).
Local Open Scope prog_scope.

(** [fetch_gas_data(w3, block_id)] *)
Definition fetch_gas_data (id : block_id) : M W BlockMetrics :=
  b <- call_get_block w3 id ;;
  lift (metrics_of_block b).

(** One turn of the loop of [analyze_blocks]. *)
Definition analyze_step (latest count i : Z) : M W BlockMetrics :=
  let processed := i - (latest - count + 1) + 1 in
  percent <- lift (percent_complete processed count) ;;
  text <- lift (Py.format_1f percent) ;;
  print (progress_line i processed count text) ;;;
  fetch_gas_data (BlockNum i).

(** The loop [for i in range(...)], on the numbers still to visit. *)
Fixpoint analyze_loop (latest count : Z) (todo : list Z)
    (blocks : list BlockMetrics) : M W (list BlockMetrics) :=
  match todo with
  | [] => ret blocks
  | i :: rest =>
      b <- analyze_step latest count i ;;
      analyze_loop latest count rest (blocks ++ [b])
  end.

(** [range(lo, hi)] *)
Definition range (lo hi : Z) : list Z := seqZ lo (hi - lo).

(** [analyze_blocks(w3, count)] *)
Definition analyze_blocks (count : Z) : M W (list BlockMetrics) :=
  latest <- call_block_number w3 ;;
  analyze_loop latest count (range (latest - count + 1) (latest + 1)) [].

(** The lines of the summary, each one reading its key from the dict. *)
Fixpoint print_fields (summary : list (string * pyval))
    (fields : list (string * string * string)) : M W unit :=
  match fields with
  | [] => ret tt
  | field :: rest =>
      let '(key, label, unit) := field in
      v <- lift (Py.getitem summary key) ;;
      emit (EvPrintField label v unit) ;;;
      print_fields summary rest
  end.

Definition summary_fields : list (string * string * string) :=
  [("avg_utilization_percent", "  • Avg Utilization: ", "%");
   ("max_utilization_percent", "  • Max Utilization: ", "%");
   ("min_utilization_percent", "  • Min Utilization: ", "%");
   ("avg_base_fee_gwei", "  • Avg Base Fee: ", " Gwei");
   ("total_blocks", "  • Blocks Analyzed: ", EmptyString)].

(** The end of [main], after the [try] block. *)
Definition report (args : Args) (blocks : list BlockMetrics)
    (summary : list (string * pyval)) : M W unit :=
  print (String (Ascii.ascii_of_nat 10) "📊 Summary:") ;;;
  print_fields summary summary_fields ;;;
  emit EvPrintElapsed ;;;
  if json args then emit (EvPrintJson blocks summary) else ret tt.

(** [main()], from the arguments that [parse_args()] returned to the end
    of the process; [--help] and a usage error end the process inside
    [argparse], before any of this. *)
Definition main (args : Args) (s : state W) : outcome * state W :=
  if negb (String.prefix "http://" (rpc args)
           || String.prefix "https://" (rpc args))
  then let '(_, s1) := print "❌ Invalid RPC URL format." s in (Exit 1, s1)
  else
    match call_is_connected w3 s with
    | (Raise e, s1) => (Uncaught e, s1)
    | (Ok false, s1) =>
        let '(_, s2) := print "❌ RPC connection failed. Check RPC_URL." s1 in
        (Exit 1, s2)
    | (Ok true, s1) =>
        let banner :=
          print "🔧 zk-gas-soundness" ;;;
          print ("🔗 RPC: " +:+ rpc args) ;;;
          print ("🧱 Blocks to analyze: " +:+ Py.str_int (count args)) ;;;
          emit EvPrintClock in
        let '(_, s2) := banner s1 in
        let body :=
          blocks <- analyze_blocks (count args) ;;
          summary <- lift (summarize blocks) ;;
          ret (blocks, summary) in
        match body s2 with
        | (Raise e, s3) =>
            let '(_, s4) := emit (EvPrintError e) s3 in (Exit 2, s4)
        | (Ok (blocks, summary), s3) =>
            match report args blocks summary s3 with
            | (Raise e, s4) => (Uncaught e, s4)
            | (Ok _, s4) => (Exit 0, s4)
            end
        end
    end.

End Stages.

(** ** Notions used in the statements *)

(** The quantities of the JSON-RPC interface are 256-bit unsigned
    integers. *)
Definition uint256 (z : Z) : Prop := 0 <= z < 2 ^ 256.

(** A record as [fetch_gas_data] builds it from 256-bit quantities. *)
Definition fetched (b : BlockMetrics) : Prop :=
  uint256 (base_fee_wei b) /\ uint256 (gas_limit b) /\ uint256 (gas_used b)
  /\ utilization (gas_used b) (gas_limit b) = Ok (utilization_percent b).

(** The same, for a response that respects [0 <= gasUsed <= gasLimit]. *)
Definition nominal (b : BlockMetrics) : Prop :=
  fetched b /\ gas_used b <= gas_limit b.

(** A node serves block [i] in the states [P] when every request for it
    made in such a state is answered with a block that carries this number
    and that [fetch_gas_data] accepts, and leaves the node in such a
    state. *)
Definition serves {W} (w3 : Web3 W) (P : W -> Prop) (i : Z) : Prop :=
  forall w, P w -> exists b w' bm,
    eth_get_block w3 (BlockNum i) w = (Ok b, w')
    /\ P w'
    /\ b !! "number" = Some i
    /\ metrics_of_block b = Ok bm.

(** The percentage as the progress line shows it. *)
Definition progress_text (processed count : Z) : string :=
  match (p <- percent_complete processed count ;; Py.format_1f p)%result with
  | Ok text => text
  | Raise _ => EmptyString
  end.

(** The two events of the turn of the loop for block [i]. *)
Definition turn_events (latest count i : Z) : list event :=
  let processed := i - (latest - count + 1) + 1 in
  [EvPrint (progress_line i processed count (progress_text processed count));
   EvGetBlock (BlockNum i)].

(** The largest length of a list (CPython on a 64-bit platform). *)
Definition sys_maxsize : Z := 2 ^ 63 - 1.

(** A float read as a number, an integer converted. *)
Definition as_float (a : num) : float :=
  match a with NInt z => of_Z z | NFloat x => x end.

(** The sum of floats from left to right, starting at [0.0]. *)
Definition fsum (xs : list float) : float := fold_left Float.add xs (of_Z 0).

(** The mean of a list of numbers, in floating point. *)
Definition fmean (xs : list num) : float :=
  div (fsum (map as_float xs)) (of_Z (Py.len xs)).

(** Rounding to [ndigits] decimals that leaves an [int] as it is. *)
Definition round_num (ndigits : Z) (a : num) : num :=
  match a with
  | NInt z => NInt z
  | NFloat x => NFloat (round_digits ndigits x)
  end.

(** The dict that [summarize] builds for a non-empty list when none of its
    operations raises, as one expression: the floating-point mean of the
    utilizations, their maximum and minimum, each rounded, the mean fee
    in gwei and the element count. *)
Definition summary_spec (blocks : list BlockMetrics) : list (string * pyval) :=
  let utils := map utilization_percent blocks in
  let n := Py.len blocks in
  [("avg_utilization_percent", VNum (NFloat (round_digits 2 (fmean utils))));
   ("max_utilization_percent",
      VNum (round_num 2 (Py.max (hd (NInt 0) utils) (tl utils))));
   ("min_utilization_percent",
      VNum (round_num 2 (Py.min (hd (NInt 0) utils) (tl utils))));
   ("avg_base_fee_gwei",
      VNum (NFloat (round_digits 3
        (div (of_ratio (foldr Z.add 0 (map base_fee_wei blocks)) n)
             (of_Z 1000000000)))));
   ("total_blocks", VNum (NInt n))].

(** A utilization as [fetch_gas_data] stores it: the integer 0, or a
    non-negative finite float of at most [bound] units. *)
Definition percentage (bound : Z) (u : num) : Prop :=
  match u with
  | NInt z => z = 0
  | NFloat (Ffin false m) => rep m /\ m <= bound
  | _ => False
  end.

(** A utilization that stands for [t] hundredths of a percent: the integer
    0, or the double nearest to [t / 100]. *)
Definition hundredths (t : Z) (u : num) : Prop :=
  u = NInt 0 /\ t = 0 \/ u = NFloat (Ffin false (rnd_mag (t * quantum) 100)).

(** The numbers that a list of utilizations holds. *)
Definition zero_or_float (a : num) : Prop :=
  a = NInt 0 \/ exists x, a = NFloat x /\ valid x.

(** The exact value of a finite number, in units of [2^-1074]. *)
Definition val (a : num) : Z :=
  match a with NInt z => z * quantum | NFloat x => fval x end.

(** The numbers that are neither infinite nor NaN. *)
Definition finite_num (a : num) : Prop :=
  match a with NInt _ => True | NFloat x => is_finite x = true end.

(** Spacing of the doubles below 128, and below [2^39], in units. *)
Definition ulp_pct : Z := 2 ^ 1028.
Definition ulp_sum : Z := 2 ^ 1060.

(** ** Sample responses and nodes *)

Definition sample_block (number ts gasLimit gasUsed baseFee : Z) : block :=
  <["number" := number]> (<["timestamp" := ts]> (<["gasLimit" := gasLimit]>
  (<["gasUsed" := gasUsed]> (<["baseFeePerGas" := baseFee]> ∅)))).

(** A node whose state is its head: it serves the blocks [0 .. head], all
    half full, and knows no other. *)
Definition steady_node : Web3 Z := {|
  is_connected := fun head => (Ok true, head);
  eth_block_number := fun head => (Ok head, head);
  eth_get_block := fun id head =>
    let answer i :=
      Ok (sample_block i (1700000000 + 12 * i) 30000000 15000000 1000000000) in
    match id with
    | Latest => (answer head, head)
    | BlockNum i =>
        if (0 <=? i) && (i <=? head) then (answer i, head)
        else (Raise (RemoteError "BlockNotFound"), head)
    end;
|}.

(** A node that answers every request for a block with the same response. *)
Definition constant_node (b : block) : Web3 unit := {|
  is_connected := fun w => (Ok true, w);
  eth_block_number := fun w => (Ok (default 0 (b !! "number")), w);
  eth_get_block := fun _ w => (Ok b, w);
|}.

(** A node that reports head 5 and then times out on every block. *)
Definition stalled_node : Web3 unit := {|
  is_connected := fun w => (Ok true, w);
  eth_block_number := fun w => (Ok 5, w);
  eth_get_block := fun _ w => (Raise (RemoteError "timeout"), w);
|}.

(** A response of a chain without gas accounting fields. *)
Definition bare_block : block :=
  <["number" := 7]> (<["timestamp" := 1700000000]> ∅).

(** A response that lacks only [gasUsed]. *)
Definition no_gas_used_block : block :=
  <["number" := 7]> (<["timestamp" := 1700000000]>
  (<["gasLimit" := 30000000]> ∅)).

(** A response for a block from before the base fee existed: it has every
    field but [baseFeePerGas]. *)
Definition pre_london_block : block :=
  <["number" := 12964999]> (<["timestamp" := 1628166812]>
  (<["gasLimit" := 15000000]> (<["gasUsed" := 7500000]> ∅))).

(** A response without [number]. *)
Definition unnumbered_block : block :=
  <["timestamp" := 1700000000]> (<["gasLimit" := 30000000]>
  (<["gasUsed" := 15000000]> (<["baseFeePerGas" := 1000000000]> ∅))).

(** A record with the given gas figures and fee, its utilization computed
    as [fetch_gas_data] does. *)
Definition metrics (number gasLimit gasUsed baseFee : Z) : BlockMetrics := {|
  block_number := number;
  base_fee_wei := baseFee;
  gas_limit := gasLimit;
  gas_used := gasUsed;
  utilization_percent :=
    match utilization gasUsed gasLimit with Ok u => u | Raise _ => NInt 0 end;
  timestamp := "2023-11-14T22:13:20Z";
|}.

(** Three blocks with utilization 10.0, 20.0 and 30.0 and base fees of 1,
    2 and 3 gwei. *)
Definition scenario_blocks : list BlockMetrics :=
  [metrics 1 30000000 3000000 1000000000;
   metrics 2 30000000 6000000 2000000000;
   metrics 3 30000000 9000000 3000000000].

(** Three blocks that used [10^14] gas against a limit of 3. *)
Definition overfull_blocks : list BlockMetrics :=
  [metrics 1 3 100000000000000 1000000000;
   metrics 2 3 100000000000000 1000000000;
   metrics 3 3 100000000000000 1000000000].

(** A node yields block [i] with [Q] in the states [P] when every request
    for it made in such a state is answered with a block from which
    [fetch_gas_data] builds a record that satisfies [Q], and leaves the
    node in such a state. *)
Definition yields {W} (w3 : Web3 W) (P : W -> Prop)
    (Q : BlockMetrics -> Prop) (i : Z) : Prop :=
  forall w, P w -> exists b w' bm,
    eth_get_block w3 (BlockNum i) w = (Ok b, w')
    /\ P w' /\ metrics_of_block b = Ok bm /\ Q bm.

(** A node refuses block [i] with [e] in the states [P] when no record
    comes out of a request for it: the call raises [e], or the response
    makes [fetch_gas_data] raise [e]. *)
Definition refuses {W} (w3 : Web3 W) (P : W -> Prop) (i : Z) (e : exn)
  : Prop :=
  forall w, P w ->
    rbind (fst (eth_get_block w3 (BlockNum i) w)) metrics_of_block = Raise e.

(** A node behind a load balancer: it reports head 1000, and the backend
    that answers [get_block] has the blocks up to 999 only. *)
Definition lagging_node : Web3 unit := {|
  is_connected := fun w => (Ok true, w);
  eth_block_number := fun w => (Ok 1000, w);
  eth_get_block := fun id w =>
    match id with
    | BlockNum i =>
        if (0 <=? i) && (i <=? 999)
        then (Ok (sample_block i (1700000000 + 12 * i) 30000000 15000000
                    1000000000), w)
        else (Raise (RemoteError "BlockNotFound"), w)
    | Latest => (Raise (RemoteError "BlockNotFound"), w)
    end;
|}.

(** Whether [main] accepts the URL: [rpc.startswith(("http://", "https://"))]. *)
Definition has_http_scheme (url : string) : bool :=
  String.prefix "http://" url || String.prefix "https://" url.

(** The events of [main] from the connection test to the start of the
    analysis. *)
Definition banner_events (args : Args) : list event :=
  [EvIsConnected;
   EvPrint "🔧 zk-gas-soundness";
   EvPrint ("🔗 RPC: " +:+ rpc args);
   EvPrint ("🧱 Blocks to analyze: " +:+ Py.str_int (count args));
   EvPrintClock].

(** The events of [main] after the analysis of [blocks] gave the five
    figures: the summary, the elapsed time and, on request, the JSON
    document. *)
Definition summary_events (args : Args) (blocks : list BlockMetrics)
    (avg high low fee : num) : list event :=
  let summary :=
    [("avg_utilization_percent", VNum avg);
     ("max_utilization_percent", VNum high);
     ("min_utilization_percent", VNum low);
     ("avg_base_fee_gwei", VNum fee);
     ("total_blocks", VNum (NInt (Py.len blocks)))] in
  [EvPrint (String (Ascii.ascii_of_nat 10) "📊 Summary:");
   EvPrintField "  • Avg Utilization: " (VNum avg) "%";
   EvPrintField "  • Max Utilization: " (VNum high) "%";
   EvPrintField "  • Min Utilization: " (VNum low) "%";
   EvPrintField "  • Avg Base Fee: " (VNum fee) " Gwei";
   EvPrintField "  • Blocks Analyzed: " (VNum (NInt (Py.len blocks)))
     EmptyString;
   EvPrintElapsed]
  ++ (if json args then [EvPrintJson blocks summary] else []).

(** A node that is not reachable. *)
Definition offline_node : Web3 unit := {|
  is_connected := fun w => (Ok false, w);
  eth_block_number := fun w => (Raise (RemoteError "ConnectionError"), w);
  eth_get_block := fun _ w => (Raise (RemoteError "ConnectionError"), w);
|}.

(** The magnitude of [round((gas_used / gas_limit) * 100, 2)] for
    [0 <= gas_used] and [0 < gas_limit], rounding by rounding: the
    quotient, the product, the decimal digits and the double nearest to
    them. *)
Definition utilization_mag (gas_used gas_limit : Z) : Z :=
  let q := rnd_mag (gas_used * quantum) gas_limit in
  let p := rnd_mag (q * (100 * quantum)) quantum in
  rnd_mag (rhe (p * 100) quantum * quantum) 100.

(** The magnitude of [(processed / count) * 100]. *)
Definition percent_mag (processed count : Z) : Z :=
  rnd_mag (rnd_mag (processed * quantum) count * (100 * quantum)) quantum.

(** [round(fee / 1e9, 3)]: a fee in wei shown in gwei. *)
Definition gwei (fee : Z) : result num :=
  (g <- Py.truediv (NInt fee) (NFloat (of_Z 1000000000)) ;;
   Py.round g 3)%result.

(** The magnitude of [round(total / n / 1e9, 3)] for [0 <= total] and
    [0 < n], rounding by rounding. *)
Definition gwei_mag (total n : Z) : Z :=
  let a := rnd_mag (total * quantum) n in
  let g := rnd_mag (a * quantum) (1000000000 * quantum) in
  rnd_mag (rhe (g * 1000) quantum * quantum) 1000.

(** Strings of exactly [n] decimal digits. *)
Definition is_digit (c : Ascii.ascii) : bool :=
  (48 <=? Ascii.nat_of_ascii c)%nat && (Ascii.nat_of_ascii c <=? 57)%nat.

Fixpoint all_digits (s : string) : bool :=
  match s with
  | EmptyString => true
  | String c rest => is_digit c && all_digits rest
  end.

Definition is_digits (n : nat) (s : string) : bool :=
  Nat.eqb (String.length s) n && all_digits s.

(** The form [YYYY-MM-DDTHH:MM:SSZ]. *)
Definition iso_utc_shape (s : string) : Prop :=
  exists Y Mo D H Mi S,
    s = Y +:+ "-" +:+ Mo +:+ "-" +:+ D +:+ "T" +:+ H +:+ ":" +:+ Mi +:+ ":"
        +:+ S +:+ "Z"
    /\ is_digits 4 Y = true /\ is_digits 2 Mo = true /\ is_digits 2 D = true
    /\ is_digits 2 H = true /\ is_digits 2 Mi = true /\ is_digits 2 S = true.

(** The sum of the exact values of a list of finite numbers, in units of
    [2^-1074]. *)
Definition total_val (xs : list num) : Z := foldr Z.add 0 (map val xs).

(** The arithmetic mean of a non-empty list of finite numbers rounded to
    [nd] decimals, in exact arithmetic (ties to the even neighbour), as a
    count of [10^-nd]: the words of the specification, with no floating
    point in between. *)
Definition rounded_mean (nd : Z) (xs : list num) : Z :=
  rhe (10 ^ nd * total_val xs) (Py.len xs * quantum).

(** Two blocks that used 22.77 % and 65.42 % of their gas limit. *)
Definition tie_blocks : list BlockMetrics :=
  [metrics 1 30000000 6831000 1000000000;
   metrics 2 30000000 19626000 1000000000].

(** ** Facts about rounding *)

Lemma rhe_cases n d :
  0 < d ->
  exists m, rhe n d = m /\
    (2 * (n - m * d) < d /\ - d < 2 * (n - m * d)
     \/ (2 * (n - m * d) = d \/ 2 * (n - m * d) = - d) /\ Z.even m = true).
Proof.
  intros Hd. unfold rhe.
  pose proof (Z.div_mod n d ltac:(lia)) as Hdm.
  pose proof (Z.mod_pos_bound n d Hd) as Hr.
  set (q := n / d) in *. set (r := n mod d) in *.
  destruct (Z.ltb_spec (2 * r) d).
  - exists q. split; [reflexivity|]. left. nia.
  - destruct (Z.ltb_spec d (2 * r)).
    + exists (q + 1). split; [reflexivity|]. left. nia.
    + destruct (Z.even q) eqn:He.
      * exists q. split; [reflexivity|]. right. split; [left; nia | exact He].
      * exists (q + 1). split; [reflexivity|]. right. split; [right; nia|].
        rewrite Z.even_add, He. reflexivity.
Qed.

Lemma rhe_near n d : 0 < d -> - d <= 2 * (n - rhe n d * d) <= d.
Proof.
  intros Hd. destruct (rhe_cases n d Hd) as (m & -> & H). lia.
Qed.

Lemma even_succ_false m : Z.even m = true -> Z.even (m + 1) = true -> False.
Proof. rewrite Z.even_add. intros ->. discriminate. Qed.

Lemma rhe_mono n1 d1 n2 d2 :
  0 < d1 -> 0 < d2 -> n1 * d2 <= n2 * d1 -> rhe n1 d1 <= rhe n2 d2.
Proof.
  intros H1 H2 Hle.
  destruct (rhe_cases n1 d1 H1) as (m1 & -> & C1).
  destruct (rhe_cases n2 d2 H2) as (m2 & -> & C2).
  destruct (Z_le_gt_dec m1 m2) as [|Hgt]; [assumption|exfalso].
  assert (Hk : m2 + 1 <= m1) by lia.
  assert (E1 : (2 * m1 - 1) * d1 <= 2 * n1) by nia.
  assert (E2 : 2 * n2 <= (2 * m2 + 1) * d2) by nia.
  assert (E3 : (2 * m1 - 1) * (d1 * d2) <= (2 * m2 + 1) * (d1 * d2)) by nia.
  assert (E4 : m1 = m2 + 1) by nia.
  subst m1.
  assert (E5 : 2 * n1 * d2 = (2 * m2 + 1) * (d1 * d2)) by nia.
  assert (E6 : 2 * n2 * d1 = (2 * m2 + 1) * (d1 * d2)) by nia.
  assert (T1 : 2 * (n1 - (m2 + 1) * d1) = - d1) by nia.
  assert (T2 : 2 * (n2 - m2 * d2) = d2) by nia.
  destruct C1 as [C1|[_ Ev1]]; [lia|].
  destruct C2 as [C2|[_ Ev2]]; [lia|].
  eapply even_succ_false; eassumption.
Qed.

Lemma rhe_exact k d : 0 < d -> rhe (k * d) d = k.
Proof.
  intros Hd. unfold rhe. rewrite Z.div_mul, Z.mod_mul by lia.
  destruct (Z.ltb_spec (2 * 0) d); [reflexivity|lia].
Qed.

Lemma rhe_scale k n d : 0 < k -> 0 < d -> rhe (k * n) (k * d) = rhe n d.
Proof.
  intros Hk Hd. unfold rhe.
  rewrite Z.div_mul_cancel_l by lia.
  rewrite Zmult_mod_distr_l.
  pose proof (Z.mod_pos_bound n d Hd).
  assert (E1 : (2 * (k * (n mod d)) <? k * d) = (2 * (n mod d) <? d)).
  { destruct (Z.ltb_spec (2 * (n mod d)) d), (Z.ltb_spec (2 * (k * (n mod d))) (k * d));
      try reflexivity; nia. }
  assert (E2 : (k * d <? 2 * (k * (n mod d))) = (d <? 2 * (n mod d))).
  { destruct (Z.ltb_spec d (2 * (n mod d))), (Z.ltb_spec (k * d) (2 * (k * (n mod d))));
      try reflexivity; nia. }
  rewrite E1, E2. reflexivity.
Qed.

Lemma rhe_nonneg n d : 0 <= n -> 0 < d -> 0 <= rhe n d.
Proof.
  intros Hn Hd. rewrite <- (rhe_exact 0 d Hd) at 1. apply rhe_mono; lia.
Qed.

Lemma ulp_exp_nonneg n d : 0 <= ulp_exp n d.
Proof. unfold ulp_exp. lia. Qed.

Lemma pow2_pos n d : 0 < 2 ^ ulp_exp n d.
Proof. apply Z.pow_pos_nonneg; [lia|apply ulp_exp_nonneg]. Qed.

Lemma div_le_cross n1 d1 n2 d2 :
  0 < d1 -> 0 < d2 -> n1 * d2 <= n2 * d1 -> n1 / d1 <= n2 / d2.
Proof.
  intros H1 H2 H. apply Z.div_le_lower_bound; [lia|].
  pose proof (Z.mul_div_le n1 d1 H1). nia.
Qed.

Lemma ulp_exp_mono n1 d1 n2 d2 :
  0 <= n1 -> 0 < d1 -> 0 < d2 -> n1 * d2 <= n2 * d1 ->
  ulp_exp n1 d1 <= ulp_exp n2 d2.
Proof.
  intros Hn H1 H2 H. unfold ulp_exp.
  pose proof (div_le_cross _ _ _ _ H1 H2 H).
  assert (0 <= n1 / d1) by (apply Z.div_pos; lia).
  pose proof (Z.log2_le_mono (n1 / d1) (n2 / d2) ltac:(lia)). lia.
Qed.

(** The significand is at most [2^53] ... *)
Lemma sig_upper n d :
  0 <= n -> 0 < d -> n < d * 2 ^ (ulp_exp n d) * 2 ^ 53.
Proof.
  intros Hn Hd. unfold ulp_exp.
  assert (Hk : 0 <= n / d) by (apply Z.div_pos; lia).
  set (k := n / d) in *.
  assert (Hlt : k < 2 ^ (Z.log2 k + 1)).
  { destruct (Z.eq_dec k 0) as [->|]; [reflexivity|].
    pose proof (Z.log2_spec k ltac:(lia)). rewrite <- Z.add_1_r in *. lia. }
  pose proof (Z.log2_nonneg k).
  assert (Hle : 2 ^ (Z.log2 k + 1) <= 2 ^ (Z.max (Z.log2 k - 52) 0) * 2 ^ 53).
  { rewrite <- Z.pow_add_r by lia. apply Z.pow_le_mono_r; lia. }
  assert (n < d * (k + 1)).
  { pose proof (Z.div_mod n d ltac:(lia)). pose proof (Z.mod_pos_bound n d Hd).
    unfold k. nia. }
  assert (0 < 2 ^ (Z.max (Z.log2 k - 52) 0)) by (apply Z.pow_pos_nonneg; lia).
  nia.
Qed.

(** ... and at least [2^52] outside the subnormal range. *)
Lemma sig_lower n d :
  0 <= n -> 0 < d -> 0 < ulp_exp n d ->
  d * 2 ^ (ulp_exp n d) * 2 ^ 52 <= n.
Proof.
  intros Hn Hd. unfold ulp_exp. intros He.
  assert (Hk : 0 <= n / d) by (apply Z.div_pos; lia).
  set (k := n / d) in *.
  assert (k <> 0) by (intros E; rewrite E in He; simpl in He; lia).
  pose proof (Z.log2_spec k ltac:(lia)) as [Hlo _].
  replace (Z.max (Z.log2 k - 52) 0) with (Z.log2 k - 52) by lia.
  assert (E : 2 ^ (Z.log2 k - 52) * 2 ^ 52 = 2 ^ Z.log2 k).
  { rewrite <- Z.pow_add_r by lia. f_equal. lia. }
  pose proof (Z.mul_div_le n d Hd). fold k in H0.
  nia.
Qed.

Lemma rnd_sig_le n d :
  0 <= n -> 0 < d -> rhe n (d * 2 ^ ulp_exp n d) <= 2 ^ 53.
Proof.
  intros Hn Hd. pose proof (pow2_pos n d).
  rewrite <- (rhe_exact (2 ^ 53) (d * 2 ^ ulp_exp n d)) by nia.
  apply rhe_mono; try nia. pose proof (sig_upper n d Hn Hd). nia.
Qed.

Lemma rnd_sig_ge n d :
  0 <= n -> 0 < d -> 0 < ulp_exp n d -> 2 ^ 52 <= rhe n (d * 2 ^ ulp_exp n d).
Proof.
  intros Hn Hd He. pose proof (pow2_pos n d).
  rewrite <- (rhe_exact (2 ^ 52) (d * 2 ^ ulp_exp n d)) at 1 by nia.
  apply rhe_mono; try nia. pose proof (sig_lower n d Hn Hd He). nia.
Qed.

Lemma rnd_mag_nonneg n d : 0 <= n -> 0 < d -> 0 <= rnd_mag n d.
Proof.
  intros Hn Hd. unfold rnd_mag. pose proof (pow2_pos n d).
  pose proof (rhe_nonneg n (d * 2 ^ ulp_exp n d) Hn ltac:(nia)). nia.
Qed.

Lemma rnd_mag_mono n1 d1 n2 d2 :
  0 <= n1 -> 0 < d1 -> 0 < d2 -> n1 * d2 <= n2 * d1 ->
  rnd_mag n1 d1 <= rnd_mag n2 d2.
Proof.
  intros Hn H1 H2 H.
  assert (Hn2 : 0 <= n2) by nia.
  pose proof (ulp_exp_mono _ _ _ _ Hn H1 H2 H) as He.
  pose proof (ulp_exp_nonneg n1 d1) as He1.
  unfold rnd_mag.
  set (e1 := ulp_exp n1 d1) in *. set (e2 := ulp_exp n2 d2) in *.
  pose proof (pow2_pos n1 d1). pose proof (pow2_pos n2 d2). fold e1 in H0. fold e2 in H3.
  destruct (Z.eq_dec e1 e2) as [E|NE].
  - rewrite <- E. apply Z.mul_le_mono_nonneg_r; [lia|].
    apply rhe_mono; nia.
  - pose proof (rnd_sig_le n1 d1 Hn H1) as U. fold e1 in U.
    pose proof (rnd_sig_ge n2 d2 Hn2 H2 ltac:(fold e2; lia)) as L. fold e2 in L.
    assert (P : 2 ^ e2 = 2 ^ e1 * 2 ^ (e2 - e1)).
    { rewrite <- Z.pow_add_r by lia. f_equal. lia. }
    assert (2 <= 2 ^ (e2 - e1)).
    { change 2 with (2 ^ 1) at 1. apply Z.pow_le_mono_r; lia. }
    pose proof (rhe_nonneg n1 (d1 * 2 ^ e1) Hn ltac:(nia)).
    change (2 ^ 53) with (2 * 2 ^ 52) in U.
    nia.
Qed.

Lemma rnd_mag_scale k n d :
  0 < k -> 0 < d -> rnd_mag (k * n) (k * d) = rnd_mag n d.
Proof.
  intros Hk Hd. unfold rnd_mag, ulp_exp.
  rewrite Z.div_mul_cancel_l by lia.
  rewrite <- Z.mul_assoc, rhe_scale; [reflexivity|lia|].
  apply Z.mul_pos_pos; [lia|]. apply Z.pow_pos_nonneg; lia.
Qed.

Lemma rnd_mag_id m : rep m -> rnd_mag m 1 = m.
Proof.
  intros [Hm Hmod]. unfold rnd_mag.
  pose proof (pow2_pos m 1) as Hp.
  set (e := ulp_exp m 1) in *.
  rewrite Z.mul_1_l. unfold rhe. rewrite Hmod.
  destruct (Z.ltb_spec (2 * 0) (2 ^ e)); [|lia].
  pose proof (Z.div_mod m (2 ^ e) ltac:(lia)). lia.
Qed.

Lemma ulp_exp_shift j p :
  0 < j -> 0 <= p -> ulp_exp (j * 2 ^ p) 1 = Z.max (Z.log2 j + p - 52) 0.
Proof.
  intros Hj Hp. unfold ulp_exp. rewrite Z.div_1_r.
  rewrite Z.log2_mul_pow2 by lia. f_equal. lia.
Qed.

(** Significands of at most 53 bits, at any exponent, are representable. *)
Lemma rep_shift j p : 0 <= j <= 2 ^ 53 -> 0 <= p -> rep (j * 2 ^ p).
Proof.
  intros Hj Hp. assert (0 < 2 ^ p) by (apply Z.pow_pos_nonneg; lia).
  split; [nia|].
  destruct (Z.eq_dec j 0) as [->|Hnz]; [rewrite Z.mul_0_l; apply Z.mod_0_l;
    pose proof (pow2_pos 0 1); lia|].
  rewrite ulp_exp_shift by lia.
  assert (Hl : Z.log2 j <= 53).
  { rewrite <- (Z.log2_pow2 53) by lia. apply Z.log2_le_mono. lia. }
  pose proof (Z.log2_nonneg j).
  destruct (Z.eq_dec (Z.log2 j) 53) as [E|NE].
  - assert (j = 2 ^ 53).
    { pose proof (Z.log2_spec j ltac:(lia)). rewrite E in *. lia. }
    subst j. rewrite E.
    replace (Z.max (53 + p - 52) 0) with (p + 1) by lia.
    rewrite <- Z.pow_add_r by lia.
    replace (53 + p) with (52 + (p + 1)) by lia.
    rewrite Z.pow_add_r by lia. apply Z.mod_mul.
    apply Z.pow_nonzero; lia.
  - set (e := Z.max (Z.log2 j + p - 52) 0).
    assert (0 <= e <= p) by lia.
    replace p with ((p - e) + e) by lia.
    rewrite Z.pow_add_r by lia. rewrite Z.mul_assoc. apply Z.mod_mul.
    apply Z.pow_nonzero; lia.
Qed.

Lemma rnd_mag_rep n d : 0 <= n -> 0 < d -> rep (rnd_mag n d).
Proof.
  intros Hn Hd. unfold rnd_mag. apply rep_shift; [|apply ulp_exp_nonneg].
  split; [|apply rnd_sig_le; assumption].
  apply rhe_nonneg; [assumption|]. pose proof (pow2_pos n d). nia.
Qed.

(** The absolute error of one rounding, for a value below [2^(E+53)]. *)
Lemma rnd_mag_error n d E :
  0 <= n -> 0 < d -> 0 <= E -> n < d * 2 ^ (E + 53) ->
  - (d * 2 ^ E) <= 2 * (n - rnd_mag n d * d) <= d * 2 ^ E.
Proof.
  intros Hn Hd HE Hlt.
  assert (He : ulp_exp n d <= E).
  { unfold ulp_exp. apply Z.max_lub; [|assumption].
    assert (Hk : 0 <= n / d) by (apply Z.div_pos; lia).
    destruct (Z.eq_dec (n / d) 0) as [->|]; [simpl; lia|].
    assert (n / d < 2 ^ (E + 53)).
    { apply Z.div_lt_upper_bound; lia. }
    pose proof (proj1 (Z.log2_lt_pow2 (n / d) (E + 53) ltac:(lia)) H). lia. }
  pose proof (ulp_exp_nonneg n d). pose proof (pow2_pos n d).
  unfold rnd_mag. set (e := ulp_exp n d) in *.
  pose proof (rhe_near n (d * 2 ^ e) ltac:(nia)) as Hnear.
  assert (2 ^ e <= 2 ^ E) by (apply Z.pow_le_mono_r; lia).
  nia.
Qed.

Lemma quantum_pos : 0 < quantum.
Proof. reflexivity. Qed.

Lemma huge_eq : huge = 2 ^ 1024 * quantum.
Proof. reflexivity. Qed.

(** Integers below [2^53] convert exactly. *)
Lemma rnd_mag_int z : 0 <= z <= 2 ^ 53 -> rnd_mag (z * quantum) 1 = z * quantum.
Proof.
  intros Hz. apply rnd_mag_id. apply (rep_shift z 1074); lia.
Qed.

(** ** Facts about the Python operations *)

Lemma quantum_eq : quantum = 2 ^ 1074.
Proof. reflexivity. Qed.

Lemma quantum_lt_huge : quantum < huge.
Proof. reflexivity. Qed.

#[local] Opaque quantum huge.

Lemma rep_int k : 0 <= k <= 2 ^ 53 -> rep (k * quantum).
Proof. intros H. rewrite quantum_eq. apply (rep_shift k 1074); lia. Qed.

Lemma rep_pow2 j : 0 <= j -> rep (2 ^ j * quantum).
Proof.
  intros H. replace (2 ^ j * quantum) with (1 * 2 ^ (j + 1074)).
  - apply rep_shift; lia.
  - rewrite Z.pow_add_r, quantum_eq by lia. lia.
Qed.

Lemma pow2_lt_huge j : 0 <= j < 1024 -> 2 ^ j * quantum < huge.
Proof.
  intros H. rewrite huge_eq. pose proof quantum_pos.
  apply Z.mul_lt_mono_pos_r; [assumption|]. apply Z.pow_lt_mono_r; lia.
Qed.

(** A rounding whose exact value is at most a representable bound stays
    finite and below the bound. *)
Lemma round_to_bound s n d B :
  0 <= n -> 0 < d -> n <= B * d -> rep B -> B < huge ->
  round_to s n d = Ffin s (rnd_mag n d)
  /\ 0 <= rnd_mag n d <= B /\ rep (rnd_mag n d).
Proof.
  intros Hn Hd Hle HB Hh.
  assert (Hm : rnd_mag n d <= B).
  { rewrite <- (rnd_mag_id B HB). apply rnd_mag_mono; lia. }
  pose proof (rnd_mag_nonneg n d Hn Hd).
  unfold round_to. destruct (Z.leb_spec huge (rnd_mag n d)); [lia|].
  repeat split; try lia; apply rnd_mag_rep; assumption.
Qed.

Lemma float_of_int_100 : Py.float_of_int 100 = Ok (of_Z 100).
Proof. vm_compute. reflexivity. Qed.

Lemma of_Z_100 : of_Z 100 = Ffin false (100 * quantum).
Proof. vm_compute. reflexivity. Qed.

Lemma mul_100 q : Py.mul (NFloat q) (NInt 100) = Ok (NFloat (mul q (of_Z 100))).
Proof. unfold Py.mul, Py.to_float. rewrite float_of_int_100. reflexivity. Qed.

Lemma round_ok_inv x nd u :
  Py.round (NFloat x) nd = Ok u -> u = NFloat (round_digits nd x).
Proof.
  unfold Py.round. destruct (round_digits nd x) as [s' m'|s'|].
  - intros [= <-]. reflexivity.
  - destruct (is_finite x); intros [= <-]. reflexivity.
  - intros [= <-]. reflexivity.
Qed.

(** The shape of a utilization that is not the integer 0. *)
Lemma utilization_float gu gl u :
  gl <> 0 -> utilization gu gl = Ok u ->
  u = NFloat (round_digits 2 (mul (of_ratio gu gl) (of_Z 100))).
Proof.
  intros Hgl. unfold utilization, Py.int_truediv.
  destruct (Z.eqb_spec gl 0) as [|_]; [contradiction|].
  destruct (of_ratio gu gl) as [s m|s|].
  - cbn [rbind]. rewrite mul_100. cbn [rbind]. apply round_ok_inv.
  - cbn [rbind]. intros [=].
  - cbn [rbind]. rewrite mul_100. cbn [rbind]. apply round_ok_inv.
Qed.

Lemma utilization_zero_limit gu : utilization gu 0 = Ok (NInt 0).
Proof. reflexivity. Qed.

Lemma of_ratio_nonneg a b :
  0 <= a -> 0 < b -> of_ratio a b = round_to false (a * quantum) b.
Proof.
  intros Ha Hb. unfold of_ratio.
  destruct (Z.ltb_spec a 0); [lia|]. destruct (Z.ltb_spec b 0); [lia|].
  rewrite !Z.abs_eq by lia. reflexivity.
Qed.

(** Rounding to decimals keeps a magnitude below a whole bound. *)
Lemma round_digits_bound s m nd k :
  0 <= m <= k * quantum -> rep (k * quantum) -> k * quantum < huge ->
  0 <= nd <= 323 ->
  round_digits nd (Ffin s m)
  = Ffin s (rnd_mag (rhe (m * 10 ^ nd) quantum * quantum) (10 ^ nd))
  /\ 0 <= rhe (m * 10 ^ nd) quantum <= k * 10 ^ nd
  /\ 0 <= rnd_mag (rhe (m * 10 ^ nd) quantum * quantum) (10 ^ nd) <= k * quantum
  /\ rep (rnd_mag (rhe (m * 10 ^ nd) quantum * quantum) (10 ^ nd)).
Proof.
  intros Hm Hrep Hh Hnd. pose proof quantum_pos as HQ.
  assert (Hp : 0 < 10 ^ nd) by (apply Z.pow_pos_nonneg; lia).
  remember (10 ^ nd) as p eqn:Ep.
  assert (Hmp : 0 <= m * p) by (apply Z.mul_nonneg_nonneg; lia).
  assert (Ht : 0 <= rhe (m * p) quantum <= k * p).
  { split; [apply rhe_nonneg; assumption|].
    rewrite <- (rhe_exact (k * p) quantum HQ). apply rhe_mono; try lia.
    apply Z.mul_le_mono_nonneg_r; [lia|]. nia. }
  unfold round_digits. destruct (Z.ltb_spec 323 nd); [lia|]. rewrite <- Ep.
  destruct (round_to_bound s (rhe (m * p) quantum * quantum) p (k * quantum))
    as (E & Hb & Hr); try assumption; try nia.
  rewrite E. split; [reflexivity|]. split; [lia|]. split; [lia|assumption].
Qed.

(** Rounding to decimals never overflows: a float so large that it has no
    fractional bits rounds to itself. *)
Lemma round_digits_valid s m nd :
  rep m -> m < huge -> 0 <= nd ->
  exists m', round_digits nd (Ffin s m) = Ffin s m' /\ rep m' /\ m' < huge.
Proof.
  intros Hrep Hh Hnd. pose proof quantum_pos as HQ.
  destruct (Z_lt_le_dec 323 nd) as [Hbig|Hsmall].
  { exists m. unfold round_digits. destruct (Z.ltb_spec 323 nd); [|lia]. auto. }
  destruct (Z_lt_le_dec m (2 ^ 53 * quantum)) as [Hlt|Hge].
  - destruct (round_digits_bound s m nd (2 ^ 53)) as (E & _ & Hb & Hr);
      try lia.
    + destruct Hrep. lia.
    + apply rep_pow2. lia.
    + apply pow2_lt_huge. lia.
    + eexists. split; [exact E|]. split; [exact Hr|].
      pose proof (pow2_lt_huge 53 ltac:(lia)). lia.
  - exists m. split; [|auto].
    assert (Hp : 0 < 10 ^ nd) by (apply Z.pow_pos_nonneg; lia).
    destruct Hrep as [Hm0 Hmod].
    assert (He : 1074 <= ulp_exp m 1).
    { unfold ulp_exp. rewrite Z.div_1_r.
      assert (2 ^ (53 + 1074) <= m).
      { rewrite Z.pow_add_r, <- quantum_eq by lia. exact Hge. }
      pose proof (proj1 (Z.log2_le_pow2 m (53 + 1074) ltac:(lia)) H). lia. }
    assert (Hdiv : exists j, m = j * quantum).
    { apply Z.mod_divide in Hmod; [|pose proof (pow2_pos m 1); lia].
      destruct Hmod as [j Hj]. exists (j * 2 ^ (ulp_exp m 1 - 1074)).
      rewrite Hj at 1. rewrite quantum_eq, <- Z.mul_assoc, <- Z.pow_add_r by lia.
      do 2 f_equal. lia. }
    destruct Hdiv as [j Hj].
    unfold round_digits. destruct (Z.ltb_spec 323 nd); [lia|].
    replace (m * 10 ^ nd) with (j * 10 ^ nd * quantum) by (rewrite Hj; ring).
    rewrite rhe_exact by assumption.
    unfold round_to.
    replace (j * 10 ^ nd * quantum) with (10 ^ nd * m) by (rewrite Hj; ring).
    assert (Eid : rnd_mag (10 ^ nd * m) (10 ^ nd) = m).
    { pose proof (rnd_mag_scale (10 ^ nd) m 1 Hp ltac:(lia)) as Es.
      rewrite Z.mul_1_r in Es. rewrite Es. apply rnd_mag_id. split; assumption. }
    rewrite Eid.
    destruct (Z.leb_spec huge m); [lia|reflexivity].
Qed.

Lemma round_valid s m nd :
  rep m -> m < huge -> 0 <= nd ->
  Py.round (NFloat (Ffin s m)) nd = Ok (NFloat (round_digits nd (Ffin s m))).
Proof.
  intros Hr Hh Hnd. destruct (round_digits_valid s m nd Hr Hh Hnd) as (m' & E & _).
  unfold Py.round. rewrite E. reflexivity.
Qed.

(** The utilization of a block that used at most [k] times its limit. *)
Lemma utilization_bounded gu gl k :
  0 <= gu <= k * gl -> 0 < gl ->
  rep (k * quantum) -> rep (100 * k * quantum) -> 100 * k * quantum < huge ->
  exists t, 0 <= t <= k * 10000
    /\ utilization gu gl = Ok (NFloat (Ffin false (rnd_mag (t * quantum) 100)))
    /\ rep (rnd_mag (t * quantum) 100)
    /\ 0 <= rnd_mag (t * quantum) 100 <= 100 * k * quantum.
Proof.
  intros Hgu Hgl Hr1 Hr2 Hh. pose proof quantum_pos as HQ.
  assert (Hk : 0 <= k) by nia.
  unfold utilization, Py.int_truediv.
  destruct (Z.eqb_spec gl 0) as [|_]; [lia|].
  rewrite of_ratio_nonneg by lia.
  destruct (round_to_bound false (gu * quantum) gl (k * quantum))
    as (E1 & B1 & R1); try assumption; try nia.
  rewrite E1. cbn [rbind]. rewrite mul_100, of_Z_100. cbn [rbind].
  unfold mul. cbn [xorb].
  remember (rnd_mag (gu * quantum) gl) as m1 eqn:Em1.
  destruct (round_to_bound false (m1 * (100 * quantum)) quantum (100 * k * quantum))
    as (E2 & B2 & R2); try assumption; try nia.
  rewrite E2.
  remember (rnd_mag (m1 * (100 * quantum)) quantum) as m2 eqn:Em2.
  destruct (round_digits_bound false m2 2 (100 * k)) as (E3 & T3 & B3 & R3);
    try assumption; try lia.
  rewrite round_valid by (try assumption; lia).
  rewrite E3. change (10 ^ 2) with 100 in *.
  exists (rhe (m2 * 100) quantum). repeat split; try lia; try apply R3.
Qed.

Lemma rep_100 k :
  0 < k <= 2 ^ 53 -> exists j p, 100 * k * quantum = j * 2 ^ p /\ 0 <= p.
Proof. intros. exists (100 * k), 1074. rewrite quantum_eq. lia. Qed.

(** Blocks within their gas limit: a percentage between 0 and 100 with two
    decimals. *)
Lemma utilization_nominal gu gl :
  0 <= gu <= gl ->
  exists t u, 0 <= t <= 10000 /\ utilization gu gl = Ok u /\ hundredths t u
    /\ percentage (100 * quantum) u.
Proof.
  intros H. destruct (Z.eq_dec gl 0) as [->|Hnz].
  - exists 0, (NInt 0). split; [lia|]. split; [reflexivity|].
    split; [left; auto|reflexivity].
  - destruct (utilization_bounded gu gl 1) as (t & Ht & E & R & B); try lia.
    + apply (rep_int 1); lia.
    + apply (rep_int 100); lia.
    + change (100 * 1 * quantum) with (100 * quantum).
      pose proof (pow2_lt_huge 7 ltac:(lia)). pose proof quantum_pos.
      change (2 ^ 7) with 128 in *. lia.
    + exists t. eexists. split; [lia|]. split; [exact E|].
      split; [right; reflexivity|]. split; [exact R|lia].
Qed.

(** Any block with 256-bit gas figures has a utilization. *)
Lemma utilization_uint256 gu gl :
  uint256 gu -> uint256 gl ->
  exists u, utilization gu gl = Ok u /\ percentage (2 ^ 263 * quantum) u.
Proof.
  intros [Hu1 Hu2] [Hl1 Hl2]. destruct (Z.eq_dec gl 0) as [->|Hnz].
  - exists (NInt 0). split; reflexivity.
  - assert (E100 : 100 * 2 ^ 256 * quantum = 25 * 2 ^ (258 + 1074)).
    { rewrite quantum_eq, Z.pow_add_r by lia.
      change (2 ^ 258) with (4 * 2 ^ 256). ring. }
    destruct (utilization_bounded gu gl (2 ^ 256)) as (t & Ht & E & R & B);
      try nia.
    + apply rep_pow2. lia.
    + rewrite E100. apply rep_shift; lia.
    + pose proof (pow2_lt_huge 263 ltac:(lia)). pose proof quantum_pos.
      change (2 ^ 263) with (128 * 2 ^ 256) in *. lia.
    + eexists. split; [exact E|]. split; [exact R|].
      pose proof quantum_pos. change (2 ^ 263) with (128 * 2 ^ 256). nia.
Qed.

(** ** Facts about the stages *)

Lemma metrics_of_block_inv (b : block) bm :
  metrics_of_block b = Ok bm ->
  b !! "number" = Some (block_number bm)
  /\ base_fee_wei bm = get_or_zero b "baseFeePerGas"
  /\ gas_limit bm = get_or_zero b "gasLimit"
  /\ gas_used bm = get_or_zero b "gasUsed"
  /\ utilization (gas_used bm) (gas_limit bm) = Ok (utilization_percent bm)
  /\ exists ts iso, b !! "timestamp" = Some ts
       /\ Datetime.utc_isoformat ts = Ok iso /\ timestamp bm = iso +:+ "Z".
Proof.
  unfold metrics_of_block, getattr.
  destruct (utilization _ _) as [u|e] eqn:Eu; cbn [rbind]; [|intros [=]].
  destruct (b !! "number") as [n|]; cbn [rbind]; [|intros [=]].
  destruct (b !! "timestamp") as [ts|]; cbn [rbind]; [|intros [=]].
  destruct (Datetime.utc_isoformat ts) as [iso|e] eqn:Ei; cbn [rbind];
    [|intros [=]].
  intros [= <-]. cbn. repeat split; try assumption. exists ts, iso. auto.
Qed.

Lemma percent_complete_ok p c :
  1 <= p <= c -> exists m, percent_complete p c = Ok (NFloat (Ffin false m)).
Proof.
  intros H. pose proof quantum_pos as HQ. unfold percent_complete, Py.int_truediv.
  destruct (Z.eqb_spec c 0); [lia|].
  rewrite of_ratio_nonneg by lia.
  destruct (round_to_bound false (p * quantum) c (1 * quantum))
    as (E1 & B1 & R1); try nia.
  { apply (rep_int 1); lia. }
  { pose proof quantum_lt_huge. lia. }
  rewrite E1. cbn [rbind]. rewrite mul_100, of_Z_100. unfold mul. cbn [xorb].
  destruct (round_to_bound false
              (rnd_mag (p * quantum) c * (100 * quantum)) quantum (100 * quantum))
    as (E2 & B2 & R2); try nia.
  { apply (rep_int 100); lia. }
  { pose proof (pow2_lt_huge 7 ltac:(lia)). change (2 ^ 7) with 128 in *. lia. }
  rewrite E2. eexists. reflexivity.
Qed.

Lemma progress_ok p c :
  1 <= p <= c ->
  exists x, percent_complete p c = Ok x
            /\ Py.format_1f x = Ok (progress_text p c).
Proof.
  intros H. destruct (percent_complete_ok p c H) as (m & E).
  eexists. split; [exact E|]. unfold progress_text. rewrite E. reflexivity.
Qed.

Section StageFacts.

Context {W : Type} (w3 : Web3 W).

(** One turn of the loop: the line is printed, then the block is asked
    for, and the answer decides the result. *)
Lemma analyze_step_run latest count i w log :
  latest - count + 1 <= i <= latest ->
  analyze_step w3 latest count i (w, log)
  = (rbind (fst (eth_get_block w3 (BlockNum i) w)) metrics_of_block,
     (snd (eth_get_block w3 (BlockNum i) w),
      log ++ turn_events latest count i)).
Proof.
  intros Hi. unfold analyze_step, turn_events.
  set (p := i - (latest - count + 1) + 1).
  destruct (progress_ok p count) as (x & E1 & E2); [unfold p; lia|].
  unfold fetch_gas_data, call_get_block, print, emit, bind, lift.
  rewrite E1, E2. cbv beta iota.
  destruct (eth_get_block w3 (BlockNum i) w) as [[b|e] w'];
    cbn [fst snd rbind]; rewrite <- app_assoc; reflexivity.
Qed.

(** The loop over blocks that the node serves. *)
Lemma analyze_loop_ok (P : W -> Prop) latest count todo :
  (forall i, i ∈ todo -> latest - count + 1 <= i <= latest /\ serves w3 P i) ->
  forall blocks w log, P w ->
  exists bs w',
    analyze_loop w3 latest count todo blocks (w, log)
    = (Ok (blocks ++ bs),
       (w', log ++ concat (map (turn_events latest count) todo)))
    /\ P w'
    /\ map block_number bs = todo
    /\ Forall (fun bm => exists b : block, metrics_of_block b = Ok bm) bs.
Proof.
  induction todo as [|i rest IH]; intros Hall blocks w log HP.
  - exists [], w. cbn. rewrite !app_nil_r. auto.
  - destruct (Hall i ltac:(left)) as [Hi Hs].
    destruct (Hs w HP) as (b & w1 & bm & Eg & HP1 & En & Em).
    cbn [analyze_loop]. unfold bind at 1.
    rewrite analyze_step_run by assumption. rewrite Eg. cbn [fst snd rbind].
    rewrite Em.
    destruct (IH (fun j Hj => Hall j (list_elem_of_further _ _ _ Hj))
                (blocks ++ [bm]) w1 (log ++ turn_events latest count i) HP1)
      as (bs & w' & E & HP' & Hmap & Hall').
    exists (bm :: bs), w'. rewrite E. split; [|split; [assumption|split]].
    + rewrite <- !app_assoc. reflexivity.
    + cbn. rewrite Hmap. f_equal.
      apply metrics_of_block_inv in Em. destruct Em as (Hn & _). congruence.
    + constructor; [eauto|assumption].
Qed.

End StageFacts.

(** ** The range analyzer *)

Lemma range_latest latest cnt :
  range (latest - cnt + 1) (latest + 1) = seqZ (latest - cnt + 1) cnt.
Proof. unfold range. f_equal. lia. Qed.

Lemma analyze_blocks_run {W} (w3 : Web3 W) cnt w log :
  analyze_blocks w3 cnt (w, log)
  = match eth_block_number w3 w with
    | (Ok latest, w1) =>
        analyze_loop w3 latest cnt (seqZ (latest - cnt + 1) cnt) []
          (w1, log ++ [EvBlockNumber])
    | (Raise e, w1) => (Raise e, (w1, log ++ [EvBlockNumber]))
    end.
Proof.
  unfold analyze_blocks, bind, call_block_number.
  destruct (eth_block_number w3 w) as [[latest|e] w1]; [|reflexivity].
  rewrite range_latest. reflexivity.
Qed.

(** C2: for every [cnt >= 1] and chain head [latest] observed by the call,
    on a node that serves the blocks [latest - cnt + 1 .. latest],
    [analyze_blocks] returns exactly [cnt] records whose block numbers
    increase by 1 from one element to the next and end at [latest]: they
    are [latest - cnt + 1, ..., latest] in this order. *)
Theorem analyze_returns_latest_range {W} (w3 : Web3 W) (P : W -> Prop)
    (cnt latest : Z) (w w1 : W) (log : list event) :
  1 <= cnt ->
  eth_block_number w3 w = (Ok latest, w1) -> P w1 ->
  (forall i, latest - cnt + 1 <= i <= latest -> serves w3 P i) ->
  exists blocks s',
    analyze_blocks w3 cnt (w, log) = (Ok blocks, s')
    /\ length blocks = Z.to_nat cnt
    /\ map block_number blocks = seqZ (latest - cnt + 1) cnt
    /\ (forall k b1 b2, blocks !! k = Some b1 -> blocks !! S k = Some b2 ->
          block_number b2 = block_number b1 + 1)
    /\ (exists b, last blocks = Some b /\ block_number b = latest).
Proof.
  intros Hcnt Hhead HP Hserve.
  rewrite analyze_blocks_run, Hhead.
  destruct (analyze_loop_ok w3 P latest cnt (seqZ (latest - cnt + 1) cnt))
    with (blocks := @nil BlockMetrics) (w := w1) (log := log ++ [EvBlockNumber])
    as (bs & w' & E & _ & Hmap & _); [|assumption|].
  { intros i Hi. apply elem_of_seqZ in Hi. split; [lia|apply Hserve; lia]. }
  exists bs. eexists. split; [exact E|].
  assert (Hlen : length bs = Z.to_nat cnt).
  { rewrite <- (length_map block_number), Hmap, length_seqZ. reflexivity. }
  split; [exact Hlen|]. split; [exact Hmap|]. split.
  - intros k b1 b2 H1 H2.
    assert (L1 : map block_number bs !! k = Some (block_number b1))
      by (rewrite list_lookup_fmap, H1; reflexivity).
    assert (L2 : map block_number bs !! S k = Some (block_number b2))
      by (rewrite list_lookup_fmap, H2; reflexivity).
    rewrite Hmap in L1, L2.
    apply lookup_seqZ in L1, L2. lia.
  - destruct (last bs) as [b|] eqn:El.
    + exists b. split; [reflexivity|].
      rewrite last_lookup in El.
      assert (L : map block_number bs !! pred (length bs) = Some (block_number b))
        by (rewrite list_lookup_fmap, El; reflexivity).
      rewrite Hmap in L. apply lookup_seqZ in L. lia.
    + apply last_None in El. subst bs. cbn in Hlen. lia.
Qed.

Lemma steady_node_serves_tail i :
  998 <= i <= 1000 -> serves steady_node (fun w => w = 1000) i.
Proof.
  intros Hi w ->.
  assert (Hc : i = 998 \/ i = 999 \/ i = 1000) by lia.
  destruct Hc as [-> | [-> | ->] ];
    (eexists _, 1000, _; split; [reflexivity|]; split; [reflexivity|];
     split; [reflexivity|]; vm_compute; reflexivity).
Defined.

Lemma analyze_returns_latest_range_witness :
  exists blocks s',
    analyze_blocks steady_node 3 (1000, []) = (Ok blocks, s')
    /\ length blocks = 3%nat
    /\ map block_number blocks = [998; 999; 1000].
Proof.
  destruct (analyze_returns_latest_range steady_node (fun w => w = 1000)
              3 1000 1000 1000 [])
    as (blocks & s' & E & Hlen & Hmap & _).
  - lia.
  - reflexivity.
  - reflexivity.
  - intros i Hi. apply steady_node_serves_tail. lia.
  - exists blocks, s'. split; [exact E|]. split; [exact Hlen|exact Hmap].
Defined.

Lemma analyze_loop_extends {W} (w3 : Web3 W) latest cnt todo :
  (forall i, i ∈ todo -> latest - cnt + 1 <= i <= latest) ->
  forall blocks w log,
  exists r w' rest,
    analyze_loop w3 latest cnt todo blocks (w, log) = (r, (w', log ++ rest)).
Proof.
  induction todo as [|i todo IH]; intros Hall blocks w log.
  - exists (Ok blocks), w, []. rewrite app_nil_r. reflexivity.
  - cbn [analyze_loop]. unfold bind at 1.
    rewrite analyze_step_run by (apply Hall; left).
    destruct (eth_get_block w3 (BlockNum i) w) as [[b|e] w1]; cbn [fst snd rbind].
    + destruct (metrics_of_block b) as [bm|e].
      * destruct (IH (fun j Hj => Hall j (list_elem_of_further _ _ _ Hj))
                    (blocks ++ [bm]) w1 (log ++ turn_events latest cnt i))
          as (r & w' & rest & E).
        exists r, w', (turn_events latest cnt i ++ rest).
        rewrite E, app_assoc. reflexivity.
      * exists (Raise e), w1, (turn_events latest cnt i). reflexivity.
    + exists (Raise e), w1, (turn_events latest cnt i). reflexivity.
Qed.

(** The line and the request of position [k], counted from 1. *)
Lemma turn_events_position latest cnt k :
  turn_events latest cnt (latest - cnt + k)
  = [EvPrint (progress_line (latest - cnt + k) k cnt (progress_text k cnt));
     EvGetBlock (BlockNum (latest - cnt + k))].
Proof.
  unfold turn_events.
  replace (latest - cnt + k - (latest - cnt + 1) + 1) with k by lia.
  reflexivity.
Qed.




(** C9: when [latest - cnt + 1 < 0], [analyze_blocks] raises no range
    error of its own and does not clamp the range: after reading the head
    it asks the node for the negative block number [latest - cnt + 1], and
    the node's answer decides the outcome.  If that request raises, the
    same exception ends the analysis; on a node that answers the whole
    range, negative numbers included, all [cnt] records are returned. *)
Theorem negative_range_is_fetched {W} (w3 : Web3 W)
    (cnt latest : Z) (w w1 : W) (log : list event) :
  eth_block_number w3 w = (Ok latest, w1) ->
  0 <= latest -> latest - cnt + 1 < 0 ->
  exists r w' rest,
    analyze_blocks w3 cnt (w, log)
    = (r, (w', log ++ [EvBlockNumber]
                   ++ turn_events latest cnt (latest - cnt + 1) ++ rest))
    /\ (forall e w2,
          eth_get_block w3 (BlockNum (latest - cnt + 1)) w1 = (Raise e, w2) ->
          r = Raise e /\ w' = w2 /\ rest = [])
    /\ (forall P : W -> Prop, P w1 ->
          (forall i, latest - cnt + 1 <= i <= latest -> serves w3 P i) ->
          exists blocks, r = Ok blocks /\ Py.len blocks = cnt
            /\ map block_number blocks = seqZ (latest - cnt + 1) cnt).
Proof.
  intros Hhead Hlatest Hneg.
  rewrite analyze_blocks_run, Hhead.
  assert (Hseq : seqZ (latest - cnt + 1) cnt
                 = (latest - cnt + 1) :: seqZ (latest - cnt + 2) (cnt - 1)).
  { rewrite (seqZ_cons _ cnt) by lia. f_equal. f_equal; lia. }
  assert (Hin : forall i, i ∈ seqZ (latest - cnt + 2) (cnt - 1) ->
                latest - cnt + 1 <= i <= latest).
  { intros i Hi. apply elem_of_seqZ in Hi. lia. }
  pose proof (analyze_loop_ok w3) as Hok.
  rewrite Hseq. cbn [analyze_loop]. unfold bind at 1.
  rewrite analyze_step_run by lia.
  destruct (eth_get_block w3 (BlockNum (latest - cnt + 1)) w1)
    as [[b|e] w2] eqn:Eg; cbn [fst snd rbind].
  - destruct (metrics_of_block b) as [bm|e] eqn:Em.
    + destruct (analyze_loop_extends w3 latest cnt _ Hin ([] ++ [bm]) w2
                  ((log ++ [EvBlockNumber])
                   ++ turn_events latest cnt (latest - cnt + 1)))
        as (r & w' & rest & E).
      exists r, w', rest. rewrite E. split; [|split].
      * rewrite <- !app_assoc. reflexivity.
      * intros e w3' [=].
      * intros P HP Hserve.
        destruct (Hok P latest cnt (seqZ (latest - cnt + 2) (cnt - 1)))
          with (blocks := [] ++ [bm]) (w := w2)
               (log := (log ++ [EvBlockNumber])
                       ++ turn_events latest cnt (latest - cnt + 1))
          as (bs & w'' & E' & _ & Hmap & _).
        { intros i Hi. split; [apply Hin, Hi|apply Hserve, Hin, Hi]. }
        { destruct (Hserve (latest - cnt + 1) ltac:(lia) w1 HP)
            as (b' & w2' & _ & Eg' & HP2 & _). congruence. }
        exists (([] ++ [bm]) ++ bs). split; [congruence|].
        assert (Hn : block_number bm = latest - cnt + 1).
        { destruct (Hserve (latest - cnt + 1) ltac:(lia) w1 HP)
            as (b' & w2' & _ & Eg' & _ & Hnum & _).
          apply metrics_of_block_inv in Em. destruct Em as (Hn & _).
          congruence. }
        assert (Hm : map block_number (([] ++ [bm]) ++ bs)
                     = seqZ (latest - cnt + 1) cnt).
        { cbn. rewrite Hmap, Hn, Hseq. reflexivity. }
        split; [|rewrite <- Hseq; exact Hm].
        unfold Py.len. rewrite <- (length_map block_number), Hm, length_seqZ.
        lia.
    + exists (Raise e), w2, []. rewrite app_nil_r, <- app_assoc.
      split; [reflexivity|]. split; [intros ? ? [=]|].
      intros P HP Hserve.
      destruct (Hserve (latest - cnt + 1) ltac:(lia) w1 HP)
        as (b' & w2' & bm' & Eg' & _ & _ & Em'). congruence.
  - exists (Raise e), w2, []. rewrite app_nil_r, <- app_assoc.
    split; [reflexivity|]. split.
    + intros e' w3' [= <- <-]. auto.
    + intros P HP Hserve.
      destruct (Hserve (latest - cnt + 1) ltac:(lia) w1 HP)
        as (b' & w2' & bm' & Eg' & _). congruence.
Qed.

Lemma negative_range_is_fetched_witness :
  analyze_blocks steady_node 3 (1, [])
  = (Raise (RemoteError "BlockNotFound"),
     (1, [EvBlockNumber;
          EvPrint "🔍 Analyzing block -1 (1/3, 33.3% complete)...";
          EvGetBlock (BlockNum (-1))])).
Proof.
  destruct (negative_range_is_fetched steady_node 3 1 1 1 [])
    as (r & w' & rest & E & Hfail & _).
  - reflexivity.
  - lia.
  - lia.
  - destruct (Hfail (RemoteError "BlockNotFound") 1) as (-> & -> & ->).
    + reflexivity.
    + rewrite E. vm_compute. reflexivity.
Defined.

(** ** The summarizer's sentinel and the end of [main] *)

(** C6: on the empty sequence [summarize] raises nothing and returns the
    "no data" sentinel, which its keys [ok] (false) and [msg] tell apart
    from a summary: a summary has no key [ok]. *)
Theorem summarize_empty_is_no_data :
  summarize [] = Ok no_data
  /\ Py.getitem no_data "ok" = Ok (VBool false)
  /\ Py.getitem no_data "msg" = Ok (VStr "No data")
  /\ forall blocks, Py.getitem (summary_spec blocks) "ok" = Raise (KeyError "ok").
Proof. repeat split. Qed.



(** ** The block fetcher *)

Lemma fetch_run {W} (w3 : Web3 W) id w log :
  fetch_gas_data w3 id (w, log)
  = (rbind (fst (eth_get_block w3 id w)) metrics_of_block,
     (snd (eth_get_block w3 id w), log ++ [EvGetBlock id])).
Proof.
  unfold fetch_gas_data, bind, call_get_block, lift.
  destruct (eth_get_block w3 id w) as [[b|e] w']; reflexivity.
Qed.

Lemma utc_isoformat_ok ts :
  Datetime.min_timestamp <= ts <= Datetime.max_timestamp ->
  exists iso, Datetime.utc_isoformat ts = Ok iso.
Proof.
  intros H. unfold Datetime.utc_isoformat.
  destruct (Z.ltb_spec ts Datetime.min_timestamp); [lia|].
  destruct (Z.ltb_spec Datetime.max_timestamp ts); [lia|]. cbn [orb].
  destruct (Datetime.civil_from_days (ts / 86400)) as [[y m] d].
  eexists. reflexivity.
Qed.

Lemma metrics_of_block_ok (b : block) n ts u :
  utilization (get_or_zero b "gasUsed") (get_or_zero b "gasLimit") = Ok u ->
  b !! "number" = Some n -> b !! "timestamp" = Some ts ->
  Datetime.min_timestamp <= ts <= Datetime.max_timestamp ->
  exists iso,
    metrics_of_block b
    = Ok {| block_number := n;
            base_fee_wei := get_or_zero b "baseFeePerGas";
            gas_limit := get_or_zero b "gasLimit";
            gas_used := get_or_zero b "gasUsed";
            utilization_percent := u;
            timestamp := iso +:+ "Z" |}.
Proof.
  intros Hu Hn Hts Hr. destruct (utc_isoformat_ok ts Hr) as (iso & Ei).
  exists iso. unfold metrics_of_block, getattr.
  rewrite Hu, Hn, Hts. cbn [rbind]. rewrite Ei. reflexivity.
Qed.

Lemma metrics_of_block_fails (b : block) :
  b !! "number" = None \/ b !! "timestamp" = None ->
  exists e, metrics_of_block b = Raise e.
Proof.
  intros H. unfold metrics_of_block, getattr.
  destruct (utilization _ _) as [u|e]; cbn [rbind]; [|eauto].
  destruct (b !! "number") as [n|]; cbn [rbind]; [|eauto].
  destruct (b !! "timestamp") as [ts|]; cbn [rbind]; [|eauto].
  destruct H; discriminate.
Qed.

Lemma rnd_mag_0 d : 0 < d -> rnd_mag 0 d = 0.
Proof.
  intros Hd. unfold rnd_mag, ulp_exp. rewrite Z.div_0_l by lia.
  change (2 ^ Z.max (Z.log2 0 - 52) 0) with 1. rewrite !Z.mul_1_r.
  unfold rhe. rewrite Z.div_0_l, Z.mod_0_l by lia.
  destruct (Z.ltb_spec (2 * 0) d); [reflexivity|lia].
Qed.

Lemma round_to_0 s d : 0 < d -> round_to s 0 d = Ffin s 0.
Proof. intros Hd. unfold round_to. rewrite rnd_mag_0 by assumption. reflexivity. Qed.

(** A block that used no gas has utilization [0.0]. *)
Lemma utilization_unused gl :
  gl <> 0 -> utilization 0 gl = Ok (NFloat (Ffin (gl <? 0) 0)).
Proof.
  intros Hgl. pose proof quantum_pos as HQ.
  unfold utilization, Py.int_truediv. destruct (Z.eqb_spec gl 0); [lia|].
  unfold of_ratio. change (Z.abs 0 * quantum) with 0.
  rewrite round_to_0 by lia. cbn [rbind Z.ltb Z.compare xorb].
  rewrite mul_100, of_Z_100. cbn [rbind]. unfold mul.
  rewrite Z.mul_0_l, round_to_0 by lia. rewrite xorb_false_r.
  pose proof (rep_int 0 ltac:(lia)) as R0. rewrite Z.mul_0_l in R0.
  pose proof quantum_lt_huge.
  rewrite round_valid by (try assumption; lia).
  destruct (round_digits_bound (gl <? 0) 0 2 0) as (E & _ & B & _);
    rewrite ?Z.mul_0_l; try assumption; try lia.
  rewrite E. do 3 f_equal; try lia.
Qed.

(** C1, as stated, fails: a response without [gasLimit] and [gasUsed], and
    one without [gasUsed] only, are both turned into a record. *)
Lemma missing_gas_fields_are_tolerated :
  bare_block !! "gasLimit" = None
  /\ fetch_gas_data (constant_node bare_block) Latest (tt, [])
     = (Ok {| block_number := 7; base_fee_wei := 0; gas_limit := 0;
              gas_used := 0; utilization_percent := NInt 0;
              timestamp := "2023-11-14T22:13:20Z" |},
        (tt, [EvGetBlock Latest]))
  /\ no_gas_used_block !! "gasUsed" = None
  /\ fetch_gas_data (constant_node no_gas_used_block) Latest (tt, [])
     = (Ok {| block_number := 7; base_fee_wei := 0; gas_limit := 30000000;
              gas_used := 0; utilization_percent := NFloat (of_Z 0);
              timestamp := "2023-11-14T22:13:20Z" |},
        (tt, [EvGetBlock Latest])).
Proof. repeat split; vm_compute; reflexivity. Qed.

(** C1, amended: among the fields of a response only [number] and
    [timestamp] are required: when one of them is absent, fetch fails with
    an exception instead of returning a record.  An absent [gasLimit] or
    [gasUsed] is tolerated like an absent [baseFeePerGas]: from every
    response with [number] and a valid [timestamp], whose gas figures are
    absent or 256-bit and whose base fee is absent or any integer, fetch
    returns a record in which each of the three is the field of the
    response, or 0 when the response lacks it; the utilization of the
    record is the one of these defaulted figures, and it is zero when
    [gasLimit] or [gasUsed] is absent. *)
Theorem absent_gas_fields_default_to_zero {W} (w3 : Web3 W)
    (id : block_id) (w w' : W) (log : list event) (b : block) :
  eth_get_block w3 id w = (Ok b, w') ->
  (b !! "number" = None \/ b !! "timestamp" = None ->
     exists e, fetch_gas_data w3 id (w, log)
               = (Raise e, (w', log ++ [EvGetBlock id])))
  /\ (forall n ts,
        b !! "number" = Some n -> b !! "timestamp" = Some ts ->
        Datetime.min_timestamp <= ts <= Datetime.max_timestamp ->
        b !! "gasLimit" = None \/ b !! "gasUsed" = None
        \/ uint256 (get_or_zero b "gasLimit")
           /\ uint256 (get_or_zero b "gasUsed") ->
        exists bm,
          fetch_gas_data w3 id (w, log) = (Ok bm, (w', log ++ [EvGetBlock id]))
          /\ block_number bm = n
          /\ base_fee_wei bm = default 0 (b !! "baseFeePerGas")
          /\ gas_limit bm = default 0 (b !! "gasLimit")
          /\ gas_used bm = default 0 (b !! "gasUsed")
          /\ utilization (gas_used bm) (gas_limit bm)
             = Ok (utilization_percent bm)
          /\ (b !! "gasLimit" = None \/ b !! "gasUsed" = None ->
              utilization_percent bm = NInt 0
              \/ exists s, utilization_percent bm = NFloat (Ffin s 0))).
Proof.
  intros Hget. rewrite fetch_run, Hget. cbn [fst snd rbind]. split.
  - intros Hmiss. destruct (metrics_of_block_fails b Hmiss) as (e & ->). eauto.
  - intros n ts Hn Hts Hr Hgas.
    assert (Hu : exists u,
               utilization (get_or_zero b "gasUsed") (get_or_zero b "gasLimit")
               = Ok u
               /\ (b !! "gasLimit" = None \/ b !! "gasUsed" = None ->
                   u = NInt 0 \/ exists s, u = NFloat (Ffin s 0))).
    { destruct (b !! "gasLimit") as [gl|] eqn:El.
      - destruct (b !! "gasUsed") as [gu|] eqn:Eu.
        + destruct Hgas as [Hgas | [Hgas | [Hl Hu] ] ];
            [discriminate Hgas|discriminate Hgas|].
          destruct (utilization_uint256 _ _ Hu Hl) as (u & E & _).
          exists u. split; [exact E|].
          intros [H|H]; discriminate H.
        + unfold get_or_zero. rewrite El, Eu. cbn [default].
          destruct (Z.eq_dec gl 0) as [->|Hnz]; [eauto|].
          rewrite utilization_unused by assumption. eauto.
      - unfold get_or_zero. rewrite El. cbn [default].
        rewrite utilization_zero_limit. eauto. }
    destruct Hu as (u & Eu & Hshape).
    destruct (metrics_of_block_ok b n ts u Eu Hn Hts Hr) as (iso & ->).
    eexists. split; [reflexivity|].
    cbn [block_number base_fee_wei gas_limit gas_used utilization_percent].
    split; [reflexivity|]. split; [reflexivity|]. split; [reflexivity|].
    split; [reflexivity|]. split; [exact Eu|exact Hshape].
Qed.

Lemma absent_gas_fields_default_to_zero_witness :
  (exists bm,
     fetch_gas_data (constant_node bare_block) Latest (tt, [])
     = (Ok bm, (tt, [] ++ [EvGetBlock Latest]))
     /\ gas_limit bm = 0 /\ gas_used bm = 0 /\ base_fee_wei bm = 0)
  /\ (exists bm,
        fetch_gas_data (constant_node pre_london_block) Latest (tt, [])
        = (Ok bm, (tt, [] ++ [EvGetBlock Latest]))
        /\ base_fee_wei bm = 0 /\ gas_limit bm = 15000000
        /\ gas_used bm = 7500000)
  /\ (exists e,
        fetch_gas_data (constant_node unnumbered_block) Latest (tt, [])
        = (Raise e, (tt, [] ++ [EvGetBlock Latest]))).
Proof.
  split; [|split].
  - destruct (absent_gas_fields_default_to_zero (constant_node bare_block)
                Latest tt tt [] bare_block eq_refl) as (_ & H).
    destruct (H 7 1700000000) as (bm & E & _ & Hb & Hl & Hu & _).
    + reflexivity.
    + reflexivity.
    + unfold Datetime.min_timestamp, Datetime.max_timestamp. lia.
    + left. reflexivity.
    + exists bm. split; [exact E|]. split; [exact Hl|].
      split; [exact Hu|exact Hb].
  - destruct (absent_gas_fields_default_to_zero
                (constant_node pre_london_block) Latest tt tt []
                pre_london_block eq_refl) as (_ & H).
    destruct (H 12964999 1628166812) as (bm & E & _ & Hb & Hl & Hu & _).
    + reflexivity.
    + reflexivity.
    + unfold Datetime.min_timestamp, Datetime.max_timestamp. lia.
    + right. right. unfold uint256. split; (split; [|reflexivity]);
        vm_compute; intros H'; discriminate H'.
    + exists bm. split; [exact E|]. split; [exact Hb|].
      split; [exact Hl|exact Hu].
  - destruct (absent_gas_fields_default_to_zero
                (constant_node unnumbered_block) Latest tt tt []
                unnumbered_block eq_refl) as (H & _).
    apply H. left. reflexivity.
Defined.

(** C3: the record that fetch builds from a response has
    [utilization_percent = round(gas_used / gas_limit * 100, 2)], computed
    in floating point, when [gas_limit] is not 0, and the integer 0 when
    [gas_limit] is 0; fetch does build a record from every response with
    [number], a valid [timestamp] and 256-bit gas figures.  With
    [gasLimit = 30000000] and [gasUsed = 15000000] the value is [50.0]. *)
Theorem utilization_percent_is_rounded_ratio {W} (w3 : Web3 W)
    (id : block_id) (w w' : W) (log : list event) (b : block) :
  eth_get_block w3 id w = (Ok b, w') ->
  (forall bm s', fetch_gas_data w3 id (w, log) = (Ok bm, s') ->
     gas_limit bm = get_or_zero b "gasLimit"
     /\ gas_used bm = get_or_zero b "gasUsed"
     /\ (gas_limit bm <> 0 ->
           utilization_percent bm
           = NFloat (round_digits 2
               (mul (of_ratio (gas_used bm) (gas_limit bm)) (of_Z 100))))
     /\ (gas_limit bm = 0 -> utilization_percent bm = NInt 0))
  /\ (forall n ts,
        b !! "number" = Some n -> b !! "timestamp" = Some ts ->
        Datetime.min_timestamp <= ts <= Datetime.max_timestamp ->
        uint256 (get_or_zero b "gasLimit") ->
        uint256 (get_or_zero b "gasUsed") ->
        exists bm, fetch_gas_data w3 id (w, log)
                   = (Ok bm, (w', log ++ [EvGetBlock id])))
  /\ utilization 15000000 30000000 = Ok (NFloat (of_Z 50)).
Proof.
  intros Hget. rewrite fetch_run, Hget. cbn [fst snd rbind].
  split; [|split].
  - intros bm s' [= Hm _].
    apply metrics_of_block_inv in Hm.
    destruct Hm as (_ & _ & Hl & Hu & Hutil & _).
    split; [exact Hl|]. split; [exact Hu|]. split.
    + intros Hnz. apply utilization_float; assumption.
    + intros Hz. rewrite Hz, utilization_zero_limit in Hutil. congruence.
  - intros n ts Hn Hts Hr Hgl Hgu.
    destruct (utilization_uint256 _ _ Hgu Hgl) as (u & Eu & _).
    destruct (metrics_of_block_ok b n ts u Eu Hn Hts Hr) as (iso & ->).
    eexists. reflexivity.
  - vm_compute. reflexivity.
Qed.

Lemma utilization_percent_is_rounded_ratio_witness :
  exists bm s',
    fetch_gas_data steady_node Latest (1000, []) = (Ok bm, s')
    /\ gas_limit bm = 30000000 /\ gas_used bm = 15000000
    /\ utilization_percent bm = NFloat (of_Z 50).
Proof.
  destruct (utilization_percent_is_rounded_ratio steady_node Latest 1000 1000 []
              (sample_block 1000 (1700000000 + 12 * 1000) 30000000 15000000
                 1000000000) eq_refl) as (Hshape & Hex & _).
  destruct (Hex 1000 (1700000000 + 12 * 1000)) as (bm & E).
  - reflexivity.
  - reflexivity.
  - unfold Datetime.min_timestamp, Datetime.max_timestamp. lia.
  - unfold uint256. change (get_or_zero _ "gasLimit") with 30000000. lia.
  - unfold uint256. change (get_or_zero _ "gasUsed") with 15000000. lia.
  - destruct (Hshape bm _ E) as (Hl & Hu & Hf & _).
    change (get_or_zero _ "gasLimit") with 30000000 in Hl.
    change (get_or_zero _ "gasUsed") with 15000000 in Hu.
    exists bm. eexists. split; [exact E|]. split; [exact Hl|]. split; [exact Hu|].
    rewrite Hf by (rewrite Hl; lia). rewrite Hl, Hu. vm_compute. reflexivity.
Defined.

(** ** The summarizer *)

Lemma valid_round_to s n d : 0 <= n -> 0 < d -> valid (round_to s n d).
Proof.
  intros Hn Hd. unfold round_to.
  destruct (Z.leb_spec huge (rnd_mag n d)); [exact I|].
  split; [apply rnd_mag_rep; assumption|assumption].
Qed.

Lemma valid_zero s : valid (Ffin s 0).
Proof.
  pose proof (rep_int 0 ltac:(lia)) as R. rewrite Z.mul_0_l in R.
  pose proof quantum_lt_huge. pose proof quantum_pos. split; [exact R|lia].
Qed.

Lemma valid_add x y : valid x -> valid y -> valid (add x y).
Proof.
  destruct x as [s1 m1|s1|], y as [s2 m2|s2|]; cbn [add]; intros Hx Hy;
    try exact I.
  - destruct (Z.eqb_spec (signed s1 m1 + signed s2 m2) 0).
    + apply valid_zero.
    + apply valid_round_to; lia.
  - destruct (Bool.eqb s1 s2); exact I.
Qed.

Lemma valid_div x s m : valid x -> 0 < m -> valid (div x (Ffin s m)).
Proof.
  destruct x as [s1 m1|s1|]; cbn [div]; intros Hx Hm; try exact I.
  destruct Hx as [[H0 _] _]. pose proof quantum_pos.
  apply valid_round_to; nia.
Qed.

Lemma round_ok x nd :
  valid x -> 0 <= nd ->
  Py.round (NFloat x) nd = Ok (NFloat (round_digits nd x)).
Proof.
  destruct x as [s m|s|]; intros Hv Hnd.
  - destruct Hv. apply round_valid; assumption.
  - reflexivity.
  - reflexivity.
Qed.

Lemma of_Z_0 : of_Z 0 = Ffin false 0.
Proof. vm_compute. reflexivity. Qed.

Lemma float_of_int_0 : Py.float_of_int 0 = Ok (of_Z 0).
Proof. vm_compute. reflexivity. Qed.

(** A length converts to a float exactly or nearly, never to zero or
    infinity. *)
Lemma of_Z_len n :
  1 <= n <= sys_maxsize ->
  exists m, of_Z n = Ffin false m /\ 0 < m /\ rep m /\ m < huge
            /\ Py.float_of_int n = Ok (Ffin false m).
Proof.
  intros Hn. pose proof quantum_pos as HQ. unfold sys_maxsize in Hn.
  unfold Py.float_of_int, of_Z. rewrite of_ratio_nonneg by lia.
  destruct (round_to_bound false (n * quantum) 1 (2 ^ 63 * quantum))
    as (E & B & R); try nia.
  { apply rep_pow2. lia. }
  { apply pow2_lt_huge. lia. }
  rewrite E. exists (rnd_mag (n * quantum) 1).
  pose proof (pow2_lt_huge 63 ltac:(lia)).
  assert (quantum <= rnd_mag (n * quantum) 1).
  { rewrite <- (rnd_mag_int 1) at 1 by lia. apply rnd_mag_mono; nia. }
  repeat split; try lia; apply R.
Qed.

Lemma add_zero_or_float a b :
  zero_or_float a -> zero_or_float b ->
  exists r, Py.add a b = Ok r /\ zero_or_float r
            /\ as_float r = add (as_float a) (as_float b).
Proof.
  intros [->|(x & -> & Hx)] [->|(y & -> & Hy)]; unfold Py.add, Py.to_float;
    rewrite ?float_of_int_0; cbn [rbind as_float].
  - exists (NInt 0). split; [reflexivity|]. split; [left; reflexivity|].
    rewrite of_Z_0. reflexivity.
  - eexists. split; [reflexivity|]. split; [|reflexivity].
    right. eexists. split; [reflexivity|]. apply valid_add; [|assumption].
    rewrite of_Z_0. apply valid_zero.
  - eexists. split; [reflexivity|]. split; [|reflexivity].
    right. eexists. split; [reflexivity|]. apply valid_add; [assumption|].
    rewrite of_Z_0. apply valid_zero.
  - eexists. split; [reflexivity|]. split; [|reflexivity].
    right. eexists. split; [reflexivity|]. apply valid_add; assumption.
Qed.

Lemma sum_from_floats xs :
  Forall zero_or_float xs ->
  forall acc, zero_or_float acc ->
  exists r, Py.sum_from acc xs = Ok r /\ zero_or_float r
            /\ as_float r = fold_left add (map as_float xs) (as_float acc).
Proof.
  induction 1 as [|x xs Hx Hxs IH]; intros acc Hacc.
  - exists acc. auto.
  - destruct (add_zero_or_float acc x Hacc Hx) as (a & Ea & Ha & Eq).
    destruct (IH a Ha) as (r & Er & Hr & Eqr).
    exists r. cbn [Py.sum_from map fold_left]. rewrite Ea. cbn [rbind].
    rewrite <- Eq. auto.
Qed.

Lemma valid_as_float a : zero_or_float a -> valid (as_float a).
Proof.
  intros [->|(x & -> & Hx)]; [|exact Hx].
  cbn [as_float]. rewrite of_Z_0. apply valid_zero.
Qed.

(** The mean of a list of utilizations. *)
Lemma mean_floats xs :
  Forall zero_or_float xs -> 1 <= Py.len xs <= sys_maxsize ->
  exists total,
    Py.sum xs = Ok total
    /\ Py.truediv total (NInt (Py.len xs)) = Ok (NFloat (fmean xs))
    /\ valid (fmean xs).
Proof.
  intros Hxs Hlen.
  destruct (sum_from_floats xs Hxs (NInt 0) ltac:(left; reflexivity))
    as (r & Er & Hr & Eq).
  destruct (of_Z_len _ Hlen) as (m & En & Hm & Rm & Hh & Ef).
  exists r. split; [exact Er|].
  assert (Efm : fmean xs = div (as_float r) (Ffin false m)).
  { unfold fmean, fsum. rewrite En, Eq. reflexivity. }
  rewrite Efm. split.
  - destruct Hr as [->|(x & -> & Hx)].
    + unfold Py.truediv, Py.int_truediv.
      destruct (Z.eqb_spec (Py.len xs) 0); [lia|].
      unfold of_ratio. change (Z.abs 0 * quantum) with 0.
      rewrite round_to_0 by lia. cbn [rbind as_float].
      rewrite of_Z_0. cbn [div]. rewrite Z.mul_0_l, round_to_0 by lia.
      destruct (Z.ltb_spec (Py.len xs) 0); [lia|]. reflexivity.
    + unfold Py.truediv, Py.to_float. rewrite Ef. cbn [rbind].
      unfold Py.float_truediv. cbn [is_zero].
      destruct (Z.eqb_spec m 0); [lia|]. reflexivity.
  - apply valid_div; [apply valid_as_float; assumption|assumption].
Qed.

Lemma max_elem x rest : Py.max x rest ∈ x :: rest.
Proof.
  unfold Py.max. revert x. induction rest as [|y rest IH]; intros x; cbn.
  - left.
  - destruct (Py.gt y x).
    + right. apply IH.
    + specialize (IH x). apply elem_of_cons in IH as [->|IH].
      * left.
      * right. right. exact IH.
Qed.

Lemma min_elem x rest : Py.min x rest ∈ x :: rest.
Proof.
  unfold Py.min. revert x. induction rest as [|y rest IH]; intros x; cbn.
  - left.
  - destruct (Py.lt y x).
    + right. apply IH.
    + specialize (IH x). apply elem_of_cons in IH as [->|IH].
      * left.
      * right. right. exact IH.
Qed.

Lemma round_zero_or_float a nd :
  zero_or_float a -> 0 <= nd -> Py.round a nd = Ok (round_num nd a).
Proof.
  intros [->|(x & -> & Hx)] Hnd; [reflexivity|]. apply round_ok; assumption.
Qed.

(** The sum of integers is exact. *)
Lemma sum_from_ints zs acc :
  Py.sum_from (NInt acc) (map NInt zs) = Ok (NInt (acc + foldr Z.add 0 zs)).
Proof.
  revert acc. induction zs as [|z zs IH]; intros acc; cbn.
  - rewrite Z.add_0_r. reflexivity.
  - rewrite IH. do 2 f_equal. lia.
Qed.

Lemma sum_bound zs :
  Forall uint256 zs -> 0 <= foldr Z.add 0 zs <= 2 ^ 256 * Py.len zs.
Proof.
  unfold Py.len. induction 1 as [|z zs [Hz1 Hz2] _ IH]; cbn [foldr length].
  - lia.
  - rewrite Nat2Z.inj_succ. lia.
Qed.

(** The mean base fee in gwei, rounded. *)
Lemma mean_fee zs :
  Forall uint256 zs -> 1 <= Py.len zs ->
  exists g,
    Py.truediv (NInt (foldr Z.add 0 zs)) (NInt (Py.len zs))
    = Ok (NFloat (of_ratio (foldr Z.add 0 zs) (Py.len zs)))
    /\ Py.truediv (NFloat (of_ratio (foldr Z.add 0 zs) (Py.len zs)))
                  (NFloat (of_Z 1000000000)) = Ok (NFloat g)
    /\ g = div (of_ratio (foldr Z.add 0 zs) (Py.len zs)) (of_Z 1000000000)
    /\ valid g.
Proof.
  intros Hzs Hlen. pose proof (sum_bound zs Hzs) as Hs.
  pose proof quantum_pos as HQ.
  rewrite of_ratio_nonneg by lia.
  destruct (round_to_bound false (foldr Z.add 0 zs * quantum) (Py.len zs)
              (2 ^ 256 * quantum)) as (E & B & R); try nia.
  { apply rep_pow2. lia. }
  { apply pow2_lt_huge. lia. }
  assert (Eg : of_Z 1000000000 = Ffin false (1000000000 * quantum))
    by (vm_compute; reflexivity).
  eexists. split; [|split; [|split; [reflexivity|]]].
  - unfold Py.truediv, Py.int_truediv.
    destruct (Z.eqb_spec (Py.len zs) 0); [lia|].
    rewrite of_ratio_nonneg by lia. rewrite E. reflexivity.
  - unfold Py.truediv, Py.to_float. cbn [rbind]. unfold Py.float_truediv.
    rewrite Eg. cbn [is_zero].
    destruct (Z.eqb_spec (1000000000 * quantum) 0); [lia|]. reflexivity.
  - rewrite Eg. apply valid_div; [|lia].
    rewrite E. split; [exact R|]. pose proof (pow2_lt_huge 256 ltac:(lia)). lia.
Qed.

Lemma fetched_utilization b :
  fetched b -> zero_or_float (utilization_percent b).
Proof.
  intros (_ & Hl & Hu & E).
  destruct (utilization_uint256 _ _ Hu Hl) as (u & Eu & Hp).
  rewrite E in Eu. injection Eu as <-.
  destruct (utilization_percent b) as [z|[[|] m|s|]]; cbn in Hp; try contradiction.
  - left. congruence.
  - right. eexists. split; [reflexivity|]. destruct Hp as [Hr Hb].
    split; [exact Hr|]. pose proof (pow2_lt_huge 263 ltac:(lia)). lia.
Qed.

(** What [summarize] returns when the utilizations are the integer 0 or
    floats and the base fees are 256-bit. *)
Lemma summarize_numbers (blocks : list BlockMetrics) :
  blocks <> [] ->
  Forall zero_or_float (map utilization_percent blocks) ->
  Forall uint256 (map base_fee_wei blocks) ->
  Py.len blocks <= sys_maxsize ->
  summarize blocks = Ok (summary_spec blocks).
Proof.
  intros Hne Hutils Hfees Hlen.
  assert (Hn : 1 <= Py.len blocks).
  { unfold Py.len. destruct blocks; [contradiction|cbn [length]; lia]. }
  assert (Elen : Py.len (map utilization_percent blocks) = Py.len blocks)
    by (unfold Py.len; rewrite length_map; reflexivity).
  assert (Elen' : Py.len (map base_fee_wei blocks) = Py.len blocks)
    by (unfold Py.len; rewrite length_map; reflexivity).
  destruct (mean_floats _ Hutils ltac:(rewrite Elen; lia))
    as (total & Et & Ed & Hv).
  destruct (mean_fee _ Hfees ltac:(rewrite Elen'; lia))
    as (g & Ea & Eg & Eg' & Hg).
  rewrite Elen in Ed. rewrite Elen' in Ea, Eg, Eg'.
  unfold summarize, summary_spec.
  destruct (map utilization_percent blocks) as [|u us] eqn:Eu.
  { destruct blocks; [contradiction|discriminate Eu]. }
  cbn [hd tl]. cbv zeta. rewrite Et. cbn [rbind].
  replace (Py.len (u :: us)) with (Py.len blocks) by (rewrite <- Elen; reflexivity).
  rewrite Ed. cbn [rbind].
  unfold Py.sum. rewrite <- (map_map base_fee_wei NInt), sum_from_ints.
  cbn [rbind]. rewrite Z.add_0_l, Ea. cbn [rbind].
  rewrite (round_ok _ 2 Hv) by lia. cbn [rbind].
  assert (Hin : forall a, a ∈ u :: us -> zero_or_float a).
  { intros a Ha. rewrite Forall_forall in Hutils. apply Hutils, Ha. }
  rewrite (round_zero_or_float _ 2 (Hin _ (max_elem u us))) by lia.
  rewrite (round_zero_or_float _ 2 (Hin _ (min_elem u us))) by lia.
  cbn [rbind]. rewrite Eg. cbn [rbind].
  rewrite (round_ok g 3 Hg) by lia. cbn [rbind]. rewrite Eg'. reflexivity.
Qed.

Lemma metrics_fetched n gl gu bf :
  uint256 gl -> uint256 gu -> uint256 bf -> fetched (metrics n gl gu bf).
Proof.
  intros Hl Hu Hb. unfold fetched, metrics.
  cbn [base_fee_wei gas_limit gas_used utilization_percent].
  destruct (utilization_uint256 gu gl Hu Hl) as (u & E & _). rewrite E. auto.
Defined.

Lemma scenario_blocks_fetched : Forall fetched scenario_blocks.
Proof.
  unfold scenario_blocks.
  repeat (apply Forall_cons; split; [apply metrics_fetched; unfold uint256; lia|]).
  apply Forall_nil. exact I.
Defined.

(** ** Accuracy of the mean of percentages *)

Lemma ulp_pct_quantum : quantum = 2 ^ 46 * ulp_pct.
Proof. rewrite quantum_eq. reflexivity. Qed.

Lemma ulp_sum_pct : ulp_sum = 2 ^ 32 * ulp_pct.
Proof. reflexivity. Qed.

Lemma ulp_pct_pos : 0 < ulp_pct.
Proof. reflexivity. Qed.

#[local] Opaque ulp_pct ulp_sum.

Lemma err_pct n d :
  0 <= n -> 0 < d -> n < d * (128 * quantum) ->
  - (d * ulp_pct) <= 2 * (n - rnd_mag n d * d) <= d * ulp_pct.
Proof.
  intros Hn Hd Hlt.
  assert (E : 2 ^ (1028 + 53) = 128 * quantum) by (rewrite quantum_eq; reflexivity).
  pose proof (rnd_mag_error n d 1028 Hn Hd ltac:(lia) ltac:(rewrite E; lia)) as H.
  exact H.
Qed.

Lemma err_sum v :
  0 <= v < 2 ^ 39 * quantum ->
  - ulp_sum <= 2 * (v - rnd_mag v 1) <= ulp_sum.
Proof.
  intros Hv.
  assert (E : 2 ^ (1060 + 53) = 2 ^ 39 * quantum) by (rewrite quantum_eq; reflexivity).
  pose proof (rnd_mag_error v 1 1060 ltac:(lia) ltac:(lia) ltac:(lia)
                ltac:(rewrite E; lia)) as H.
  rewrite !Z.mul_1_l, Z.mul_1_r in H. exact H.
Qed.

(** Partial sums of at most [2^32] percentages: each addition adds at most
    half a unit in the last place of [2^39] to the error. *)
Lemma fsum_from_bounded vs :
  Forall (fun v => 0 <= v <= 100 * quantum) vs ->
  forall s0 X0 k0,
    0 <= k0 -> 0 <= s0 ->
    - (k0 * ulp_sum) <= 2 * (s0 - X0) <= k0 * ulp_sum ->
    0 <= X0 <= k0 * (100 * quantum) ->
    k0 + Py.len vs <= 2 ^ 32 ->
    exists s,
      fold_left add (map (Ffin false) vs) (Ffin false s0) = Ffin false s
      /\ 0 <= s
      /\ - ((k0 + Py.len vs) * ulp_sum)
         <= 2 * (s - (X0 + foldr Z.add 0 vs))
         <= (k0 + Py.len vs) * ulp_sum.
Proof.
  unfold Py.len.
  induction 1 as [|v vs Hv Hvs IH]; intros s0 X0 k0 Hk Hs0 Herr HX Hlen.
  - exists s0. cbn. rewrite !Z.add_0_r. auto.
  - cbn [length] in Hlen |- *. rewrite Nat2Z.inj_succ in Hlen |- *.
    cbn [map fold_left foldr add signed].
    pose proof quantum_pos as HQ. pose proof ulp_pct_pos as Hp.
    pose proof ulp_pct_quantum as EQ. pose proof ulp_sum_pct as ES.
    assert (Hk32 : k0 <= 2 ^ 32 - 1) by lia.
    assert (Hbound : s0 + v < 2 ^ 39 * quantum).
    { assert (2 * s0 <= 2 * (k0 * (100 * quantum)) + k0 * ulp_sum) by lia.
      assert (k0 * ulp_sum <= (2 ^ 32 - 1) * ulp_sum) by nia.
      assert (k0 * (100 * quantum) <= (2 ^ 32 - 1) * (100 * quantum)) by nia.
      rewrite ES in *. rewrite EQ in *. lia. }
    destruct (Z.eqb_spec (s0 + v) 0) as [Hz|Hnz].
    + assert (s0 = 0) by lia. assert (v = 0) by lia. subst s0 v.
      cbn [andb].
      destruct (IH 0 X0 (k0 + 1)) as (s & E & Hs & Hb); try lia.
      exists s. split; [exact E|]. split; [exact Hs|]. lia.
    + destruct (Z.ltb_spec (s0 + v) 0); [lia|]. rewrite Z.abs_eq by lia.
      destruct (round_to_bound false (s0 + v) 1 (2 ^ 39 * quantum))
        as (E1 & B1 & _); try lia.
      { apply rep_pow2. lia. }
      { apply pow2_lt_huge. lia. }
      rewrite E1.
      pose proof (err_sum (s0 + v) ltac:(lia)) as He.
      destruct (IH (rnd_mag (s0 + v) 1) (X0 + v) (k0 + 1)) as (s & E & Hs & Hb);
        try lia.
      exists s. split; [exact E|]. split; [exact Hs|]. lia.
Qed.

Lemma rhe_quarter_up t : rhe (4 * t + 1) 4 = t.
Proof.
  unfold rhe.
  assert (E1 : (4 * t + 1) / 4 = t) by (Z.div_mod_to_equations; lia).
  assert (E2 : (4 * t + 1) mod 4 = 1) by (Z.div_mod_to_equations; lia).
  rewrite E1, E2. reflexivity.
Qed.

Lemma rhe_quarter_down t : rhe (4 * t - 1) 4 = t.
Proof.
  unfold rhe.
  assert (E1 : (4 * t - 1) / 4 = t - 1) by (Z.div_mod_to_equations; lia).
  assert (E2 : (4 * t - 1) mod 4 = 3) by (Z.div_mod_to_equations; lia).
  rewrite E1, E2. change (2 * 3 <? 4) with false. change (4 <? 2 * 3) with true.
  cbv iota. lia.
Qed.

Lemma of_Z_small n : 0 <= n <= 2 ^ 53 -> of_Z n = Ffin false (n * quantum).
Proof.
  intros Hn. pose proof quantum_pos. unfold of_Z.
  rewrite of_ratio_nonneg by lia.
  destruct (round_to_bound false (n * quantum) 1 (2 ^ 53 * quantum))
    as (E & _); try nia.
  { apply rep_pow2. lia. }
  { apply pow2_lt_huge. lia. }
  rewrite E, rnd_mag_int by lia. reflexivity.
Qed.

Lemma sum_between vs lo hi :
  Forall (fun v => lo <= v <= hi) vs ->
  Py.len vs * lo <= foldr Z.add 0 vs <= Py.len vs * hi.
Proof.
  unfold Py.len. induction 1 as [|v vs Hv _ IH]; cbn [foldr length].
  - lia.
  - rewrite Nat2Z.inj_succ. lia.
Qed.

(** The mean of at most [2^32] percentages that lie between two values
    with two decimals, rounded to two decimals, lies between them. *)
Lemma mean_between vs vlo vhi tlo thi :
  vs <> [] -> Py.len vs <= 2 ^ 32 ->
  Forall (fun v => vlo <= v <= vhi) vs ->
  0 <= vlo -> vhi <= 100 * quantum ->
  0 <= tlo -> thi <= 10000 ->
  - (100 * ulp_pct) <= 2 * (tlo * quantum - 100 * vlo) <= 100 * ulp_pct ->
  - (100 * ulp_pct) <= 2 * (thi * quantum - 100 * vhi) <= 100 * ulp_pct ->
  exists a T,
    div (fold_left add (map (Ffin false) vs) (Ffin false 0))
        (of_Z (Py.len vs)) = Ffin false a
    /\ rep a /\ a < huge
    /\ round_digits 2 (Ffin false a) = Ffin false (rnd_mag (T * quantum) 100)
    /\ tlo <= T <= thi.
Proof.
  intros Hne Hlen Hall Hvlo Hvhi Htlo Hthi Hlo Hhi.
  pose proof quantum_pos as HQ. pose proof ulp_pct_pos as Hp.
  pose proof ulp_pct_quantum as EQ. pose proof ulp_sum_pct as ES.
  assert (Hn : 1 <= Py.len vs).
  { unfold Py.len. destruct vs; [contradiction|cbn [length]; lia]. }
  set (n := Py.len vs) in *.
  assert (Hall' : Forall (fun v => 0 <= v <= 100 * quantum) vs).
  { eapply Forall_impl; [exact Hall|]. cbn. intros v Hv. lia. }
  destruct (fsum_from_bounded vs Hall' 0 0 0) as (s & Es & Hs & Herr);
    try lia.
  fold n in Herr. rewrite !Z.add_0_l in Herr.
  pose proof (sum_between vs vlo vhi Hall) as Hsum. fold n in Hsum.
  set (X := foldr Z.add 0 vs) in *.
  rewrite Es, of_Z_small by lia. cbn [div xorb].
  assert (Hs128 : s < n * (128 * quantum)).
  { assert (2 * s <= 2 * (n * (100 * quantum)) + n * ulp_sum) by nia.
    rewrite ES, EQ in *. nia. }
  assert (H128 : 128 * quantum < huge).
  { pose proof (pow2_lt_huge 7 ltac:(lia)) as H7. change (2 ^ 7) with 128 in H7.
    exact H7. }
  assert (O1 : 0 <= s * quantum) by (apply Z.mul_nonneg_nonneg; lia).
  assert (O2 : 0 < n * quantum) by (apply Z.mul_pos_pos; lia).
  assert (O3 : s * quantum <= 128 * quantum * (n * quantum)).
  { replace (128 * quantum * (n * quantum)) with (n * (128 * quantum) * quantum)
      by ring. apply Z.mul_le_mono_nonneg_r; lia. }
  destruct (round_to_bound false (s * quantum) (n * quantum) (128 * quantum)
              O1 O2 O3 (rep_int 128 ltac:(lia)) H128) as (E1 & B1 & R1).
  rewrite E1.
  assert (Ea : rnd_mag (s * quantum) (n * quantum) = rnd_mag s n).
  { rewrite (Z.mul_comm s), (Z.mul_comm n). apply rnd_mag_scale; lia. }
  rewrite Ea in *. set (a := rnd_mag s n) in *.
  pose proof (err_pct s n Hs ltac:(lia) Hs128) as Hea. fold a in Hea.
  assert (Hup : 400 * a <= (4 * thi + 1) * quantum).
  { assert (2 * (a * n) <= n * (2 * vhi + ulp_sum + ulp_pct)) by nia.
    assert (2 * a <= 2 * vhi + ulp_sum + ulp_pct) by nia.
    rewrite ES, EQ in *. lia. }
  assert (Hdown : (4 * tlo - 1) * quantum <= 400 * a).
  { assert (n * (2 * vlo - ulp_sum - ulp_pct) <= 2 * (a * n)) by nia.
    assert (2 * vlo - ulp_sum - ulp_pct <= 2 * a) by nia.
    rewrite ES, EQ in *. lia. }
  destruct (round_digits_bound false a 2 128 ltac:(lia)
              (rep_int 128 ltac:(lia)) H128 ltac:(lia)) as (E2 & _ & _ & _).
  change (10 ^ 2) with 100 in E2.
  exists a, (rhe (a * 100) quantum).
  split; [reflexivity|]. split; [exact R1|].
  split; [lia|]. split; [exact E2|]. split.
  - rewrite <- (rhe_quarter_down tlo). apply rhe_mono; lia.
  - rewrite <- (rhe_quarter_up thi). apply rhe_mono; lia.
Qed.

(** ** Order of finite numbers *)

Lemma cmp_finite a b :
  finite_num a -> finite_num b -> Py.cmp a b = Some (val a ?= val b).
Proof.
  pose proof quantum_pos as HQ.
  destruct a as [x|[s m|s|]], b as [y|[s' m'|s'|]]; cbn [finite_num is_finite];
    intros Ha Hb; try discriminate Ha; try discriminate Hb;
    cbn [Py.cmp val fval compare compare_Z].
  - f_equal. rewrite <- (Zmult_compare_compat_r x y quantum) by lia. reflexivity.
  - reflexivity.
  - cbn [fmap option_fmap option_map]. f_equal. symmetry.
    apply Z.compare_antisym.
  - reflexivity.
Qed.

Lemma le_finite a b :
  finite_num a -> finite_num b -> (Py.le a b = true <-> val a <= val b).
Proof.
  intros Ha Hb. unfold Py.le. rewrite (cmp_finite a b Ha Hb).
  destruct (Z.compare_spec (val a) (val b)); split; intros; try lia;
    try reflexivity; discriminate.
Qed.

Lemma lt_finite a b :
  finite_num a -> finite_num b -> (Py.lt a b = true <-> val a < val b).
Proof.
  intros Ha Hb. unfold Py.lt. rewrite (cmp_finite a b Ha Hb).
  destruct (Z.compare_spec (val a) (val b)); split; intros; try lia;
    try reflexivity; discriminate.
Qed.

Lemma max_fold_ge rest : Forall finite_num rest ->
  forall best, finite_num best ->
  let m := fold_left (fun best item => if Py.gt item best then item else best)
             rest best in
  val best <= val m /\ (forall y, y ∈ rest -> val y <= val m).
Proof.
  induction 1 as [|x rest Hx Hrest IH]; intros best Hb; cbn [fold_left].
  - split; [lia|]. intros y Hy. inversion Hy.
  - replace (Py.gt x best) with (Py.lt best x) by reflexivity.
    destruct (Py.lt best x) eqn:El.
    + apply lt_finite in El; [|assumption..].
      destruct (IH x Hx) as [H1 H2]. split; [lia|].
      intros y Hy. apply elem_of_cons in Hy as [->|Hy]; [exact H1|apply H2, Hy].
    + assert (val x <= val best).
      { destruct (Z_lt_le_dec (val best) (val x)) as [Hlt|]; [|assumption].
        apply lt_finite in Hlt; [|assumption..]. congruence. }
      destruct (IH best Hb) as [H1 H2]. split; [exact H1|].
      intros y Hy. apply elem_of_cons in Hy as [->|Hy]; [lia|apply H2, Hy].
Qed.

Lemma min_fold_le rest : Forall finite_num rest ->
  forall best, finite_num best ->
  let m := fold_left (fun best item => if Py.lt item best then item else best)
             rest best in
  val m <= val best /\ (forall y, y ∈ rest -> val m <= val y).
Proof.
  induction 1 as [|x rest Hx Hrest IH]; intros best Hb; cbn [fold_left].
  - split; [lia|]. intros y Hy. inversion Hy.
  - destruct (Py.lt x best) eqn:El.
    + apply lt_finite in El; [|assumption..].
      destruct (IH x Hx) as [H1 H2]. split; [lia|].
      intros y Hy. apply elem_of_cons in Hy as [->|Hy]; [exact H1|apply H2, Hy].
    + assert (val best <= val x).
      { destruct (Z_lt_le_dec (val x) (val best)) as [Hlt|]; [|assumption].
        apply lt_finite in Hlt; [|assumption..]. congruence. }
      destruct (IH best Hb) as [H1 H2]. split; [exact H1|].
      intros y Hy. apply elem_of_cons in Hy as [->|Hy]; [lia|apply H2, Hy].
Qed.

Lemma max_ge x rest y :
  Forall finite_num (x :: rest) -> y ∈ x :: rest -> val y <= val (Py.max x rest).
Proof.
  intros Hall Hy. apply Forall_cons in Hall as [Hx Hrest].
  destruct (max_fold_ge rest Hrest x Hx) as [H1 H2].
  apply elem_of_cons in Hy as [->|Hy]; [exact H1|apply H2, Hy].
Qed.

Lemma min_le x rest y :
  Forall finite_num (x :: rest) -> y ∈ x :: rest -> val (Py.min x rest) <= val y.
Proof.
  intros Hall Hy. apply Forall_cons in Hall as [Hx Hrest].
  destruct (min_fold_le rest Hrest x Hx) as [H1 H2].
  apply elem_of_cons in Hy as [->|Hy]; [exact H1|apply H2, Hy].
Qed.

(** ** Utilizations of blocks within their gas limit *)

(** The double nearest to [t / 100] is at most 100 when [t <= 10000]. *)
Lemma hundredth_bounds t :
  0 <= t <= 10000 -> 0 <= rnd_mag (t * quantum) 100 <= 100 * quantum.
Proof.
  intros Ht. pose proof quantum_pos as HQ. split.
  - apply rnd_mag_nonneg; nia.
  - rewrite <- (rnd_mag_int 100) by lia.
    apply rnd_mag_mono; nia.
Qed.

(** Rounding such a double to two decimals gives it back. *)
Lemma round_hundredth t :
  0 <= t <= 10000 ->
  round_digits 2 (Ffin false (rnd_mag (t * quantum) 100))
  = Ffin false (rnd_mag (t * quantum) 100).
Proof.
  intros Ht. pose proof quantum_pos as HQ. pose proof ulp_pct_pos as Hp.
  pose proof ulp_pct_quantum as EQ.
  pose proof (hundredth_bounds t Ht) as Hb.
  assert (O1 : 0 <= t * quantum) by nia.
  assert (O2 : t * quantum < 100 * (128 * quantum)) by nia.
  pose proof (err_pct (t * quantum) 100 O1 ltac:(lia) O2) as He.
  set (v := rnd_mag (t * quantum) 100) in *.
  assert (H128 : 128 * quantum < huge).
  { pose proof (pow2_lt_huge 7 ltac:(lia)) as H7. change (2 ^ 7) with 128 in H7.
    exact H7. }
  destruct (round_digits_bound false v 2 128 ltac:(lia)
              (rep_int 128 ltac:(lia)) H128 ltac:(lia)) as (E & _).
  change (10 ^ 2) with 100 in E. rewrite E.
  assert (Et : rhe (v * 100) quantum = t).
  { apply Z.le_antisymm.
    - etransitivity; [|apply Z.eq_le_incl, (rhe_quarter_up t)].
      apply rhe_mono; lia.
    - etransitivity; [apply Z.eq_le_incl; symmetry; apply (rhe_quarter_down t)|].
      apply rhe_mono; lia. }
  rewrite Et. reflexivity.
Qed.

(** What is known of a utilization of [t] hundredths of a percent. *)
Lemma hundredths_value t u :
  0 <= t <= 10000 -> hundredths t u ->
  val u = rnd_mag (t * quantum) 100
  /\ as_float u = Ffin false (rnd_mag (t * quantum) 100)
  /\ finite_num u
  /\ val (round_num 2 u) = rnd_mag (t * quantum) 100
  /\ finite_num (round_num 2 u).
Proof.
  intros Ht [ [-> ->] | -> ].
  - rewrite Z.mul_0_l, rnd_mag_0 by lia. cbn [val as_float round_num finite_num].
    rewrite of_Z_0. repeat split; reflexivity.
  - cbn [val as_float round_num finite_num]. rewrite round_hundredth by lia.
    cbn [fval signed is_finite]. repeat split; reflexivity.
Qed.

Lemma nominal_hundredths b :
  nominal b ->
  exists t, 0 <= t <= 10000 /\ hundredths t (utilization_percent b).
Proof.
  intros [(_ & Hl & Hu & E) Hle].
  destruct (utilization_nominal (gas_used b) (gas_limit b)) as (t & u & Ht & Eu & Hh & _).
  { unfold uint256 in Hu. lia. }
  rewrite E in Eu. injection Eu as <-. exists t. auto.
Qed.

Lemma len_map {A B} (f : A -> B) (xs : list A) : Py.len (map f xs) = Py.len xs.
Proof. unfold Py.len. rewrite length_map. reflexivity. Qed.

(** A number between 0 and 100. *)
Lemma within_0_100 u :
  finite_num u -> 0 <= val u <= 100 * quantum ->
  Py.le (NInt 0) u = true /\ Py.le u (NInt 100) = true.
Proof.
  intros Hf Hv. split.
  - apply le_finite; [exact I|exact Hf|]. cbn [val]. lia.
  - apply le_finite; [exact Hf|exact I|]. cbn [val]. lia.
Qed.

(** The summary of at most [2^32] blocks within their gas limit: the three
    utilization figures are finite, ordered and between 0 and 100. *)
Lemma nominal_summary blocks :
  blocks <> [] -> Forall nominal blocks -> Py.len blocks <= 2 ^ 32 ->
  exists avg high low fee,
    summarize blocks
    = Ok [("avg_utilization_percent", VNum avg);
          ("max_utilization_percent", VNum high);
          ("min_utilization_percent", VNum low);
          ("avg_base_fee_gwei", VNum fee);
          ("total_blocks", VNum (NInt (Py.len blocks)))]
    /\ finite_num avg /\ finite_num high /\ finite_num low
    /\ 0 <= val low /\ val low <= val avg /\ val avg <= val high
    /\ val high <= 100 * quantum.
Proof.
  intros Hne Hall Hlen. pose proof quantum_pos as HQ.
  assert (Hmax : Py.len blocks <= sys_maxsize) by (unfold sys_maxsize; lia).
  assert (Es : summarize blocks = Ok (summary_spec blocks)).
  { apply summarize_numbers; [exact Hne| | |exact Hmax].
    - apply Forall_fmap. eapply Forall_impl; [exact Hall|].
      intros b [Hb _]. apply fetched_utilization, Hb.
    - apply Forall_fmap. eapply Forall_impl; [exact Hall|].
      intros b [(Hfee & _) _]. exact Hfee. }
  unfold summary_spec in Es. cbv zeta in Es.
  remember (map utilization_percent blocks) as utils eqn:Eu.
  assert (Hh : Forall (fun u => exists t, 0 <= t <= 10000 /\ hundredths t u) utils).
  { subst utils. apply Forall_fmap. eapply Forall_impl; [exact Hall|].
    intros b Hb. apply nominal_hundredths, Hb. }
  assert (Hfin : Forall finite_num utils).
  { eapply Forall_impl; [exact Hh|]. intros u (t & Ht & H).
    apply (hundredths_value t u Ht H). }
  assert (Hmap : map as_float utils = map (Ffin false) (map val utils)).
  { clear -Hh. induction Hh as [|u us (t & Ht & H) _ IH]; [reflexivity|].
    cbn [map]. rewrite IH.
    destruct (hundredths_value t u Ht H) as (Ev & Ea & _).
    rewrite Ea, Ev. reflexivity. }
  assert (Elen : Py.len utils = Py.len blocks) by (subst utils; apply len_map).
  destruct utils as [|u us].
  { destruct blocks; [contradiction|discriminate Eu]. }
  cbn [hd tl] in Es.
  set (hi := Py.max u us) in *. set (lo := Py.min u us) in *.
  rewrite Forall_forall in Hh.
  destruct (Hh hi (max_elem u us)) as (thi & Hthi & Hhi).
  destruct (Hh lo (min_elem u us)) as (tlo & Htlo & Hlo).
  destruct (hundredths_value thi hi Hthi Hhi) as (Evhi & _ & _ & Erhi & Frhi).
  destruct (hundredths_value tlo lo Htlo Hlo) as (Evlo & _ & _ & Erlo & Frlo).
  pose proof (hundredth_bounds thi Hthi) as Bhi.
  pose proof (hundredth_bounds tlo Htlo) as Blo.
  assert (Hbetween : Forall (fun v => val lo <= v <= val hi) (map val (u :: us))).
  { apply Forall_fmap, Forall_forall. intros y Hy. cbn. split.
    - apply min_le; assumption.
    - apply max_ge; assumption. }
  assert (O1 : 0 <= tlo * quantum) by nia.
  assert (O2 : tlo * quantum < 100 * (128 * quantum)) by nia.
  assert (O3 : 0 <= thi * quantum) by nia.
  assert (O4 : thi * quantum < 100 * (128 * quantum)) by nia.
  pose proof (err_pct (tlo * quantum) 100 O1 ltac:(lia) O2) as Helo.
  pose proof (err_pct (thi * quantum) 100 O3 ltac:(lia) O4) as Hehi.
  destruct (mean_between (map val (u :: us)) (val lo) (val hi) tlo thi)
    as (a & T & Ediv & Ra & Ha & Er & HT).
  { intros H. discriminate H. }
  { rewrite len_map, Elen. exact Hlen. }
  { exact Hbetween. }
  { rewrite Evlo. lia. }
  { rewrite Evhi. lia. }
  { lia. }
  { lia. }
  { rewrite Evlo. lia. }
  { rewrite Evhi. lia. }
  assert (Em : fmean (u :: us) = Ffin false a).
  { unfold fmean, fsum. rewrite Hmap, of_Z_0, <- Ediv, len_map. reflexivity. }
  rewrite Em, Er in Es.
  eexists _, _, _, _. split; [exact Es|].
  cbn [finite_num is_finite val fval signed].
  split; [reflexivity|]. split; [exact Frhi|]. split; [exact Frlo|].
  rewrite Erhi, Erlo.
  split; [lia|]. split; [apply rnd_mag_mono; nia|].
  split; [apply rnd_mag_mono; nia|lia].
Qed.

(** The maximum and the minimum of any number of blocks within their gas
    limit are finite and between 0 and 100. *)
Lemma nominal_extremes blocks :
  blocks <> [] -> Forall nominal blocks -> Py.len blocks <= sys_maxsize ->
  exists avg high low fee,
    summarize blocks
    = Ok [("avg_utilization_percent", VNum avg);
          ("max_utilization_percent", VNum high);
          ("min_utilization_percent", VNum low);
          ("avg_base_fee_gwei", VNum fee);
          ("total_blocks", VNum (NInt (Py.len blocks)))]
    /\ finite_num high /\ finite_num low
    /\ 0 <= val low /\ val low <= val high /\ val high <= 100 * quantum.
Proof.
  intros Hne Hall Hmax.
  assert (Es : summarize blocks = Ok (summary_spec blocks)).
  { apply summarize_numbers; [exact Hne| | |exact Hmax].
    - apply Forall_fmap. eapply Forall_impl; [exact Hall|].
      intros b [Hb _]. apply fetched_utilization, Hb.
    - apply Forall_fmap. eapply Forall_impl; [exact Hall|].
      intros b [(Hfee & _) _]. exact Hfee. }
  unfold summary_spec in Es. cbv zeta in Es.
  remember (map utilization_percent blocks) as utils eqn:Eu.
  assert (Hh : Forall (fun u => exists t, 0 <= t <= 10000 /\ hundredths t u) utils).
  { subst utils. apply Forall_fmap. eapply Forall_impl; [exact Hall|].
    intros b Hb. apply nominal_hundredths, Hb. }
  assert (Hfin : Forall finite_num utils).
  { eapply Forall_impl; [exact Hh|]. intros u (t & Ht & H).
    apply (hundredths_value t u Ht H). }
  destruct utils as [|u us].
  { destruct blocks; [contradiction|discriminate Eu]. }
  cbn [hd tl] in Es.
  set (hi := Py.max u us) in *. set (lo := Py.min u us) in *.
  rewrite Forall_forall in Hh.
  destruct (Hh hi (max_elem u us)) as (thi & Hthi & Hhi).
  destruct (Hh lo (min_elem u us)) as (tlo & Htlo & Hlo).
  destruct (hundredths_value thi hi Hthi Hhi) as (Evhi & _ & _ & Erhi & Frhi).
  destruct (hundredths_value tlo lo Htlo Hlo) as (Evlo & _ & _ & Erlo & Frlo).
  pose proof (hundredth_bounds thi Hthi) as Bhi.
  pose proof (hundredth_bounds tlo Htlo) as Blo.
  pose proof (max_ge u us lo Hfin (min_elem u us)) as Hlh. fold hi in Hlh.
  eexists _, _, _, _. split; [exact Es|].
  split; [exact Frhi|]. split; [exact Frlo|].
  rewrite Erhi, Erlo, <- Evhi, <- Evlo. lia.
Qed.

Lemma metrics_nominal n gl gu bf :
  uint256 gl -> uint256 gu -> uint256 bf -> gu <= gl ->
  nominal (metrics n gl gu bf).
Proof.
  intros Hl Hu Hb Hle. split; [apply metrics_fetched; assumption|exact Hle].
Defined.

Lemma scenario_blocks_nominal : Forall nominal scenario_blocks.
Proof.
  unfold scenario_blocks.
  repeat (apply Forall_cons; split;
          [apply metrics_nominal; unfold uint256; lia|]).
  apply Forall_nil. exact I.
Defined.

(** ** The order of the three utilization figures *)

(** C4, the claim as it stands fails: three blocks that report
    [gasUsed = 10^14] against [gasLimit = 3] have the utilization
    [3333333333333333.0] each; their floating-point sum is
    [10000000000000000.0], the mean [3333333333333333.5] exceeds the
    maximum. *)
Lemma overfull_mean_exceeds_max :
  Forall fetched overfull_blocks
  /\ map utilization_percent overfull_blocks
     = [NFloat (of_Z 3333333333333333); NFloat (of_Z 3333333333333333);
        NFloat (of_Z 3333333333333333)]
  /\ summarize overfull_blocks
     = Ok [("avg_utilization_percent",
              VNum (NFloat (of_ratio 6666666666666667 2)));
           ("max_utilization_percent", VNum (NFloat (of_Z 3333333333333333)));
           ("min_utilization_percent", VNum (NFloat (of_Z 3333333333333333)));
           ("avg_base_fee_gwei", VNum (NFloat (of_Z 1)));
           ("total_blocks", VNum (NInt 3))]
  /\ Py.le (NFloat (of_ratio 6666666666666667 2))
           (NFloat (of_Z 3333333333333333)) = false.
Proof.
  split.
  { unfold overfull_blocks.
    repeat (apply Forall_cons; split;
            [apply metrics_fetched; unfold uint256; lia|]).
    apply Forall_nil. exact I. }
  split; [vm_compute; reflexivity|].
  split; vm_compute; reflexivity.
Qed.

(** C4, amended: for every non-empty sequence of at most [2^32] records
    that fetch built from responses with [0 <= gasUsed <= gasLimit],
    [summarize] returns a summary with
    [min_utilization_percent <= avg_utilization_percent
     <= max_utilization_percent]. *)
Theorem nominal_mean_between_min_and_max (blocks : list BlockMetrics) :
  blocks <> [] -> Forall nominal blocks -> Py.len blocks <= 2 ^ 32 ->
  exists s avg high low,
    summarize blocks = Ok s
    /\ Py.getitem s "avg_utilization_percent" = Ok (VNum avg)
    /\ Py.getitem s "max_utilization_percent" = Ok (VNum high)
    /\ Py.getitem s "min_utilization_percent" = Ok (VNum low)
    /\ Py.le low avg = true /\ Py.le avg high = true.
Proof.
  intros Hne Hall Hlen.
  destruct (nominal_summary blocks Hne Hall Hlen)
    as (avg & high & low & fee & Es & Fa & Fh & Fl & _ & Hla & Hah & _).
  eexists. exists avg, high, low. split; [exact Es|].
  split; [reflexivity|]. split; [reflexivity|]. split; [reflexivity|].
  split; apply le_finite; assumption.
Qed.

Lemma nominal_mean_between_min_and_max_witness :
  exists s avg high low,
    summarize scenario_blocks = Ok s
    /\ Py.getitem s "avg_utilization_percent" = Ok (VNum avg)
    /\ Py.getitem s "max_utilization_percent" = Ok (VNum high)
    /\ Py.getitem s "min_utilization_percent" = Ok (VNum low)
    /\ Py.le low avg = true /\ Py.le avg high = true.
Proof.
  apply (nominal_mean_between_min_and_max scenario_blocks).
  - intros H. discriminate H.
  - exact scenario_blocks_nominal.
  - unfold Py.len, scenario_blocks. cbn [length]. lia.
Defined.

(** ** The range of the utilization figures *)

(** C10: the record that fetch builds from a response with
    [0 <= gasUsed <= gasLimit] has a utilization between 0 and 100, fetch
    does build a record from such a response when it carries [number] and
    a valid [timestamp], and the record is [nominal] when the quantities of
    the response are 256-bit; for every non-empty sequence of nominal
    records [summarize] returns a summary whose maximum and minimum
    utilization lie between 0 and 100, and so does the average when the
    sequence has at most [2^32] records. *)
Theorem utilization_within_0_and_100 :
  (forall W (w3 : Web3 W) (id : block_id) (w w' : W) (log : list event)
          (b : block),
     eth_get_block w3 id w = (Ok b, w') ->
     0 <= get_or_zero b "gasUsed" <= get_or_zero b "gasLimit" ->
     (forall bm s', fetch_gas_data w3 id (w, log) = (Ok bm, s') ->
        Py.le (NInt 0) (utilization_percent bm) = true
        /\ Py.le (utilization_percent bm) (NInt 100) = true
        /\ (uint256 (get_or_zero b "baseFeePerGas") ->
            uint256 (get_or_zero b "gasLimit") ->
            uint256 (get_or_zero b "gasUsed") -> nominal bm))
     /\ (forall n ts,
           b !! "number" = Some n -> b !! "timestamp" = Some ts ->
           Datetime.min_timestamp <= ts <= Datetime.max_timestamp ->
           exists bm, fetch_gas_data w3 id (w, log)
                      = (Ok bm, (w', log ++ [EvGetBlock id]))))
  /\ (forall blocks : list BlockMetrics,
        blocks <> [] -> Forall nominal blocks ->
        Py.len blocks <= sys_maxsize ->
        exists s avg high low,
          summarize blocks = Ok s
          /\ Py.getitem s "avg_utilization_percent" = Ok (VNum avg)
          /\ Py.getitem s "max_utilization_percent" = Ok (VNum high)
          /\ Py.getitem s "min_utilization_percent" = Ok (VNum low)
          /\ (Py.le (NInt 0) high = true /\ Py.le high (NInt 100) = true)
          /\ (Py.le (NInt 0) low = true /\ Py.le low (NInt 100) = true)
          /\ (Py.len blocks <= 2 ^ 32 ->
              Py.le (NInt 0) avg = true /\ Py.le avg (NInt 100) = true)).
Proof.
  split.
  - intros W w3 id w w' log b Hget Hr.
    rewrite fetch_run, Hget. cbn [fst snd rbind].
    destruct (utilization_nominal _ _ Hr) as (t & u & Ht & Eu & Hh & _).
    split.
    + intros bm s' [= Hm _].
      apply metrics_of_block_inv in Hm.
      destruct Hm as (_ & Hb & Hl & Hu & Hutil & _).
      rewrite Hl, Hu, Eu in Hutil. injection Hutil as ->.
      destruct (hundredths_value t _ Ht Hh) as (Ev & _ & Hfin & _).
      pose proof (hundredth_bounds t Ht) as Hbd.
      destruct (within_0_100 (utilization_percent bm) Hfin) as [H0 H100].
      { rewrite Ev. exact Hbd. }
      split; [exact H0|]. split; [exact H100|].
      intros Ub Ul Uu. unfold nominal, fetched. rewrite Hb, Hl, Hu.
      split; [|lia]. split; [exact Ub|]. split; [exact Ul|].
      split; [exact Uu|exact Eu].
    + intros n ts Hn Hts Hrange.
      destruct (metrics_of_block_ok b n ts u Eu Hn Hts Hrange) as (iso & ->).
      eexists. reflexivity.
  - intros blocks Hne Hall Hmax. pose proof quantum_pos as HQ.
    destruct (nominal_extremes blocks Hne Hall Hmax)
      as (avg & high & low & fee & Es & Fh & Fl & H0 & Hlh & H100).
    eexists. exists avg, high, low. split; [exact Es|].
    split; [reflexivity|]. split; [reflexivity|]. split; [reflexivity|].
    split; [apply within_0_100; [exact Fh|lia]|].
    split; [apply within_0_100; [exact Fl|lia]|].
    intros Hlen.
    destruct (nominal_summary blocks Hne Hall Hlen)
      as (avg' & high' & low' & fee' & Es' & Fa & _ & _ & H0' & Hla & Hah & H100').
    rewrite Es in Es'. injection Es' as -> _ _ _.
    apply within_0_100; [exact Fa|lia].
Qed.

Lemma utilization_within_0_and_100_witness :
  (exists bm s',
     fetch_gas_data steady_node Latest (1000, []) = (Ok bm, s')
     /\ Py.le (NInt 0) (utilization_percent bm) = true
     /\ Py.le (utilization_percent bm) (NInt 100) = true)
  /\ (exists s avg high low,
        summarize scenario_blocks = Ok s
        /\ Py.getitem s "avg_utilization_percent" = Ok (VNum avg)
        /\ Py.getitem s "max_utilization_percent" = Ok (VNum high)
        /\ Py.getitem s "min_utilization_percent" = Ok (VNum low)
        /\ (Py.le (NInt 0) high = true /\ Py.le high (NInt 100) = true)
        /\ (Py.le (NInt 0) low = true /\ Py.le low (NInt 100) = true)
        /\ (Py.le (NInt 0) avg = true /\ Py.le avg (NInt 100) = true)).
Proof.
  destruct utilization_within_0_and_100 as [Hone Hall].
  split.
  - destruct (Hone Z steady_node Latest 1000 1000 []
                (sample_block 1000 (1700000000 + 12 * 1000) 30000000 15000000
                   1000000000) eq_refl) as (Hin & Hex).
    + change (get_or_zero _ "gasUsed") with 15000000.
      change (get_or_zero _ "gasLimit") with 30000000. lia.
    + destruct (Hex 1000 (1700000000 + 12 * 1000)) as (bm & E).
      * reflexivity.
      * reflexivity.
      * unfold Datetime.min_timestamp, Datetime.max_timestamp. lia.
      * destruct (Hin bm _ E) as (H0 & H100 & _).
        exists bm. eexists. split; [exact E|]. split; assumption.
  - destruct (Hall scenario_blocks)
      as (s & avg & high & low & Es & Ea & Eh & El & Hh & Hl & Ha).
    + intros H. discriminate H.
    + exact scenario_blocks_nominal.
    + unfold sys_maxsize, Py.len, scenario_blocks. cbn [length]. lia.
    + exists s, avg, high, low.
      split; [exact Es|]. split; [exact Ea|]. split; [exact Eh|].
      split; [exact El|]. split; [exact Hh|]. split; [exact Hl|].
      apply Ha. unfold Py.len, scenario_blocks. cbn [length]. lia.
Defined.

(** ** The summary against exact arithmetic *)

(** The mean of at most [2^32] percentages, computed in floating point, is
    within [2^-14] of a percent of their exact mean. *)
Lemma mean_near vs :
  vs <> [] -> Py.len vs <= 2 ^ 32 ->
  Forall (fun v => 0 <= v <= 100 * quantum) vs ->
  exists a,
    div (fold_left add (map (Ffin false) vs) (Ffin false 0))
        (of_Z (Py.len vs)) = Ffin false a
    /\ round_digits 2 (Ffin false a)
       = Ffin false (rnd_mag (rhe (a * 100) quantum * quantum) 100)
    /\ 0 <= a
    /\ - (Py.len vs * (ulp_sum + ulp_pct))
       <= 2 * (a * Py.len vs - foldr Z.add 0 vs)
       <= Py.len vs * (ulp_sum + ulp_pct).
Proof.
  intros Hne Hlen Hall.
  pose proof quantum_pos as HQ. pose proof ulp_pct_pos as Hp.
  pose proof ulp_pct_quantum as EQ. pose proof ulp_sum_pct as ES.
  assert (Hn : 1 <= Py.len vs).
  { unfold Py.len. destruct vs; [contradiction|cbn [length]; lia]. }
  set (n := Py.len vs) in *.
  destruct (fsum_from_bounded vs Hall 0 0 0) as (s & Es & Hs & Herr);
    try lia.
  fold n in Herr. rewrite !Z.add_0_l in Herr.
  pose proof (sum_between vs 0 (100 * quantum) Hall) as Hsum. fold n in Hsum.
  set (X := foldr Z.add 0 vs) in *.
  rewrite Es, of_Z_small by lia. cbn [div xorb].
  assert (Hs128 : s < n * (128 * quantum)).
  { assert (2 * s <= 2 * (n * (100 * quantum)) + n * ulp_sum) by nia.
    rewrite ES, EQ in *. nia. }
  assert (H128 : 128 * quantum < huge).
  { pose proof (pow2_lt_huge 7 ltac:(lia)) as H7. change (2 ^ 7) with 128 in H7.
    exact H7. }
  assert (O1 : 0 <= s * quantum) by (apply Z.mul_nonneg_nonneg; lia).
  assert (O2 : 0 < n * quantum) by (apply Z.mul_pos_pos; lia).
  assert (O3 : s * quantum <= 128 * quantum * (n * quantum)).
  { replace (128 * quantum * (n * quantum)) with (n * (128 * quantum) * quantum)
      by ring. apply Z.mul_le_mono_nonneg_r; lia. }
  destruct (round_to_bound false (s * quantum) (n * quantum) (128 * quantum)
              O1 O2 O3 (rep_int 128 ltac:(lia)) H128) as (E1 & B1 & R1).
  rewrite E1.
  assert (Ea : rnd_mag (s * quantum) (n * quantum) = rnd_mag s n).
  { rewrite (Z.mul_comm s), (Z.mul_comm n). apply rnd_mag_scale; lia. }
  rewrite Ea in *. set (a := rnd_mag s n) in *.
  pose proof (err_pct s n Hs ltac:(lia) Hs128) as Hea. fold a in Hea.
  destruct (round_digits_bound false a 2 128 ltac:(lia)
              (rep_int 128 ltac:(lia)) H128 ltac:(lia)) as (E2 & _ & _ & _).
  change (10 ^ 2) with 100 in E2.
  exists a. split; [reflexivity|]. split; [exact E2|]. split; [lia|]. lia.
Qed.

(** The second rounding leaves a utilization of two decimals as it is. *)
Lemma round_num_hundredths t u :
  0 <= t <= 10000 -> hundredths t u -> round_num 2 u = u.
Proof.
  intros Ht [ [-> ->] | -> ]; [reflexivity|].
  cbn [round_num]. rewrite round_hundredth by lia. reflexivity.
Qed.

(** The double nearest to [t / 100]. *)
Lemma of_ratio_hundredth t :
  0 <= t <= 10000 ->
  of_ratio t 100 = Ffin false (rnd_mag (t * quantum) 100).
Proof.
  intros Ht. pose proof quantum_pos as HQ.
  rewrite of_ratio_nonneg by lia.
  assert (H128 : 128 * quantum < huge).
  { pose proof (pow2_lt_huge 7 ltac:(lia)) as H7. change (2 ^ 7) with 128 in H7.
    exact H7. }
  destruct (round_to_bound false (t * quantum) 100 (128 * quantum))
    as (E & _); try nia.
  - apply (rep_int 128). lia.
  - exact E.
Qed.

(** What the summary of blocks within their gas limit holds, against the
    exact sum of the utilizations. *)
Lemma nominal_summary_exact blocks :
  blocks <> [] -> Forall nominal blocks -> Py.len blocks <= 2 ^ 32 ->
  exists T high low,
    summarize blocks
    = Ok [("avg_utilization_percent", VNum (NFloat (of_ratio T 100)));
          ("max_utilization_percent", VNum high);
          ("min_utilization_percent", VNum low);
          ("avg_base_fee_gwei",
             VNum (NFloat (round_digits 3
               (div (of_ratio (foldr Z.add 0 (map base_fee_wei blocks))
                       (Py.len blocks))
                    (of_Z 1000000000)))));
          ("total_blocks", VNum (NInt (Py.len blocks)))]
    /\ 0 <= T <= 10000
    /\ - (Py.len blocks * (quantum + 100 * (ulp_sum + ulp_pct)))
       <= 2 * (T * (Py.len blocks * quantum)
               - 100 * total_val (map utilization_percent blocks))
       <= Py.len blocks * (quantum + 100 * (ulp_sum + ulp_pct))
    /\ In high (map utilization_percent blocks)
    /\ In low (map utilization_percent blocks)
    /\ Forall (fun u => Py.le low u = true /\ Py.le u high = true)
         (map utilization_percent blocks).
Proof.
  intros Hne Hall Hlen. pose proof quantum_pos as HQ.
  pose proof ulp_pct_pos as Hp.
  pose proof ulp_pct_quantum as EQ. pose proof ulp_sum_pct as ES.
  assert (Hmax : Py.len blocks <= sys_maxsize) by (unfold sys_maxsize; lia).
  assert (Hn : 1 <= Py.len blocks).
  { unfold Py.len. destruct blocks; [contradiction|cbn [length]; lia]. }
  assert (Es : summarize blocks = Ok (summary_spec blocks)).
  { apply summarize_numbers; [exact Hne| | |exact Hmax].
    - apply Forall_fmap. eapply Forall_impl; [exact Hall|].
      intros b [Hb _]. apply fetched_utilization, Hb.
    - apply Forall_fmap. eapply Forall_impl; [exact Hall|].
      intros b [(Hfee & _) _]. exact Hfee. }
  unfold summary_spec in Es. cbv zeta in Es. unfold total_val.
  remember (map utilization_percent blocks) as utils eqn:Eu.
  assert (Hh : Forall (fun u => exists t, 0 <= t <= 10000 /\ hundredths t u) utils).
  { subst utils. apply Forall_fmap. eapply Forall_impl; [exact Hall|].
    intros b Hb. apply nominal_hundredths, Hb. }
  assert (Hfin : Forall finite_num utils).
  { eapply Forall_impl; [exact Hh|]. intros u (t & Ht & H).
    apply (hundredths_value t u Ht H). }
  assert (Hmap : map as_float utils = map (Ffin false) (map val utils)).
  { clear -Hh. induction Hh as [|u us (t & Ht & H) _ IH]; [reflexivity|].
    cbn [map]. rewrite IH.
    destruct (hundredths_value t u Ht H) as (Ev & Ea & _).
    rewrite Ea, Ev. reflexivity. }
  assert (Hvals : Forall (fun v => 0 <= v <= 100 * quantum) (map val utils)).
  { apply Forall_fmap. eapply Forall_impl; [exact Hh|].
    intros u (t & Ht & H). cbn.
    destruct (hundredths_value t u Ht H) as (Ev & _). rewrite Ev.
    apply hundredth_bounds, Ht. }
  assert (Elen : Py.len utils = Py.len blocks) by (subst utils; apply len_map).
  destruct utils as [|u us].
  { destruct blocks; [contradiction|discriminate Eu]. }
  cbn [hd tl] in Es.
  pose proof (max_elem u us) as Hhi. pose proof (min_elem u us) as Hlo.
  set (hi := Py.max u us) in *. set (lo := Py.min u us) in *.
  rewrite Forall_forall in Hh.
  destruct (Hh hi Hhi) as (thi & Hthi & Hhhi).
  destruct (Hh lo Hlo) as (tlo & Htlo & Hhlo).
  rewrite (round_num_hundredths thi hi Hthi Hhhi) in Es.
  rewrite (round_num_hundredths tlo lo Htlo Hhlo) in Es.
  destruct (mean_near (map val (u :: us))) as (a & Ediv & Er & Ha & Herr).
  { intros H. discriminate H. }
  { rewrite len_map, Elen. exact Hlen. }
  { exact Hvals. }
  rewrite len_map, Elen in Ediv, Herr.
  pose proof (sum_between _ _ _ Hvals) as Hsum. rewrite len_map, Elen in Hsum.
  set (n := Py.len blocks) in *.
  set (X := foldr Z.add 0 (map val (u :: us))) in *.
  assert (Em : fmean (u :: us) = Ffin false a).
  { unfold fmean, fsum. rewrite Hmap, of_Z_0, <- Ediv, Elen. reflexivity. }
  rewrite Em, Er in Es.
  pose proof (rhe_near (a * 100) quantum HQ) as Hnear.
  set (T := rhe (a * 100) quantum) in *.
  assert (Ha100 : 2 * (a * n) <= 2 * (n * (100 * quantum))
                                 + n * (ulp_sum + ulp_pct)) by lia.
  assert (HaQ : 2 * a <= 2 * (100 * quantum) + (ulp_sum + ulp_pct)) by nia.
  assert (HT : 0 <= T <= 10000).
  { split.
    - apply rhe_nonneg; lia.
    - unfold T. rewrite <- (rhe_quarter_up 10000). apply rhe_mono; lia. }
  rewrite <- (of_ratio_hundredth T HT) in Es.
  exists T, hi, lo. split; [exact Es|]. split; [exact HT|].
  split; [|split; [|split] ].
  - assert (H1 : - (n * quantum) <= 2 * (a * 100 * n - T * quantum * n)
                 <= n * quantum) by nia.
    lia.
  - apply list_elem_of_In, Hhi.
  - apply list_elem_of_In, Hlo.
  - apply Forall_forall. intros y Hy.
    assert (Fy : finite_num y) by (rewrite Forall_forall in Hfin; apply Hfin, Hy).
    assert (Fhi : finite_num hi) by (rewrite Forall_forall in Hfin; apply Hfin, Hhi).
    assert (Flo : finite_num lo) by (rewrite Forall_forall in Hfin; apply Hfin, Hlo).
    split.
    + apply le_finite; [exact Flo|exact Fy|]. apply min_le; assumption.
    + apply le_finite; [exact Fy|exact Fhi|]. apply max_ge; assumption.
Qed.

(** C5, as it stands, fails: two blocks that used 22.77 % and 65.42 % of
    their gas limit have the mean utilization 44.095 (the exact mean of
    the two stored doubles lies just above it), which rounds to 44.10;
    the float sum 88.19 is rounded down, its half lies below 44.095, and
    [summarize] reports 44.09. *)
Lemma float_mean_misses_rounded_mean :
  map utilization_percent tie_blocks
  = [NFloat (of_ratio 2277 100); NFloat (of_ratio 6542 100)]
  /\ rounded_mean 2 (map utilization_percent tie_blocks) = 4410
  /\ summarize tie_blocks
     = Ok [("avg_utilization_percent", VNum (NFloat (of_ratio 4409 100)));
           ("max_utilization_percent", VNum (NFloat (of_ratio 6542 100)));
           ("min_utilization_percent", VNum (NFloat (of_ratio 2277 100)));
           ("avg_base_fee_gwei", VNum (NFloat (of_Z 1)));
           ("total_blocks", VNum (NInt 2))]
  /\ Py.lt (NFloat (of_ratio 4409 100)) (NFloat (of_ratio 4410 100)) = true.
Proof.
  split; [vm_compute; reflexivity|]. split; [vm_compute; reflexivity|].
  split; vm_compute; reflexivity.
Qed.

(** C5, amended: for every non-empty sequence of at most [2^32] records
    that fetch built from blocks within their gas limit (256-bit
    quantities), [summarize] returns a summary in which
    - [avg_utilization_percent] is a number [T / 100] of two decimals
      between 0 and 100 that lies within 0.005031 of the exact arithmetic
      mean of the utilizations; it is the exactly rounded mean or one of
      its two neighbours, and it is the exactly rounded mean whenever the
      exact mean is not within 0.000031 of the midpoint of two numbers of
      two decimals;
    - [max_utilization_percent] and [min_utilization_percent] are
      utilizations of the sequence, and no utilization lies above the one
      or below the other;
    - [avg_base_fee_gwei] is [round((S / n) / 1e9, 3)] in floating point,
      for the exact sum [S] of the base fees and the count [n];
    - [total_blocks] is the count. *)
Theorem summarize_mean_is_accurate (blocks : list BlockMetrics) :
  blocks <> [] -> Forall nominal blocks -> Py.len blocks <= 2 ^ 32 ->
  let utils := map utilization_percent blocks in
  let n := Py.len blocks in
  exists T high low,
    summarize blocks
    = Ok [("avg_utilization_percent", VNum (NFloat (of_ratio T 100)));
          ("max_utilization_percent", VNum high);
          ("min_utilization_percent", VNum low);
          ("avg_base_fee_gwei",
             VNum (NFloat (round_digits 3
               (div (of_ratio (foldr Z.add 0 (map base_fee_wei blocks)) n)
                    (of_Z 1000000000)))));
          ("total_blocks", VNum (NInt n))]
    /\ 0 <= T <= 10000
    /\ 1000000 * Z.abs (T * (n * quantum) - 100 * total_val utils)
       <= 503100 * (n * quantum)
    /\ rounded_mean 2 utils - 1 <= T <= rounded_mean 2 utils + 1
    /\ (1000000 * Z.abs (rounded_mean 2 utils * (n * quantum)
                         - 100 * total_val utils)
        < 496900 * (n * quantum) ->
        T = rounded_mean 2 utils)
    /\ In high utils /\ In low utils
    /\ Forall (fun u => Py.le low u = true /\ Py.le u high = true) utils.
Proof.
  intros Hne Hall Hlen. cbv zeta.
  destruct (nominal_summary_exact blocks Hne Hall Hlen)
    as (T & high & low & Es & HT & Hacc & Hhi & Hlo & Hord).
  exists T, high, low. split; [exact Es|]. split; [exact HT|].
  assert (Hn : 1 <= Py.len blocks).
  { unfold Py.len. destruct blocks; [contradiction|cbn [length]; lia]. }
  pose proof quantum_pos as HQ. pose proof ulp_pct_pos as Hp.
  unfold rounded_mean. change (10 ^ 2) with 100. rewrite len_map.
  set (n := Py.len blocks) in *.
  set (X := total_val (map utilization_percent blocks)) in *.
  assert (HD : 0 < n * quantum) by (apply Z.mul_pos_pos; lia).
  pose proof (rhe_near (100 * X) (n * quantum) HD) as HR.
  set (R := rhe (100 * X) (n * quantum)) in *.
  assert (Hb : 1000000 * Z.abs (T * (n * quantum) - 100 * X)
               <= 503100 * (n * quantum)).
  { pose proof ulp_pct_quantum as EQ. pose proof ulp_sum_pct as ES.
    rewrite ES in Hacc. rewrite EQ in Hacc |- *.
    assert (0 <= n * ulp_pct) by nia. lia. }
  split; [exact Hb|].
  set (D := n * quantum) in *.
  assert (Hmul : forall k, T - R = k -> T * D - R * D = k * D)
    by (intros k <-; ring).
  split; [|split; [|split; [exact Hhi|split; [exact Hlo|exact Hord] ] ] ].
  - assert (Hd : - 2 < T - R < 2); [|lia].
    split.
    + destruct (Z_lt_le_dec (- 2) (T - R)) as [H|H]; [exact H|exfalso].
      assert (T * D - R * D <= - 2 * D).
      { rewrite (Hmul (T - R) eq_refl). apply Z.mul_le_mono_nonneg_r; lia. }
      lia.
    + destruct (Z_lt_le_dec (T - R) 2) as [H|H]; [exact H|exfalso].
      assert (2 * D <= T * D - R * D).
      { rewrite (Hmul (T - R) eq_refl). apply Z.mul_le_mono_nonneg_r; lia. }
      lia.
  - intros Hclose.
    assert (Hd : - 1 < T - R < 1); [|lia].
    split.
    + destruct (Z_lt_le_dec (- 1) (T - R)) as [H|H]; [exact H|exfalso].
      assert (T * D - R * D <= - 1 * D).
      { rewrite (Hmul (T - R) eq_refl). apply Z.mul_le_mono_nonneg_r; lia. }
      lia.
    + destruct (Z_lt_le_dec (T - R) 1) as [H|H]; [exact H|exfalso].
      assert (1 * D <= T * D - R * D).
      { rewrite (Hmul (T - R) eq_refl). apply Z.mul_le_mono_nonneg_r; lia. }
      lia.
Qed.

Lemma summarize_mean_is_accurate_witness :
  summarize scenario_blocks
  = Ok [("avg_utilization_percent", VNum (NFloat (of_Z 20)));
        ("max_utilization_percent", VNum (NFloat (of_Z 30)));
        ("min_utilization_percent", VNum (NFloat (of_Z 10)));
        ("avg_base_fee_gwei", VNum (NFloat (of_Z 2)));
        ("total_blocks", VNum (NInt 3))]
  /\ map utilization_percent scenario_blocks
     = [NFloat (of_Z 10); NFloat (of_Z 20); NFloat (of_Z 30)]
  /\ rounded_mean 2 (map utilization_percent scenario_blocks) = 2000
  /\ (let utils := map utilization_percent scenario_blocks in
      let n := Py.len scenario_blocks in
      exists T high low,
        summarize scenario_blocks
        = Ok [("avg_utilization_percent", VNum (NFloat (of_ratio T 100)));
              ("max_utilization_percent", VNum high);
              ("min_utilization_percent", VNum low);
              ("avg_base_fee_gwei",
                 VNum (NFloat (round_digits 3
                   (div (of_ratio
                           (foldr Z.add 0 (map base_fee_wei scenario_blocks))
                           n)
                        (of_Z 1000000000)))));
              ("total_blocks", VNum (NInt n))]
        /\ 0 <= T <= 10000
        /\ 1000000 * Z.abs (T * (n * quantum) - 100 * total_val utils)
           <= 503100 * (n * quantum)
        /\ rounded_mean 2 utils - 1 <= T <= rounded_mean 2 utils + 1
        /\ (1000000 * Z.abs (rounded_mean 2 utils * (n * quantum)
                             - 100 * total_val utils)
            < 496900 * (n * quantum) ->
            T = rounded_mean 2 utils)
        /\ In high utils /\ In low utils
        /\ Forall (fun u => Py.le low u = true /\ Py.le u high = true) utils).
Proof.
  split; [vm_compute; reflexivity|].
  split; [vm_compute; reflexivity|].
  split; [vm_compute; reflexivity|].
  apply (summarize_mean_is_accurate scenario_blocks).
  - intros H. discriminate H.
  - exact scenario_blocks_nominal.
  - unfold Py.len, scenario_blocks. cbn [length]. lia.
Defined.

(** ** Runs of the analyzer on any node *)

Section AnalyzerFacts.

Context {W : Type} (w3 : Web3 W).

(** The loop on blocks that the node yields. *)
Lemma analyze_loop_yields (P : W -> Prop) (Q : BlockMetrics -> Prop)
    latest cnt todo :
  (forall i, i ∈ todo -> latest - cnt + 1 <= i <= latest /\ yields w3 P Q i) ->
  forall blocks w log, P w ->
  exists bs w',
    analyze_loop w3 latest cnt todo blocks (w, log)
    = (Ok (blocks ++ bs),
       (w', log ++ concat (map (turn_events latest cnt) todo)))
    /\ P w' /\ Forall Q bs /\ length bs = length todo.
Proof.
  induction todo as [|i rest IH]; intros Hall blocks w log HP.
  - exists [], w. cbn. rewrite !app_nil_r. auto.
  - destruct (Hall i ltac:(left)) as [Hi Hs].
    destruct (Hs w HP) as (b & w1 & bm & Eg & HP1 & Em & HQ).
    cbn [analyze_loop]. unfold bind at 1.
    rewrite analyze_step_run by assumption. rewrite Eg. cbn [fst snd rbind].
    rewrite Em.
    destruct (IH (fun j Hj => Hall j (list_elem_of_further _ _ _ Hj))
                (blocks ++ [bm]) w1 (log ++ turn_events latest cnt i) HP1)
      as (bs & w' & E & HP' & HQs & Hlen).
    exists (bm :: bs), w'. rewrite E. split; [|split; [assumption|split]].
    + rewrite <- !app_assoc. reflexivity.
    + constructor; assumption.
    + cbn [length]. rewrite Hlen. reflexivity.
Qed.

(** The loop ends at the first block that the node refuses. *)
Lemma analyze_loop_stops (P : W -> Prop) latest cnt pre j post e :
  (forall i, i ∈ pre ->
     latest - cnt + 1 <= i <= latest /\ yields w3 P (fun _ => True) i) ->
  latest - cnt + 1 <= j <= latest -> refuses w3 P j e ->
  forall blocks w log, P w ->
  exists w',
    analyze_loop w3 latest cnt (pre ++ j :: post) blocks (w, log)
    = (Raise e,
       (w', log ++ concat (map (turn_events latest cnt) (pre ++ [j])))).
Proof.
  intros Hpre Hj Hr. induction pre as [|i pre IH]; intros blocks w log HP.
  - cbn [app analyze_loop]. unfold bind at 1.
    rewrite analyze_step_run by assumption. rewrite (Hr w HP).
    eexists. cbn [map concat]. rewrite app_nil_r. reflexivity.
  - destruct (Hpre i ltac:(left)) as [Hi Hs].
    destruct (Hs w HP) as (b & w1 & bm & Eg & HP1 & Em & _).
    cbn [app analyze_loop]. unfold bind at 1.
    rewrite analyze_step_run by assumption. rewrite Eg. cbn [fst snd rbind].
    rewrite Em.
    destruct (IH (fun k Hk => Hpre k (list_elem_of_further _ _ _ Hk))
                (blocks ++ [bm]) w1 (log ++ turn_events latest cnt i) HP1)
      as (w' & E).
    exists w'. rewrite E. cbn [map concat]. rewrite <- !app_assoc. reflexivity.
Qed.

(** The loop on any node: the turns taken are a prefix of the turns to
    take, and all of them when the loop returns. *)
Lemma analyze_loop_trace latest cnt todo :
  (forall i, i ∈ todo -> latest - cnt + 1 <= i <= latest) ->
  forall blocks w log,
  exists r w' done,
    analyze_loop w3 latest cnt todo blocks (w, log)
    = (r, (w', log ++ concat (map (turn_events latest cnt) done)))
    /\ done `prefix_of` todo
    /\ (forall bs, r = Ok bs ->
          done = todo /\ length bs = (length blocks + length todo)%nat).
Proof.
  induction todo as [|i todo IH]; intros Hall blocks w log.
  - exists (Ok blocks), w, []. cbn [analyze_loop ret map concat].
    rewrite app_nil_r. split; [reflexivity|]. split; [reflexivity|].
    intros bs [= <-]. split; [reflexivity|]. cbn [length]. lia.
  - cbn [analyze_loop]. unfold bind at 1.
    rewrite analyze_step_run by (apply Hall; left).
    destruct (eth_get_block w3 (BlockNum i) w) as [[b|e] w1]; cbn [fst snd rbind].
    + destruct (metrics_of_block b) as [bm|e].
      * destruct (IH (fun j Hj => Hall j (list_elem_of_further _ _ _ Hj))
                    (blocks ++ [bm]) w1 (log ++ turn_events latest cnt i))
          as (r & w' & done & E & Hp & Hok).
        exists r, w', (i :: done). rewrite E. cbn [map concat].
        rewrite <- !app_assoc. split; [reflexivity|].
        split; [apply prefix_cons, Hp|].
        intros bs Hbs. destruct (Hok bs Hbs) as [-> Hl].
        split; [reflexivity|]. rewrite Hl, length_app. cbn [length]. lia.
      * exists (Raise e), w1, [i]. cbn [map concat]. rewrite app_nil_r.
        split; [reflexivity|]. split; [apply prefix_cons, prefix_nil|].
        intros bs Hbs. discriminate Hbs.
    + exists (Raise e), w1, [i]. cbn [map concat]. rewrite app_nil_r.
      split; [reflexivity|]. split; [apply prefix_cons, prefix_nil|].
      intros bs Hbs. discriminate Hbs.
Qed.

End AnalyzerFacts.

Lemma prefix_seqZ (done : list Z) : forall lo c,
  done `prefix_of` seqZ lo c ->
  done = seqZ lo (Py.len done) /\ Py.len done <= Z.max 0 c.
Proof.
  unfold Py.len.
  induction done as [|x done IH]; intros lo c [rest E].
  - split; [reflexivity|]. cbn [length]. lia.
  - destruct (Z_lt_le_dec 0 c) as [Hc|Hc].
    + rewrite seqZ_cons in E by assumption. cbn [app] in E.
      injection E as <- E.
      destruct (IH (Z.succ lo) (Z.pred c) (ex_intro _ rest E)) as [Ed Hl].
      cbn [length]. rewrite Nat2Z.inj_succ. split; [|lia].
      rewrite seqZ_cons by lia. rewrite Z.pred_succ. f_equal. exact Ed.
    + rewrite seqZ_nil in E by lia. discriminate E.
Qed.

(** X1: the analyzer on any node, whatever it answers: the head is read once;
    then come, for the first [n] blocks of the range in ascending order,
    a progress line followed by the request for that block, and nothing
    else; an analysis that returns has gone through the whole range and
    holds one record for each of its [max(count, 0)] blocks. *)
Theorem analyze_trace_is_a_prefix_of_the_range {W} (w3 : Web3 W)
    (cnt : Z) (w : W) (log : list event) :
  match eth_block_number w3 w with
  | (Raise e, w1) =>
      analyze_blocks w3 cnt (w, log) = (Raise e, (w1, log ++ [EvBlockNumber]))
  | (Ok latest, w1) =>
      exists r w' n,
        0 <= n <= Z.max 0 cnt
        /\ analyze_blocks w3 cnt (w, log)
           = (r, (w', log ++ EvBlockNumber ::
                   concat (map (turn_events latest cnt)
                             (seqZ (latest - cnt + 1) n))))
        /\ (forall blocks, r = Ok blocks ->
              n = Z.max 0 cnt /\ Py.len blocks = n)
  end.
Proof.
  rewrite analyze_blocks_run.
  destruct (eth_block_number w3 w) as [[latest|e] w1]; [|reflexivity].
  destruct (analyze_loop_trace w3 latest cnt (seqZ (latest - cnt + 1) cnt))
    with (blocks := @nil BlockMetrics) (w := w1) (log := log ++ [EvBlockNumber])
    as (r & w' & done & E & Hp & Hok).
  { intros i Hi. apply elem_of_seqZ in Hi. lia. }
  destruct (prefix_seqZ done _ _ Hp) as [Ed Hl].
  exists r, w', (Py.len done). split; [unfold Py.len in *; lia|]. split.
  - rewrite E, <- Ed, <- app_assoc. reflexivity.
  - intros blocks Hr. destruct (Hok blocks Hr) as [-> Hlen].
    unfold Py.len. rewrite Hlen, length_seqZ. cbn [length]. lia.
Qed.

(** X2: an analysis ends at the first block of the range that the node
    refuses: the exception of that block is the result, the records of
    the blocks before it are dropped, and no later block is asked for. *)
Theorem analyze_stops_at_first_failure {W} (w3 : Web3 W) (P : W -> Prop)
    (cnt latest k : Z) (e : exn) (w w1 : W) (log : list event) :
  1 <= k <= cnt ->
  eth_block_number w3 w = (Ok latest, w1) -> P w1 ->
  (forall p, 1 <= p < k -> yields w3 P (fun _ => True) (latest - cnt + p)) ->
  refuses w3 P (latest - cnt + k) e ->
  exists w',
    analyze_blocks w3 cnt (w, log)
    = (Raise e,
       (w', log ++ EvBlockNumber ::
              concat (map (turn_events latest cnt)
                        (seqZ (latest - cnt + 1) k)))).
Proof.
  intros Hk Hhead HP Hpre Hr. rewrite analyze_blocks_run, Hhead.
  set (lo := latest - cnt + 1).
  assert (Esplit : seqZ lo cnt
                   = seqZ lo (k - 1) ++ (lo + (k - 1)) :: seqZ (lo + k) (cnt - k)).
  { replace cnt with ((k - 1) + (cnt - k + 1)) at 1 by lia.
    rewrite seqZ_app by lia. f_equal. rewrite seqZ_cons by lia.
    f_equal. f_equal; lia. }
  assert (Edone : seqZ lo k = seqZ lo (k - 1) ++ [lo + (k - 1)]).
  { replace k with ((k - 1) + 1) at 1 by lia.
    rewrite seqZ_app by lia. reflexivity. }
  rewrite Esplit, Edone.
  destruct (analyze_loop_stops w3 P latest cnt (seqZ lo (k - 1)) (lo + (k - 1))
              (seqZ (lo + k) (cnt - k)) e)
    with (blocks := @nil BlockMetrics) (w := w1) (log := log ++ [EvBlockNumber])
    as (w' & E).
  - intros i Hi. apply elem_of_seqZ in Hi. split; [unfold lo in *; lia|].
    replace i with (latest - cnt + (i - (latest - cnt))) by lia.
    apply Hpre. unfold lo in Hi. lia.
  - unfold lo. lia.
  - replace (lo + (k - 1)) with (latest - cnt + k) by (unfold lo; lia).
    exact Hr.
  - exact HP.
  - exists w'. rewrite E, <- app_assoc. reflexivity.
Qed.

Lemma analyze_stops_at_first_failure_witness :
  exists w',
    analyze_blocks lagging_node 2 (tt, [])
    = (Raise (RemoteError "BlockNotFound"),
       (w', [] ++ EvBlockNumber ::
              concat (map (turn_events 1000 2) (seqZ (1000 - 2 + 1) 2)))).
Proof.
  apply (analyze_stops_at_first_failure lagging_node (fun _ => True) 2 1000 2
           (RemoteError "BlockNotFound") tt tt []).
  - lia.
  - reflexivity.
  - exact I.
  - intros p Hp w _. assert (p = 1) as -> by lia. destruct w.
    eexists _, tt, _. split; [reflexivity|]. split; [exact I|].
    split; [vm_compute; reflexivity|exact I].
  - intros w _. destruct w. reflexivity.
Defined.

(** ** The runs of [main] *)

Section MainFacts.

Context {W : Type} (w3 : Web3 W).

(** [main] on a node that answers the connection test: the banner, the
    analysis and the summary inside the [try] block, then the report. *)
Lemma main_run args w w1 log :
  has_http_scheme (rpc args) = true ->
  is_connected w3 w = (Ok true, w1) ->
  main w3 args (w, log)
  = match analyze_blocks w3 (count args) (w1, log ++ banner_events args) with
    | (Raise e, (w', l)) => (Exit 2, (w', l ++ [EvPrintError e]))
    | (Ok blocks, (w', l)) =>
        match summarize blocks with
        | Raise e => (Exit 2, (w', l ++ [EvPrintError e]))
        | Ok summary =>
            match report args blocks summary (w', l) with
            | (Raise e, s4) => (Uncaught e, s4)
            | (Ok _, s4) => (Exit 0, s4)
            end
        end
    end.
Proof.
  intros Hurl Hconn. unfold main. unfold has_http_scheme in Hurl.
  rewrite Hurl. cbn [negb].
  unfold call_is_connected. rewrite Hconn.
  unfold print, emit, bind. cbv beta iota.
  replace (((((log ++ [EvIsConnected]) ++ [EvPrint "🔧 zk-gas-soundness"]) ++
             [EvPrint ("🔗 RPC: " +:+ rpc args)]) ++
             [EvPrint ("🧱 Blocks to analyze: " +:+ Py.str_int (count args))]) ++
             [EvPrintClock])
    with (log ++ banner_events args)
    by (unfold banner_events; rewrite <- !app_assoc; reflexivity).
  destruct (analyze_blocks w3 (count args) (w1, log ++ banner_events args))
    as [ [blocks | e] [w' l] ].
  - unfold lift, ret. destruct (summarize blocks) as [summary | e]; reflexivity.
  - reflexivity.
Qed.

(** The report on the dict of a non-empty analysis. *)
Lemma report_run args blocks avg high low fee w log :
  report (W := W) args blocks
    [("avg_utilization_percent", VNum avg);
     ("max_utilization_percent", VNum high);
     ("min_utilization_percent", VNum low);
     ("avg_base_fee_gwei", VNum fee);
     ("total_blocks", VNum (NInt (Py.len blocks)))] (w, log)
  = (Ok tt, (w, log ++ summary_events args blocks avg high low fee)).
Proof.
  unfold report, summary_events, summary_fields.
  cbn [print_fields]. unfold print, emit, bind, lift, ret.
  cbn [Py.getitem List.find fst snd String.eqb Ascii.eqb Bool.eqb].
  cbv beta iota.
  destruct (json args); rewrite <- !app_assoc; reflexivity.
Qed.

(** The report on the sentinel: the first read of the dict fails. *)
Lemma report_no_data args blocks w log :
  report (W := W) args blocks no_data (w, log)
  = (Raise (KeyError "avg_utilization_percent"),
     (w, log ++ [EvPrint (String (Ascii.ascii_of_nat 10) "📊 Summary:")])).
Proof.
  unfold report, summary_fields, no_data.
  cbn [print_fields]. unfold print, emit, bind, lift, ret.
  cbn [Py.getitem List.find fst snd String.eqb Ascii.eqb Bool.eqb].
  cbv beta iota. reflexivity.
Qed.

(** An analysis that returns holds [max(count, 0)] records. *)
Lemma analyze_blocks_length cnt s blocks s' :
  analyze_blocks w3 cnt s = (Ok blocks, s') -> Py.len blocks = Z.max 0 cnt.
Proof.
  destruct s as [w log]. rewrite analyze_blocks_run.
  destruct (eth_block_number w3 w) as [ [latest | e] w1]; [|intros H; discriminate H].
  destruct (analyze_loop_trace w3 latest cnt (seqZ (latest - cnt + 1) cnt))
    with (blocks := @nil BlockMetrics) (w := w1) (log := log ++ [EvBlockNumber])
    as (r & w' & done & E & _ & Hok).
  { intros i Hi. apply elem_of_seqZ in Hi. lia. }
  rewrite E. intros [= -> _]. destruct (Hok blocks eq_refl) as [_ Hlen].
  unfold Py.len. rewrite Hlen, length_seqZ. cbn [length]. lia.
Qed.

(** [main] on a URL without http scheme, and on a node that fails the
    connection test. *)
Lemma main_refused args w log :
  has_http_scheme (rpc args) = false ->
  main w3 args (w, log)
  = (Exit 1, (w, log ++ [EvPrint "❌ Invalid RPC URL format."])).
Proof.
  intros Hurl. unfold main. unfold has_http_scheme in Hurl. rewrite Hurl.
  reflexivity.
Qed.

Lemma main_offline args w w1 log :
  has_http_scheme (rpc args) = true ->
  is_connected w3 w = (Ok false, w1) ->
  main w3 args (w, log)
  = (Exit 1,
     (w1, log ++ [EvIsConnected;
                  EvPrint "❌ RPC connection failed. Check RPC_URL."])).
Proof.
  intros Hurl Hconn. unfold main. unfold has_http_scheme in Hurl.
  rewrite Hurl. cbn [negb]. unfold call_is_connected. rewrite Hconn.
  unfold print, emit. rewrite <- app_assoc. reflexivity.
Qed.

(** [main] when the connection test raises: nothing catches it. *)
Lemma main_unreachable args w w1 e log :
  has_http_scheme (rpc args) = true ->
  is_connected w3 w = (Raise e, w1) ->
  main w3 args (w, log) = (Uncaught e, (w1, log ++ [EvIsConnected])).
Proof.
  intros Hurl Hconn. unfold main. unfold has_http_scheme in Hurl.
  rewrite Hurl. cbn [negb]. unfold call_is_connected. rewrite Hconn.
  reflexivity.
Qed.

End MainFacts.

(** The dict that [summarize] returns for a non-empty list. *)
Lemma summarize_shape blocks summary :
  blocks <> [] -> summarize blocks = Ok summary ->
  exists avg high low fee,
    summary = [("avg_utilization_percent", VNum avg);
               ("max_utilization_percent", VNum high);
               ("min_utilization_percent", VNum low);
               ("avg_base_fee_gwei", VNum fee);
               ("total_blocks", VNum (NInt (Py.len blocks)))].
Proof.
  intros Hne. unfold summarize.
  destruct (map utilization_percent blocks) as [|u us] eqn:Eu.
  { destruct blocks; [contradiction|discriminate Eu]. }
  cbv zeta.
  destruct (Py.sum (u :: us)) as [total|e]; cbn [rbind]; [|intros H; discriminate H].
  destruct (Py.truediv total _) as [a|e]; cbn [rbind]; [|intros H; discriminate H].
  destruct (Py.sum _) as [fees|e]; cbn [rbind]; [|intros H; discriminate H].
  destruct (Py.truediv fees _) as [f|e]; cbn [rbind]; [|intros H; discriminate H].
  destruct (Py.round a 2) as [ra|e]; cbn [rbind]; [|intros H; discriminate H].
  destruct (Py.round (Py.max u us) 2) as [rh|e]; cbn [rbind];
    [|intros H; discriminate H].
  destruct (Py.round (Py.min u us) 2) as [rl|e]; cbn [rbind];
    [|intros H; discriminate H].
  destruct (Py.truediv f _) as [g|e]; cbn [rbind]; [|intros H; discriminate H].
  destruct (Py.round g 3) as [rg|e]; cbn [rbind]; [|intros H; discriminate H].
  intros [= <-]. exists ra, rh, rl, rg. reflexivity.
Qed.

(** X3: [main] gives up with status 1 before the banner when the URL has no
    http scheme (the node is not contacted at all) or when the connection
    test fails (nothing else is asked of the node); and with status 2,
    after printing the error and without any summary line, when the
    analysis raises. *)
Theorem main_reports_failure {W} (w3 : Web3 W) (args : Args) (w : W)
    (log : list event) :
  (has_http_scheme (rpc args) = false ->
     main w3 args (w, log)
     = (Exit 1, (w, log ++ [EvPrint "❌ Invalid RPC URL format."])))
  /\ (has_http_scheme (rpc args) = true ->
      forall w1, is_connected w3 w = (Ok false, w1) ->
        main w3 args (w, log)
        = (Exit 1,
           (w1, log ++ [EvIsConnected;
                        EvPrint "❌ RPC connection failed. Check RPC_URL."])))
  /\ (has_http_scheme (rpc args) = true ->
      forall w1 e w' l, is_connected w3 w = (Ok true, w1) ->
        analyze_blocks w3 (count args) (w1, log ++ banner_events args)
        = (Raise e, (w', l)) ->
        main w3 args (w, log) = (Exit 2, (w', l ++ [EvPrintError e]))).
Proof.
  split; [|split].
  - apply main_refused.
  - intros Hurl w1 Hconn. apply main_offline; assumption.
  - intros Hurl w1 e w' l Hconn Hrun.
    rewrite (main_run w3 args w w1 log Hurl Hconn), Hrun. reflexivity.
Qed.

Lemma main_reports_failure_witness :
  main steady_node
    {| rpc := "ws://node.example"; count := 3; json := false; timeout := 30 |}
    (1000, [])
  = (Exit 1, (1000, [] ++ [EvPrint "❌ Invalid RPC URL format."]))
  /\ main offline_node
       {| rpc := "https://node.example"; count := 3; json := false;
          timeout := 30 |} (tt, [])
     = (Exit 1,
        (tt, [] ++ [EvIsConnected;
                    EvPrint "❌ RPC connection failed. Check RPC_URL."]))
  /\ fst (main stalled_node
            {| rpc := "http://localhost:8545"; count := 1; json := true;
               timeout := 30 |} (tt, []))
     = Exit 2.
Proof.
  split; [|split].
  - apply (main_reports_failure steady_node). reflexivity.
  - apply (main_reports_failure offline_node); reflexivity.
  - destruct (main_reports_failure stalled_node
                {| rpc := "http://localhost:8545"; count := 1; json := true;
                   timeout := 30 |} tt []) as (_ & _ & H).
    rewrite (H eq_refl tt (RemoteError "timeout") tt
               (([] ++ banner_events
                    {| rpc := "http://localhost:8545"; count := 1;
                       json := true; timeout := 30 |}) ++
                [EvBlockNumber;
                 EvPrint "🔍 Analyzing block 5 (1/1, 100.0% complete)...";
                 EvGetBlock (BlockNum 5)]) eq_refl).
    + reflexivity.
    + vm_compute. reflexivity.
Defined.

(** X4: once [parse_args] has returned the arguments, every run of [main]
    ends in one of five ways: status 0, and then the URL was accepted, the
    connection test answered [True] and [count >= 1]; status 1, and then
    the URL was refused or the connection test answered [False]; status 2,
    and then the analysis or the summary raised; the uncaught [KeyError]
    of the first summary line, and then [count <= 0]; or the exception
    that the connection test raised, uncaught, since lines 74-75 stand
    outside the [try]. *)
Theorem main_ends_in_one_of_five_ways {W} (w3 : Web3 W) (args : Args) (w : W)
    (log : list event) :
  let o := fst (main w3 args (w, log)) in
  let accepted := has_http_scheme (rpc args) in
  let connected := fst (is_connected w3 w) in
  (o = Exit 0 /\ accepted = true /\ connected = Ok true /\ 1 <= count args)
  \/ (o = Exit 1
      /\ (accepted = false \/ accepted = true /\ connected = Ok false))
  \/ (o = Exit 2 /\ accepted = true /\ connected = Ok true
      /\ exists e w1,
           is_connected w3 w = (Ok true, w1)
           /\ (fst (analyze_blocks w3 (count args)
                      (w1, log ++ banner_events args)) = Raise e
               \/ exists blocks,
                    fst (analyze_blocks w3 (count args)
                           (w1, log ++ banner_events args)) = Ok blocks
                    /\ summarize blocks = Raise e))
  \/ (o = Uncaught (KeyError "avg_utilization_percent")
      /\ accepted = true /\ connected = Ok true /\ count args <= 0)
  \/ (exists e, o = Uncaught e /\ accepted = true /\ connected = Raise e).
Proof.
  cbv zeta.
  destruct (has_http_scheme (rpc args)) eqn:Hurl.
  - destruct (is_connected w3 w) as [ [c | e] w1] eqn:Hconn; cbn [fst].
    + destruct c.
      * rewrite (main_run w3 args w w1 log Hurl Hconn).
        destruct (analyze_blocks w3 (count args)
                    (w1, log ++ banner_events args))
          as [ [blocks | e] [w' l] ] eqn:Hrun.
        -- pose proof (analyze_blocks_length _ _ _ _ _ Hrun) as Hlen.
           destruct (summarize blocks) as [summary | e] eqn:Hsum.
           ++ destruct blocks as [|b blocks].
              ** injection Hsum as <-. rewrite report_no_data. cbn [fst].
                 right. right. right. left.
                 unfold Py.len in Hlen. cbn [length] in Hlen.
                 split; [reflexivity|]. split; [reflexivity|].
                 split; [reflexivity|lia].
              ** destruct (summarize_shape (b :: blocks) summary) as
                   (avg & high & low & fee & ->);
                   [intros H; discriminate H|exact Hsum|].
                 rewrite report_run. cbn [fst]. left.
                 split; [reflexivity|]. split; [reflexivity|].
                 split; [reflexivity|].
                 unfold Py.len in Hlen. cbn [length] in Hlen. lia.
           ++ cbn [fst]. right. right. left.
              split; [reflexivity|]. split; [reflexivity|].
              split; [reflexivity|].
              exists e, w1. split; [reflexivity|]. right. exists blocks.
              rewrite Hrun. split; [reflexivity|exact Hsum].
        -- cbn [fst]. right. right. left.
           split; [reflexivity|]. split; [reflexivity|].
           split; [reflexivity|].
           exists e, w1. split; [reflexivity|]. left. rewrite Hrun.
           reflexivity.
      * rewrite (main_offline w3 args w w1 log Hurl Hconn). cbn [fst].
        right. left. auto.
    + rewrite (main_unreachable w3 args w w1 e log Hurl Hconn). cbn [fst].
      right. right. right. right. exists e. auto.
  - rewrite (main_refused w3 args w log Hurl). cbn [fst]. right. left. auto.
Qed.

Lemma steady_node_yields_tail i :
  998 <= i <= 1000 -> yields steady_node (fun w => w = 1000) fetched i.
Proof.
  intros Hi w ->.
  assert (Hc : i = 998 \/ i = 999 \/ i = 1000) by lia.
  destruct Hc as [-> | [-> | ->] ];
    (eexists _, 1000, _; split; [reflexivity|]; split; [reflexivity|];
     split; [vm_compute; reflexivity|];
     unfold fetched, uint256;
     cbn [base_fee_wei gas_limit gas_used utilization_percent];
     split; [lia|]; split; [lia|]; split; [lia|]; vm_compute; reflexivity).
Defined.

(** X5: a complete run: when the URL is accepted, the node answers the
    connection test and yields every block of the range with 256-bit
    quantities, the analysis of this run returns [count] records after the
    head read, one progress line and one request per block, and [main]
    ends with status 0 after the banner, these events, the five lines of
    the summary of the records that the analysis returned and the elapsed
    time; the JSON document with these records and this summary follows
    exactly when [--json] was given. *)
Theorem main_reports_summary_of_range {W} (w3 : Web3 W) (P : W -> Prop)
    (args : Args) (latest : Z) (w w1 w2 : W) (log : list event) :
  has_http_scheme (rpc args) = true ->
  is_connected w3 w = (Ok true, w1) ->
  eth_block_number w3 w1 = (Ok latest, w2) -> P w2 ->
  1 <= count args <= sys_maxsize ->
  (forall i, latest - count args + 1 <= i <= latest ->
     yields w3 P fetched i) ->
  exists blocks w' avg high low fee,
    analyze_blocks w3 (count args) (w1, log ++ banner_events args)
    = (Ok blocks,
       (w', log ++ banner_events args ++
            EvBlockNumber ::
            concat (map (turn_events latest (count args))
                      (seqZ (latest - count args + 1) (count args)))))
    /\ Py.len blocks = count args
    /\ Forall fetched blocks
    /\ summarize blocks
       = Ok [("avg_utilization_percent", VNum avg);
             ("max_utilization_percent", VNum high);
             ("min_utilization_percent", VNum low);
             ("avg_base_fee_gwei", VNum fee);
             ("total_blocks", VNum (NInt (count args)))]
    /\ main w3 args (w, log)
       = (Exit 0,
          (w', log ++ banner_events args ++
               EvBlockNumber ::
               concat (map (turn_events latest (count args))
                         (seqZ (latest - count args + 1) (count args))) ++
               summary_events args blocks avg high low fee)).
Proof.
  intros Hurl Hconn Hhead HP Hcnt Hyield.
  destruct (analyze_loop_yields w3 P fetched latest (count args)
              (seqZ (latest - count args + 1) (count args)))
    with (blocks := @nil BlockMetrics) (w := w2)
         (log := (log ++ banner_events args) ++ [EvBlockNumber])
    as (bs & w' & E & _ & Hall & Hlen).
  { intros i Hi. apply elem_of_seqZ in Hi. split; [lia|apply Hyield; lia]. }
  { exact HP. }
  cbn [app] in E.
  assert (Hrun : analyze_blocks w3 (count args) (w1, log ++ banner_events args)
                 = (Ok bs,
                    (w', log ++ banner_events args ++
                         EvBlockNumber ::
                         concat (map (turn_events latest (count args))
                                   (seqZ (latest - count args + 1)
                                      (count args)))))).
  { rewrite analyze_blocks_run, Hhead, E. rewrite <- !app_assoc. reflexivity. }
  rewrite (main_run w3 args w w1 log Hurl Hconn), Hrun.
  assert (Hn : Py.len bs = count args).
  { unfold Py.len. rewrite Hlen, length_seqZ. lia. }
  assert (Hne : bs <> []).
  { intros ->. unfold Py.len in Hn. cbn [length] in Hn. lia. }
  assert (Es : summarize bs = Ok (summary_spec bs)).
  { apply summarize_numbers; [exact Hne| | |lia].
    - apply Forall_fmap. eapply Forall_impl; [exact Hall|].
      intros b Hb. apply fetched_utilization, Hb.
    - apply Forall_fmap. eapply Forall_impl; [exact Hall|].
      intros b (Hfee & _). exact Hfee. }
  rewrite Es. unfold summary_spec in *. cbv zeta in *. rewrite report_run.
  eexists bs, w', _, _, _, _. split; [reflexivity|].
  split; [exact Hn|]. split; [exact Hall|].
  split; [rewrite Es, <- Hn; reflexivity|].
  rewrite <- !app_assoc. reflexivity.
Qed.

Lemma main_reports_summary_of_range_witness :
  exists blocks w' avg high low fee,
    analyze_blocks steady_node 3
      (1000, [] ++ banner_events
                 {| rpc := "https://node.example"; count := 3; json := true;
                    timeout := 30 |})
    = (Ok blocks,
       (w', [] ++ banner_events
              {| rpc := "https://node.example"; count := 3; json := true;
                 timeout := 30 |} ++
            EvBlockNumber ::
            concat (map (turn_events 1000 3) (seqZ (1000 - 3 + 1) 3))))
    /\ Py.len blocks = 3
    /\ Forall fetched blocks
    /\ summarize blocks
       = Ok [("avg_utilization_percent", VNum avg);
             ("max_utilization_percent", VNum high);
             ("min_utilization_percent", VNum low);
             ("avg_base_fee_gwei", VNum fee);
             ("total_blocks", VNum (NInt 3))]
    /\ main steady_node
         {| rpc := "https://node.example"; count := 3; json := true;
            timeout := 30 |} (1000, [])
       = (Exit 0,
          (w', [] ++ banner_events
                 {| rpc := "https://node.example"; count := 3; json := true;
                    timeout := 30 |} ++
               EvBlockNumber ::
               concat (map (turn_events 1000 3) (seqZ (1000 - 3 + 1) 3)) ++
               summary_events
                 {| rpc := "https://node.example"; count := 3; json := true;
                    timeout := 30 |} blocks avg high low fee)).
Proof.
  apply (main_reports_summary_of_range steady_node (fun w => w = 1000)
           {| rpc := "https://node.example"; count := 3; json := true;
              timeout := 30 |} 1000 1000 1000 1000 []).
  - reflexivity.
  - reflexivity.
  - reflexivity.
  - reflexivity.
  - unfold sys_maxsize. cbn [count]. lia.
  - cbn [count]. intros i Hi. apply steady_node_yields_tail. lia.
Defined.

(** ** Utilization and progress as functions of their arguments *)

Lemma utilization_value gu gl k :
  0 <= gu <= k * gl -> 0 < gl ->
  rep (k * quantum) -> rep (100 * k * quantum) -> 100 * k * quantum < huge ->
  utilization gu gl = Ok (NFloat (Ffin false (utilization_mag gu gl))).
Proof.
  intros Hgu Hgl Hr1 Hr2 Hh. pose proof quantum_pos as HQ.
  assert (Hk : 0 <= k) by nia.
  unfold utilization, Py.int_truediv, utilization_mag.
  destruct (Z.eqb_spec gl 0) as [|_]; [lia|].
  rewrite of_ratio_nonneg by lia.
  destruct (round_to_bound false (gu * quantum) gl (k * quantum))
    as (E1 & B1 & R1); try assumption; try nia.
  rewrite E1. cbn [rbind]. rewrite mul_100, of_Z_100. cbn [rbind].
  unfold mul. cbn [xorb]. cbv zeta.
  remember (rnd_mag (gu * quantum) gl) as m1 eqn:Em1.
  destruct (round_to_bound false (m1 * (100 * quantum)) quantum (100 * k * quantum))
    as (E2 & B2 & R2); try assumption; try nia.
  rewrite E2.
  remember (rnd_mag (m1 * (100 * quantum)) quantum) as m2 eqn:Em2.
  destruct (round_digits_bound false m2 2 (100 * k)) as (E3 & T3 & B3 & R3);
    try assumption; try lia.
  rewrite round_valid by (try assumption; lia).
  rewrite E3. change (10 ^ 2) with 100. reflexivity.
Qed.

Lemma utilization_value_uint256 gu gl :
  uint256 gu -> uint256 gl -> 0 < gl ->
  utilization gu gl = Ok (NFloat (Ffin false (utilization_mag gu gl))).
Proof.
  intros [Hu1 Hu2] [Hl1 Hl2] Hgl.
  assert (E100 : 100 * 2 ^ 256 * quantum = 25 * 2 ^ (258 + 1074)).
  { rewrite quantum_eq, Z.pow_add_r by lia.
    change (2 ^ 258) with (4 * 2 ^ 256). ring. }
  apply (utilization_value gu gl (2 ^ 256)); try nia.
  - apply rep_pow2. lia.
  - rewrite E100. apply rep_shift; lia.
  - pose proof (pow2_lt_huge 263 ltac:(lia)). pose proof quantum_pos.
    change (2 ^ 263) with (128 * 2 ^ 256) in *. lia.
Qed.

Lemma utilization_mag_nonneg gu gl :
  0 <= gu -> 0 < gl -> 0 <= utilization_mag gu gl.
Proof.
  intros Hgu Hgl. pose proof quantum_pos as HQ. unfold utilization_mag.
  cbv zeta. apply rnd_mag_nonneg; [|lia].
  apply Z.mul_nonneg_nonneg; [|lia]. apply rhe_nonneg; [|lia].
  apply Z.mul_nonneg_nonneg; [|lia]. apply rnd_mag_nonneg; [|lia].
  apply Z.mul_nonneg_nonneg; [|lia]. apply rnd_mag_nonneg; [nia|lia].
Qed.

(** More gas used, or a lower limit, never gives a lower utilization:
    each of the roundings is monotone. *)
Lemma utilization_mag_mono gu gu' gl gl' :
  0 <= gu <= gu' -> 0 < gl' <= gl ->
  utilization_mag gu gl <= utilization_mag gu' gl'.
Proof.
  intros Hgu Hgl. pose proof quantum_pos as HQ. unfold utilization_mag.
  cbv zeta.
  assert (H0 : 0 <= rnd_mag (gu * quantum) gl)
    by (apply rnd_mag_nonneg; [nia|lia]).
  assert (H1 : rnd_mag (gu * quantum) gl <= rnd_mag (gu' * quantum) gl').
  { apply rnd_mag_mono; [nia|lia|lia|].
    apply Z.le_trans with (gu * quantum * gl).
    - apply Z.mul_le_mono_nonneg_l; [nia|lia].
    - apply Z.mul_le_mono_nonneg_r; [lia|]. apply Z.mul_le_mono_nonneg_r; lia. }
  remember (rnd_mag (gu * quantum) gl) as q eqn:Eq.
  remember (rnd_mag (gu' * quantum) gl') as q' eqn:Eq'.
  assert (H2 : 0 <= rnd_mag (q * (100 * quantum)) quantum)
    by (apply rnd_mag_nonneg; [nia|lia]).
  assert (H3 : rnd_mag (q * (100 * quantum)) quantum
               <= rnd_mag (q' * (100 * quantum)) quantum).
  { apply rnd_mag_mono; [nia|lia|lia|].
    apply Z.mul_le_mono_nonneg_r; [lia|].
    apply Z.mul_le_mono_nonneg_r; lia. }
  remember (rnd_mag (q * (100 * quantum)) quantum) as p eqn:Ep.
  remember (rnd_mag (q' * (100 * quantum)) quantum) as p' eqn:Ep'.
  assert (H4 : 0 <= rhe (p * 100) quantum) by (apply rhe_nonneg; lia).
  assert (H5 : rhe (p * 100) quantum <= rhe (p' * 100) quantum).
  { apply rhe_mono; try lia. apply Z.mul_le_mono_nonneg_r; lia. }
  apply rnd_mag_mono; [nia|lia|lia|].
  apply Z.mul_le_mono_nonneg_r; [lia|].
  apply Z.mul_le_mono_nonneg_r; lia.
Qed.

Lemma rnd_mag_100 : rnd_mag (100 * quantum) 1 = 100 * quantum.
Proof. apply (rnd_mag_int 100). lia. Qed.

Lemma rnd_mag_cancel k n : 0 < k -> rnd_mag (k * n) k = rnd_mag n 1.
Proof.
  intros Hk. transitivity (rnd_mag (k * n) (k * 1)); [f_equal; lia|].
  apply rnd_mag_scale; lia.
Qed.

Lemma rnd_mag_one : rnd_mag quantum 1 = quantum.
Proof.
  transitivity (rnd_mag (1 * quantum) 1); [f_equal; lia|].
  rewrite (rnd_mag_int 1) by lia. lia.
Qed.

(** A block that used all of its gas, whatever the limit. *)
Lemma utilization_mag_full gl : 0 < gl -> utilization_mag gl gl = 100 * quantum.
Proof.
  intros Hgl. pose proof quantum_pos as HQ. unfold utilization_mag. cbv zeta.
  rewrite (rnd_mag_cancel gl quantum Hgl), rnd_mag_one.
  rewrite (rnd_mag_cancel quantum (100 * quantum) HQ), rnd_mag_100.
  assert (E3 : rhe (100 * quantum * 100) quantum = 10000).
  { replace (100 * quantum * 100) with (10000 * quantum) by ring.
    apply rhe_exact. lia. }
  rewrite E3.
  replace (10000 * quantum) with (100 * (100 * quantum)) by ring.
  rewrite (rnd_mag_cancel 100 (100 * quantum)) by lia. apply rnd_mag_100.
Qed.

Lemma percent_complete_value p c :
  1 <= p <= c ->
  percent_complete p c = Ok (NFloat (Ffin false (percent_mag p c)))
  /\ 0 <= percent_mag p c <= 100 * quantum.
Proof.
  intros H. pose proof quantum_pos as HQ.
  unfold percent_complete, Py.int_truediv, percent_mag.
  destruct (Z.eqb_spec c 0); [lia|].
  rewrite of_ratio_nonneg by lia.
  destruct (round_to_bound false (p * quantum) c (1 * quantum))
    as (E1 & B1 & R1); try nia.
  { apply (rep_int 1); lia. }
  { pose proof quantum_lt_huge. lia. }
  rewrite E1. cbn [rbind]. rewrite mul_100, of_Z_100. unfold mul. cbn [xorb].
  destruct (round_to_bound false
              (rnd_mag (p * quantum) c * (100 * quantum)) quantum (100 * quantum))
    as (E2 & B2 & R2); try nia.
  { apply (rep_int 100); lia. }
  { pose proof (pow2_lt_huge 7 ltac:(lia)). change (2 ^ 7) with 128 in *. lia. }
  rewrite E2. split; [reflexivity|lia].
Qed.

Lemma percent_mag_mono p p' c :
  0 <= p <= p' -> 0 < c -> percent_mag p c <= percent_mag p' c.
Proof.
  intros Hp Hc. pose proof quantum_pos as HQ. unfold percent_mag.
  assert (H0 : 0 <= rnd_mag (p * quantum) c)
    by (apply rnd_mag_nonneg; [nia|lia]).
  assert (H1 : rnd_mag (p * quantum) c <= rnd_mag (p' * quantum) c).
  { apply rnd_mag_mono; [nia|lia|lia|].
    apply Z.mul_le_mono_nonneg_r; [lia|]. apply Z.mul_le_mono_nonneg_r; lia. }
  apply rnd_mag_mono; [nia|lia|lia|].
  apply Z.mul_le_mono_nonneg_r; [lia|].
  apply Z.mul_le_mono_nonneg_r; lia.
Qed.

Lemma percent_mag_full c : 0 < c -> percent_mag c c = 100 * quantum.
Proof.
  intros Hc. pose proof quantum_pos as HQ. unfold percent_mag.
  rewrite (rnd_mag_cancel c quantum Hc), rnd_mag_one.
  rewrite (rnd_mag_cancel quantum (100 * quantum) HQ). apply rnd_mag_100.
Qed.

Lemma format_100 : Py.format_1f (NFloat (of_Z 100)) = Ok "100.0".
Proof. vm_compute. reflexivity. Qed.

Lemma val_fin m : val (NFloat (Ffin false m)) = m.
Proof. reflexivity. Qed.

Lemma progress_text_full cnt : 1 <= cnt -> progress_text cnt cnt = "100.0".
Proof.
  intros Hc. unfold progress_text.
  destruct (percent_complete_value cnt cnt ltac:(lia)) as [E _].
  rewrite E, percent_mag_full, <- of_Z_100 by lia. cbn [rbind].
  rewrite format_100. reflexivity.
Qed.

(** X6: the utilization that fetch computes never decreases when more gas is
    used or when the limit is lower (256-bit quantities, a limit that is
    not 0): the roundings of the quotient, of the product and of the
    decimals keep the order. *)
Theorem utilization_grows_with_gas_used (gu gu' gl gl' : Z) :
  uint256 gu' -> uint256 gl -> 0 <= gu <= gu' -> 0 < gl' <= gl ->
  exists u u',
    utilization gu gl = Ok u /\ utilization gu' gl' = Ok u'
    /\ Py.le u u' = true.
Proof.
  intros Hu Hl Hgu Hgl.
  assert (Hu0 : uint256 gu) by (unfold uint256 in *; lia).
  assert (Hl0 : uint256 gl') by (unfold uint256 in *; lia).
  exists (NFloat (Ffin false (utilization_mag gu gl))),
         (NFloat (Ffin false (utilization_mag gu' gl'))).
  split; [apply utilization_value_uint256; [assumption..|lia]|].
  split; [apply utilization_value_uint256; [assumption..|lia]|].
  apply le_finite; [reflexivity|reflexivity|].
  rewrite !val_fin. apply utilization_mag_mono; assumption.
Qed.

Lemma utilization_grows_with_gas_used_witness :
  exists u u',
    utilization 15000000 30000000 = Ok u
    /\ utilization 15000001 29999999 = Ok u'
    /\ Py.le u u' = true.
Proof.
  apply (utilization_grows_with_gas_used 15000000 15000001 30000000 29999999);
    unfold uint256; lia.
Defined.

(** X7: a block that used exactly its gas limit has the utilization [100.0],
    whatever the size of the limit; a block that reports more gas used
    than its limit is not refused: with 256-bit quantities fetch computes
    a utilization of at least 100. *)
Theorem full_block_is_exactly_100 (gl : Z) :
  0 < gl ->
  utilization gl gl = Ok (NFloat (of_Z 100))
  /\ (forall gu, uint256 gu -> uint256 gl -> gl <= gu ->
        exists u, utilization gu gl = Ok u /\ Py.le (NInt 100) u = true).
Proof.
  intros Hgl. pose proof quantum_pos as HQ. split.
  - rewrite (utilization_value gl gl 1); try lia.
    + rewrite utilization_mag_full, of_Z_100 by lia. reflexivity.
    + apply (rep_int 1). lia.
    + apply (rep_int 100). lia.
    + pose proof (pow2_lt_huge 7 ltac:(lia)) as H7.
      change (2 ^ 7) with 128 in H7. lia.
  - intros gu Hu Hl Hle.
    exists (NFloat (Ffin false (utilization_mag gu gl))).
    split; [apply utilization_value_uint256; assumption|].
    apply le_finite; [exact I|reflexivity|].
    rewrite val_fin. cbn [val]. rewrite <- (utilization_mag_full gl Hgl).
    apply utilization_mag_mono; lia.
Qed.

Lemma full_block_is_exactly_100_witness :
  utilization 30000000 30000000 = Ok (NFloat (of_Z 100))
  /\ exists u, utilization 30000001 30000000 = Ok u
               /\ Py.le (NInt 100) u = true.
Proof.
  destruct (full_block_is_exactly_100 30000000 ltac:(lia)) as [H1 H2].
  split; [exact H1|]. apply H2; unfold uint256; lia.
Defined.

(** X8: the percentage of the progress lines of an analysis of [cnt] blocks
    lies between 0 and 100, never decreases from one line to the next,
    and is exactly 100 in the line of the last block, which reads
    ["(cnt/cnt, 100.0% complete)"]. *)
Theorem progress_grows_to_100 (cnt : Z) :
  1 <= cnt ->
  (forall k k', 1 <= k <= k' -> k' <= cnt ->
     exists x x',
       percent_complete k cnt = Ok x /\ percent_complete k' cnt = Ok x'
       /\ Py.le (NInt 0) x = true /\ Py.le x x' = true
       /\ Py.le x' (NInt 100) = true)
  /\ percent_complete cnt cnt = Ok (NFloat (of_Z 100))
  /\ (forall latest,
        turn_events latest cnt latest
        = [EvPrint (progress_line latest cnt cnt "100.0");
           EvGetBlock (BlockNum latest)]).
Proof.
  intros Hc. pose proof quantum_pos as HQ. split; [|split].
  - intros k k' Hk Hk'.
    destruct (percent_complete_value k cnt ltac:(lia)) as [E B].
    destruct (percent_complete_value k' cnt ltac:(lia)) as [E' B'].
    eexists _, _. split; [exact E|]. split; [exact E'|].
    split; [|split]; (apply le_finite; [first [exact I|reflexivity]..|]);
      rewrite ?val_fin; cbn [val].
    + lia.
    + apply percent_mag_mono; lia.
    + lia.
  - destruct (percent_complete_value cnt cnt ltac:(lia)) as [E _].
    rewrite E, percent_mag_full, of_Z_100 by lia. reflexivity.
  - intros latest. unfold turn_events. cbv zeta.
    replace (latest - (latest - cnt + 1) + 1) with cnt by lia.
    rewrite progress_text_full by lia. reflexivity.
Qed.

Lemma progress_grows_to_100_witness :
  (exists x x',
     percent_complete 1 3 = Ok x /\ percent_complete 2 3 = Ok x'
     /\ Py.le (NInt 0) x = true /\ Py.le x x' = true
     /\ Py.le x' (NInt 100) = true)
  /\ turn_events 1000 3 1000
     = [EvPrint (progress_line 1000 3 3 "100.0"); EvGetBlock (BlockNum 1000)].
Proof.
  destruct (progress_grows_to_100 3 ltac:(lia)) as (H1 & _ & H3).
  split; [apply H1; lia|apply H3].
Defined.

(** ** The average base fee *)

Lemma of_Z_gwei : of_Z 1000000000 = Ffin false (1000000000 * quantum).
Proof. apply of_Z_small. lia. Qed.

Lemma gwei_mag_value S n :
  0 <= S <= 2 ^ 256 * n -> 1 <= n ->
  of_ratio S n = Ffin false (rnd_mag (S * quantum) n)
  /\ rep (rnd_mag (S * quantum) n) /\ rnd_mag (S * quantum) n < huge
  /\ valid (div (of_ratio S n) (of_Z 1000000000))
  /\ round_digits 3 (div (of_ratio S n) (of_Z 1000000000))
     = Ffin false (gwei_mag S n).
Proof.
  intros HS Hn. pose proof quantum_pos as HQ.
  pose proof (pow2_lt_huge 256 ltac:(lia)) as Hh.
  assert (Hrep : rep (2 ^ 256 * quantum)) by (apply rep_pow2; lia).
  rewrite of_ratio_nonneg by lia.
  destruct (round_to_bound false (S * quantum) n (2 ^ 256 * quantum))
    as (E1 & B1 & R1); try assumption; try nia.
  rewrite E1, of_Z_gwei. cbn [div xorb]. unfold gwei_mag. cbv zeta.
  remember (rnd_mag (S * quantum) n) as a eqn:Ea.
  destruct (round_to_bound false (a * quantum) (1000000000 * quantum)
              (2 ^ 256 * quantum)) as (E2 & B2 & R2); try assumption; try nia.
  rewrite E2.
  remember (rnd_mag (a * quantum) (1000000000 * quantum)) as g eqn:Eg.
  destruct (round_digits_bound false g 3 (2 ^ 256)) as (E3 & _);
    try assumption; try lia.
  change (10 ^ 3) with 1000 in E3.
  split; [reflexivity|]. split; [exact R1|]. split; [lia|].
  split; [split; [exact R2|lia]|exact E3].
Qed.

Lemma gwei_mag_mono S n S' n' :
  0 <= S -> 0 < n -> 0 < n' -> S * n' <= S' * n ->
  gwei_mag S n <= gwei_mag S' n'.
Proof.
  intros HS Hn Hn' Hle. pose proof quantum_pos as HQ. unfold gwei_mag.
  cbv zeta.
  assert (H0 : 0 <= rnd_mag (S * quantum) n)
    by (apply rnd_mag_nonneg; [nia|lia]).
  assert (H1 : rnd_mag (S * quantum) n <= rnd_mag (S' * quantum) n').
  { apply rnd_mag_mono; [nia|lia|lia|].
    replace (S * quantum * n') with (S * n' * quantum) by ring.
    replace (S' * quantum * n) with (S' * n * quantum) by ring.
    apply Z.mul_le_mono_nonneg_r; lia. }
  remember (rnd_mag (S * quantum) n) as a eqn:Ea.
  remember (rnd_mag (S' * quantum) n') as a' eqn:Ea'.
  assert (HG : 0 < 1000000000 * quantum) by lia.
  assert (H2 : 0 <= rnd_mag (a * quantum) (1000000000 * quantum))
    by (apply rnd_mag_nonneg; [nia|lia]).
  assert (H3 : rnd_mag (a * quantum) (1000000000 * quantum)
               <= rnd_mag (a' * quantum) (1000000000 * quantum)).
  { apply rnd_mag_mono; [nia|lia|lia|].
    apply Z.mul_le_mono_nonneg_r; [lia|].
    apply Z.mul_le_mono_nonneg_r; lia. }
  remember (rnd_mag (a * quantum) (1000000000 * quantum)) as g eqn:Eg.
  remember (rnd_mag (a' * quantum) (1000000000 * quantum)) as g' eqn:Eg'.
  assert (H4 : 0 <= rhe (g * 1000) quantum) by (apply rhe_nonneg; lia).
  assert (H5 : rhe (g * 1000) quantum <= rhe (g' * 1000) quantum).
  { apply rhe_mono; try lia. apply Z.mul_le_mono_nonneg_r; lia. }
  apply rnd_mag_mono; [nia|lia|lia|].
  apply Z.mul_le_mono_nonneg_r; [lia|].
  apply Z.mul_le_mono_nonneg_r; lia.
Qed.

(** A 256-bit fee in gwei. *)
Lemma gwei_run f :
  uint256 f -> gwei f = Ok (NFloat (Ffin false (gwei_mag f 1))).
Proof.
  intros [Hf1 Hf2]. pose proof quantum_pos as HQ.
  destruct (gwei_mag_value f 1 ltac:(lia) ltac:(lia))
    as (E1 & R1 & B1 & Hv & E3).
  unfold gwei, Py.truediv, Py.to_float, Py.float_of_int, of_Z.
  rewrite E1. cbn [rbind]. unfold Py.float_truediv.
  fold (of_Z 1000000000). rewrite of_Z_gwei. cbn [is_zero].
  destruct (Z.eqb_spec (1000000000 * quantum) 0); [lia|]. cbn [rbind].
  rewrite <- of_Z_gwei, <- E1.
  rewrite round_ok by (first [exact Hv|lia]). rewrite E3. reflexivity.
Qed.

(** X9: the average base fee is computed from the exact integer sum, so it
    cannot leave the range of the fees: for records that fetch built, with
    all base fees between [lo] and [hi], [avg_base_fee_gwei] lies between
    [round(lo / 1e9, 3)] and [round(hi / 1e9, 3)], whatever the number of
    records; when all fees are equal it is that fee in gwei. *)
Theorem avg_base_fee_between_extremes (blocks : list BlockMetrics)
    (lo hi : Z) :
  blocks <> [] -> Forall fetched blocks -> Py.len blocks <= sys_maxsize ->
  Forall (fun b => lo <= base_fee_wei b <= hi) blocks ->
  0 <= lo -> hi < 2 ^ 256 ->
  exists s fee flo fhi,
    summarize blocks = Ok s
    /\ Py.getitem s "avg_base_fee_gwei" = Ok (VNum fee)
    /\ gwei lo = Ok flo /\ gwei hi = Ok fhi
    /\ Py.le flo fee = true /\ Py.le fee fhi = true
    /\ (lo = hi -> fee = flo).
Proof.
  intros Hne Hall Hmax Hfees Hlo0 Hhi0. pose proof quantum_pos as HQ.
  assert (Hn : 1 <= Py.len blocks).
  { unfold Py.len. destruct blocks; [contradiction|cbn [length]; lia]. }
  assert (Hlo : uint256 lo /\ uint256 hi).
  { destruct blocks as [|b blocks]; [contradiction|].
    apply Forall_cons in Hfees as [Hb _]. unfold uint256. lia. }
  assert (Es : summarize blocks = Ok (summary_spec blocks)).
  { apply summarize_numbers; [exact Hne| | |exact Hmax].
    - apply Forall_fmap. eapply Forall_impl; [exact Hall|].
      intros b Hb. apply fetched_utilization, Hb.
    - apply Forall_fmap. eapply Forall_impl; [exact Hall|].
      intros b (Hfee & _). exact Hfee. }
  pose proof (sum_between (map base_fee_wei blocks) lo hi) as Hsum.
  rewrite len_map in Hsum.
  pose proof (sum_bound (map base_fee_wei blocks)) as Hbound.
  rewrite len_map in Hbound.
  set (S := foldr Z.add 0 (map base_fee_wei blocks)) in *.
  set (n := Py.len blocks) in *.
  assert (HS : n * lo <= S <= n * hi).
  { apply Hsum, Forall_fmap. exact Hfees. }
  assert (HB : 0 <= S <= 2 ^ 256 * n).
  { apply Hbound, Forall_fmap. eapply Forall_impl; [exact Hall|].
    intros b (Hfee & _). exact Hfee. }
  destruct Hlo as [Ulo Uhi].
  destruct (gwei_mag_value S n HB Hn) as (_ & _ & _ & _ & E3).
  unfold summary_spec in Es. cbv zeta in Es. fold S n in Es. rewrite E3 in Es.
  eexists _, _, _, _. split; [exact Es|]. split; [reflexivity|].
  split; [apply gwei_run, Ulo|]. split; [apply gwei_run, Uhi|].
  assert (H1 : gwei_mag lo 1 <= gwei_mag S n).
  { apply gwei_mag_mono; unfold uint256 in *; lia. }
  assert (H2 : gwei_mag S n <= gwei_mag hi 1).
  { apply gwei_mag_mono; unfold uint256 in *; lia. }
  split; [apply le_finite; [reflexivity|reflexivity|rewrite !val_fin; exact H1]|].
  split; [apply le_finite; [reflexivity|reflexivity|rewrite !val_fin; exact H2]|].
  intros <-. do 2 f_equal. lia.
Qed.

Lemma avg_base_fee_between_extremes_witness :
  exists s fee flo fhi,
    summarize scenario_blocks = Ok s
    /\ Py.getitem s "avg_base_fee_gwei" = Ok (VNum fee)
    /\ gwei 1000000000 = Ok flo /\ gwei 3000000000 = Ok fhi
    /\ Py.le flo fee = true /\ Py.le fee fhi = true
    /\ (1000000000 = 3000000000 -> fee = flo).
Proof.
  apply (avg_base_fee_between_extremes scenario_blocks 1000000000 3000000000).
  - intros H. discriminate H.
  - exact scenario_blocks_fetched.
  - unfold sys_maxsize, Py.len, scenario_blocks. cbn [length]. lia.
  - unfold scenario_blocks, metrics.
    repeat (apply Forall_cons; split; [cbn [base_fee_wei]; lia|]).
    apply Forall_nil. exact I.
  - lia.
  - lia.
Defined.

(** X10: the maximum and the minimum of the summary are what their names say:
    for records of blocks within their gas limit, no block has a
    utilization above [max_utilization_percent] or below
    [min_utilization_percent], and each of the two is the utilization of
    one of the blocks (the second rounding to 2 decimals changes
    nothing). *)
Theorem summary_extremes_are_attained (blocks : list BlockMetrics) :
  blocks <> [] -> Forall nominal blocks -> Py.len blocks <= sys_maxsize ->
  exists s high low,
    summarize blocks = Ok s
    /\ Py.getitem s "max_utilization_percent" = Ok (VNum high)
    /\ Py.getitem s "min_utilization_percent" = Ok (VNum low)
    /\ Forall (fun b => Py.le low (utilization_percent b) = true
                        /\ Py.le (utilization_percent b) high = true) blocks
    /\ Exists (fun b => Py.cmp (utilization_percent b) high = Some Eq) blocks
    /\ Exists (fun b => Py.cmp (utilization_percent b) low = Some Eq) blocks.
Proof.
  intros Hne Hall Hmax.
  assert (Es : summarize blocks = Ok (summary_spec blocks)).
  { apply summarize_numbers; [exact Hne| | |exact Hmax].
    - apply Forall_fmap. eapply Forall_impl; [exact Hall|].
      intros b [Hb _]. apply fetched_utilization, Hb.
    - apply Forall_fmap. eapply Forall_impl; [exact Hall|].
      intros b [(Hfee & _) _]. exact Hfee. }
  unfold summary_spec in Es. cbv zeta in Es.
  assert (Hh : Forall (fun u => exists t, 0 <= t <= 10000 /\ hundredths t u)
                 (map utilization_percent blocks)).
  { apply Forall_fmap. eapply Forall_impl; [exact Hall|].
    intros b Hb. apply nominal_hundredths, Hb. }
  assert (Hfin : Forall finite_num (map utilization_percent blocks)).
  { eapply Forall_impl; [exact Hh|]. intros u (t & Ht & H).
    apply (hundredths_value t u Ht H). }
  assert (Hin : forall b, b ∈ blocks ->
                  utilization_percent b ∈ map utilization_percent blocks).
  { intros b Hb. apply (list_elem_of_fmap_2 utilization_percent), Hb. }
  destruct (map utilization_percent blocks) as [|u us] eqn:Eu.
  { destruct blocks; [contradiction|discriminate Eu]. }
  cbn [hd tl] in Es.
  pose proof (max_elem u us) as Hhi. pose proof (min_elem u us) as Hlo.
  set (hi := Py.max u us) in *. set (lo := Py.min u us) in *.
  rewrite Forall_forall in Hh.
  destruct (Hh hi Hhi) as (thi & Hthi & Hhhi).
  destruct (Hh lo Hlo) as (tlo & Htlo & Hhlo).
  destruct (hundredths_value thi hi Hthi Hhhi) as (Evhi & _ & Fhi & Erhi & Frhi).
  destruct (hundredths_value tlo lo Htlo Hhlo) as (Evlo & _ & Flo & Erlo & Frlo).
  assert (Fall : forall b, b ∈ blocks -> finite_num (utilization_percent b)).
  { intros b Hb. rewrite Forall_forall in Hfin. apply Hfin, Hin, Hb. }
  eexists _, _, _. split; [exact Es|].
  split; [reflexivity|]. split; [reflexivity|]. split; [|split].
  - apply Forall_forall. intros b Hb. split.
    + apply le_finite; [exact Frlo|apply Fall, Hb|].
      rewrite Erlo, <- Evlo. apply min_le; [exact Hfin|apply Hin, Hb].
    + apply le_finite; [apply Fall, Hb|exact Frhi|].
      rewrite Erhi, <- Evhi. apply max_ge; [exact Hfin|apply Hin, Hb].
  - rewrite <- Eu in Hhi.
    apply (list_elem_of_fmap_1 utilization_percent) in Hhi as (b & Eb & Hb).
    apply Exists_exists. exists b. split; [exact Hb|].
    rewrite cmp_finite by (first [apply Fall, Hb|exact Frhi]).
    rewrite Erhi, <- Evhi, <- Eb, Z.compare_refl. reflexivity.
  - rewrite <- Eu in Hlo.
    apply (list_elem_of_fmap_1 utilization_percent) in Hlo as (b & Eb & Hb).
    apply Exists_exists. exists b. split; [exact Hb|].
    rewrite cmp_finite by (first [apply Fall, Hb|exact Frlo]).
    rewrite Erlo, <- Evlo, <- Eb, Z.compare_refl. reflexivity.
Qed.

Lemma summary_extremes_are_attained_witness :
  exists s high low,
    summarize scenario_blocks = Ok s
    /\ Py.getitem s "max_utilization_percent" = Ok (VNum high)
    /\ Py.getitem s "min_utilization_percent" = Ok (VNum low)
    /\ Forall (fun b => Py.le low (utilization_percent b) = true
                        /\ Py.le (utilization_percent b) high = true)
         scenario_blocks
    /\ Exists (fun b => Py.cmp (utilization_percent b) high = Some Eq)
         scenario_blocks
    /\ Exists (fun b => Py.cmp (utilization_percent b) low = Some Eq)
         scenario_blocks.
Proof.
  apply (summary_extremes_are_attained scenario_blocks).
  - intros H. discriminate H.
  - exact scenario_blocks_nominal.
  - unfold sys_maxsize, Py.len, scenario_blocks. cbn [length]. lia.
Defined.

(** The float mean of one utilization is that utilization. *)
Lemma fmean_single u B :
  percentage B u -> B < huge -> fmean [u] = as_float u.
Proof.
  intros Hp HB. pose proof quantum_pos as HQ.
  unfold fmean, fsum, Py.len. cbn [map fold_left length].
  change (Z.of_nat 1) with 1. rewrite (of_Z_small 1) by lia. rewrite of_Z_0.
  destruct u as [z|[ [|] m|s|] ]; cbn [percentage] in Hp; try contradiction.
  - subst z. cbn [as_float]. rewrite of_Z_0. unfold add. cbn [signed andb].
    change (0 + 0 =? 0) with true. cbv iota. cbn [div xorb].
    rewrite Z.mul_0_l. apply round_to_0. lia.
  - destruct Hp as [Hr Hm]. cbn [as_float].
    assert (Hm0 : 0 <= m) by apply Hr.
    assert (Ediv : div (Ffin false m) (Ffin false (1 * quantum)) = Ffin false m).
    { cbn [div xorb].
      destruct (round_to_bound false (m * quantum) (1 * quantum) m)
        as (E & _); try assumption; try nia.
      rewrite E. f_equal.
      transitivity (rnd_mag (quantum * m) (quantum * 1)); [f_equal; lia|].
      rewrite rnd_mag_scale by lia. apply rnd_mag_id, Hr. }
    unfold add. cbn [signed andb].
    destruct (Z.eqb_spec (0 + m) 0) as [E0|N0].
    + assert (m = 0) as -> by lia. exact Ediv.
    + destruct (Z.ltb_spec (0 + m) 0); [lia|].
      replace (Z.abs (0 + m)) with m by lia.
      destruct (round_to_bound false m 1 m) as (E & _); try assumption; try lia.
      rewrite E, (rnd_mag_id m Hr). exact Ediv.
Qed.

Lemma round_digits_zero : round_digits 2 (Ffin false 0) = Ffin false 0.
Proof.
  pose proof (round_hundredth 0 ltac:(lia)) as H.
  rewrite Z.mul_0_l, rnd_mag_0 in H by lia. exact H.
Qed.

(** X11: the summary of a single record that fetch built, whatever its
    utilization: average, maximum and minimum are the same number, the
    base fee is the fee of the block in gwei, and one block is counted. *)
Theorem single_block_summary (b : BlockMetrics) :
  fetched b ->
  exists s avg high low fee,
    summarize [b] = Ok s
    /\ Py.getitem s "avg_utilization_percent" = Ok (VNum avg)
    /\ Py.getitem s "max_utilization_percent" = Ok (VNum high)
    /\ Py.getitem s "min_utilization_percent" = Ok (VNum low)
    /\ Py.getitem s "avg_base_fee_gwei" = Ok (VNum fee)
    /\ Py.getitem s "total_blocks" = Ok (VNum (NInt 1))
    /\ Py.cmp avg high = Some Eq /\ high = low
    /\ high = round_num 2 (utilization_percent b)
    /\ gwei (base_fee_wei b) = Ok fee.
Proof.
  intros Hb. pose proof quantum_pos as HQ.
  assert (Es : summarize [b] = Ok (summary_spec [b])).
  { apply summarize_numbers.
    - intros H. discriminate H.
    - apply Forall_cons. split; [apply fetched_utilization, Hb|apply Forall_nil; exact I].
    - apply Forall_cons. split; [apply Hb|apply Forall_nil; exact I].
    - unfold sys_maxsize, Py.len. cbn [length]. lia. }
  destruct Hb as (Hfee & Hl & Hu & E).
  destruct (utilization_uint256 _ _ Hu Hl) as (u & Eu & Hp).
  rewrite E in Eu. injection Eu as <-.
  pose proof (pow2_lt_huge 263 ltac:(lia)) as Hh.
  unfold summary_spec in Es. cbv zeta in Es.
  cbn [map hd tl foldr] in Es.
  rewrite (fmean_single _ _ Hp Hh) in Es.
  change (Py.len [b]) with 1 in Es. rewrite Z.add_0_r in Es.
  destruct (gwei_mag_value (base_fee_wei b) 1) as (_ & _ & _ & _ & E3);
    [unfold uint256 in Hfee; lia|lia|].
  rewrite E3 in Es.
  eexists _, _, _, _, _. split; [exact Es|].
  split; [reflexivity|]. split; [reflexivity|]. split; [reflexivity|].
  split; [reflexivity|]. split; [reflexivity|].
  split; [|split; [reflexivity|split; [reflexivity|apply gwei_run, Hfee] ] ].
  unfold Py.max. cbn [fold_left].
  destruct (utilization_percent b) as [z|[ [|] m|s|] ];
    cbn [percentage] in Hp; try contradiction.
  - subst z. cbn [as_float round_num]. rewrite of_Z_0, round_digits_zero.
    rewrite cmp_finite by (first [exact I|reflexivity]).
    cbn [val fval signed]. reflexivity.
  - destruct Hp as [Hr Hm]. cbn [as_float round_num].
    destruct (round_digits_valid false m 2 Hr ltac:(lia) ltac:(lia))
      as (m' & -> & _).
    rewrite cmp_finite by reflexivity. rewrite Z.compare_refl. reflexivity.
Qed.

Lemma single_block_summary_witness :
  exists s avg high low fee,
    summarize [metrics 1 3 100000000000000 1000000000] = Ok s
    /\ Py.getitem s "avg_utilization_percent" = Ok (VNum avg)
    /\ Py.getitem s "max_utilization_percent" = Ok (VNum high)
    /\ Py.getitem s "min_utilization_percent" = Ok (VNum low)
    /\ Py.getitem s "avg_base_fee_gwei" = Ok (VNum fee)
    /\ Py.getitem s "total_blocks" = Ok (VNum (NInt 1))
    /\ Py.cmp avg high = Some Eq /\ high = low
    /\ high = round_num 2
                (utilization_percent (metrics 1 3 100000000000000 1000000000))
    /\ gwei (base_fee_wei (metrics 1 3 100000000000000 1000000000)) = Ok fee.
Proof.
  apply (single_block_summary (metrics 1 3 100000000000000 1000000000)).
  apply metrics_fetched; unfold uint256; lia.
Defined.

(** ** The timestamp of a record *)

(** The calendar date of a day between 0001-01-01 and 9999-12-31. *)
Lemma civil_from_days_bounds days :
  -719162 <= days <= 2932896 ->
  1 <= fst (fst (Datetime.civil_from_days days)) <= 9999
  /\ 1 <= snd (fst (Datetime.civil_from_days days)) <= 12
  /\ 1 <= snd (Datetime.civil_from_days days) <= 31.
Proof.
  intros Hd. unfold Datetime.civil_from_days. cbv zeta. cbn [fst snd].
  set (z := days + 719468).
  set (era := z / 146097).
  set (doe := z - era * 146097).
  assert (Hdoe : 0 <= doe < 146097).
  { unfold doe, era. pose proof (Z.mod_pos_bound z 146097 ltac:(lia)).
    rewrite Z.mod_eq in H by lia. lia. }
  assert (Hera : 0 <= era <= 24).
  { unfold era, z. Z.div_mod_to_equations. lia. }
  set (yoe := (doe - doe / 1460 + doe / 36524 - doe / 146096) / 365).
  assert (Hyoe : 0 <= yoe <= 399).
  { unfold yoe. Z.div_mod_to_equations. lia. }
  set (doy := doe - (365 * yoe + yoe / 4 - yoe / 100)).
  assert (Hdoy : 0 <= doy <= 365).
  { unfold doy, yoe. Z.div_mod_to_equations. lia. }
  set (mp := (5 * doy + 2) / 153).
  assert (Hmp : 0 <= mp <= 11).
  { unfold mp. Z.div_mod_to_equations. lia. }
  assert (Hday : 1 <= doy - (153 * mp + 2) / 5 + 1 <= 31).
  { unfold mp. Z.div_mod_to_equations. lia. }
  destruct (Z.ltb_spec mp 10).
  - split; [|split; [lia|exact Hday] ].
    destruct (Z.leb_spec (mp + 3) 2); [lia|].
    split; [|lia].
    destruct (Z.eq_dec era 0) as [E0|]; [|lia].
    destruct (Z.eq_dec yoe 0) as [Y0|]; [|lia].
    exfalso. assert (306 <= doe) by (unfold doe, z; lia).
    assert (doy = doe)
      by (unfold doy; rewrite Y0; change (0 / 4) with 0;
          change (0 / 100) with 0; lia).
    unfold mp in *. Z.div_mod_to_equations. lia.
  - split; [|split; [lia|exact Hday] ].
    destruct (Z.leb_spec (mp - 9) 2); [|lia].
    split; [lia|].
    destruct (Z.eq_dec era 24) as [E24|]; [|lia].
    destruct (Z.eq_dec yoe 399) as [Y399|]; [|lia].
    exfalso. assert (doe <= 146036) by (unfold doe, z; lia).
    assert (doy = doe - 145731)
      by (unfold doy; rewrite Y399; change (399 / 4) with 99;
          change (399 / 100) with 3; lia).
    unfold mp in *. Z.div_mod_to_equations. lia.
Qed.

Lemma pad4_digits y : 0 <= y <= 9999 -> is_digits 4 (Datetime.pad 4 y) = true.
Proof.
  intros Hy.
  assert (Hall : forallb (fun z => is_digits 4 (Datetime.pad 4 z))
                   (seqZ 0 10000) = true) by (vm_compute; reflexivity).
  rewrite forallb_forall in Hall. apply Hall.
  apply list_elem_of_In, elem_of_seqZ. lia.
Qed.

Lemma pad2_digits z : 0 <= z <= 99 -> is_digits 2 (Datetime.pad 2 z) = true.
Proof.
  intros Hz.
  assert (Hall : forallb (fun z => is_digits 2 (Datetime.pad 2 z))
                   (seqZ 0 100) = true) by (vm_compute; reflexivity).
  rewrite forallb_forall in Hall. apply Hall.
  apply list_elem_of_In, elem_of_seqZ. lia.
Qed.

Lemma length_append (s1 s2 : string) :
  String.length (s1 +:+ s2) = (String.length s1 + String.length s2)%nat.
Proof.
  induction s1 as [|c s1 IH].
  - reflexivity.
  - change (String c s1 +:+ s2) with (String c (s1 +:+ s2)).
    cbn [String.length]. rewrite IH. reflexivity.
Qed.

Lemma append_assoc (s1 s2 s3 : string) :
  (s1 +:+ s2) +:+ s3 = s1 +:+ (s2 +:+ s3).
Proof.
  induction s1 as [|c s1 IH].
  - reflexivity.
  - change ((String c s1 +:+ s2) +:+ s3) with (String c ((s1 +:+ s2) +:+ s3)).
    rewrite IH. reflexivity.
Qed.

Lemma is_digits_length n s : is_digits n s = true -> String.length s = n.
Proof.
  unfold is_digits. intros H. apply andb_true_iff in H as [H _].
  apply Nat.eqb_eq, H.
Qed.

Lemma iso_utc_shape_length s : iso_utc_shape s -> String.length s = 20%nat.
Proof.
  intros (Y & Mo & D & H & Mi & S & -> & HY & HMo & HD & HH & HMi & HS).
  rewrite !length_append.
  rewrite (is_digits_length _ _ HY), (is_digits_length _ _ HMo),
    (is_digits_length _ _ HD), (is_digits_length _ _ HH),
    (is_digits_length _ _ HMi), (is_digits_length _ _ HS).
  reflexivity.
Qed.

(** The text of a timestamp of the years 1 to 9999. *)
Lemma utc_isoformat_shape ts :
  Datetime.min_timestamp <= ts <= Datetime.max_timestamp ->
  exists iso, Datetime.utc_isoformat ts = Ok iso /\ iso_utc_shape (iso +:+ "Z").
Proof.
  unfold Datetime.min_timestamp, Datetime.max_timestamp. intros Hts.
  unfold Datetime.utc_isoformat, Datetime.min_timestamp, Datetime.max_timestamp.
  destruct (Z.ltb_spec ts (-62135596800)); [lia|].
  destruct (Z.ltb_spec 253402300799 ts); [lia|]. cbn [orb].
  assert (Hdays : -719162 <= ts / 86400 <= 2932896)
    by (Z.div_mod_to_equations; lia).
  pose proof (civil_from_days_bounds (ts / 86400) Hdays) as (Hy & Hm & Hd).
  destruct (Datetime.civil_from_days (ts / 86400)) as [ [y m] d].
  cbn [fst snd] in Hy, Hm, Hd.
  assert (Hs : 0 <= ts mod 86400 < 86400) by (apply Z.mod_pos_bound; lia).
  set (secs := ts mod 86400) in *.
  eexists. split; [reflexivity|].
  exists (Datetime.pad 4 y), (Datetime.pad 2 m), (Datetime.pad 2 d),
    (Datetime.pad 2 (secs / 3600)), (Datetime.pad 2 (secs mod 3600 / 60)),
    (Datetime.pad 2 (secs mod 60)).
  split.
  - rewrite !append_assoc. reflexivity.
  - split; [apply pad4_digits; lia|].
    split; [apply pad2_digits; lia|].
    split; [apply pad2_digits; lia|].
    split; [apply pad2_digits; Z.div_mod_to_equations; lia|].
    split; [apply pad2_digits; Z.div_mod_to_equations; lia|].
    apply pad2_digits. Z.div_mod_to_equations. lia.
Qed.

Lemma utc_isoformat_fails ts :
  ts < Datetime.min_timestamp \/ Datetime.max_timestamp < ts ->
  Datetime.utc_isoformat ts = Raise ValueError.
Proof.
  intros Hts. unfold Datetime.utc_isoformat.
  destruct (Z.ltb_spec ts Datetime.min_timestamp); [reflexivity|].
  destruct (Z.ltb_spec Datetime.max_timestamp ts); [reflexivity|]. lia.
Qed.

(** X12: the [timestamp] of every record that fetch returns has the form
    [YYYY-MM-DDTHH:MM:SSZ], 20 characters, and the block time lies in the
    years 1 to 9999; a response whose time is outside these years gives
    no record: fetch raises, whatever the other fields are. *)
Theorem fetch_timestamp_is_iso_utc {W} (w3 : Web3 W) (id : block_id)
    (w w' : W) (log : list event) (b : block) (ts : Z) :
  eth_get_block w3 id w = (Ok b, w') ->
  b !! "timestamp" = Some ts ->
  (ts < Datetime.min_timestamp \/ Datetime.max_timestamp < ts ->
     exists e, fetch_gas_data w3 id (w, log)
               = (Raise e, (w', log ++ [EvGetBlock id])))
  /\ (forall bm s', fetch_gas_data w3 id (w, log) = (Ok bm, s') ->
        Datetime.min_timestamp <= ts <= Datetime.max_timestamp
        /\ iso_utc_shape (timestamp bm)
        /\ String.length (timestamp bm) = 20%nat).
Proof.
  intros Hget Hts. rewrite fetch_run, Hget. cbn [fst snd rbind]. split.
  - intros Hout. destruct (metrics_of_block b) as [bm|e] eqn:Em; [|eauto].
    apply metrics_of_block_inv in Em.
    destruct Em as (_ & _ & _ & _ & _ & ts' & iso & Hts' & Hiso & _).
    rewrite Hts in Hts'. injection Hts' as <-.
    rewrite (utc_isoformat_fails ts Hout) in Hiso. discriminate Hiso.
  - intros bm s' [= Hm _]. apply metrics_of_block_inv in Hm.
    destruct Hm as (_ & _ & _ & _ & _ & ts' & iso & Hts' & Hiso & Etime).
    rewrite Hts in Hts'. injection Hts' as <-.
    assert (Hin : Datetime.min_timestamp <= ts <= Datetime.max_timestamp).
    { destruct (Z_lt_le_dec ts Datetime.min_timestamp) as [Hlt|Hge].
      - rewrite (utc_isoformat_fails ts (or_introl Hlt)) in Hiso.
        discriminate Hiso.
      - destruct (Z_lt_le_dec Datetime.max_timestamp ts) as [Hgt|Hle]; [|lia].
        rewrite (utc_isoformat_fails ts (or_intror Hgt)) in Hiso.
        discriminate Hiso. }
    split; [exact Hin|].
    destruct (utc_isoformat_shape ts Hin) as (iso' & Eiso & Hshape).
    rewrite Hiso in Eiso. injection Eiso as <-. rewrite Etime.
    split; [exact Hshape|apply iso_utc_shape_length, Hshape].
Qed.

Lemma fetch_timestamp_is_iso_utc_witness :
  (exists e, fetch_gas_data
               (constant_node (sample_block 7 253402300800 30000000 15000000 0))
               Latest (tt, [])
             = (Raise e, (tt, [] ++ [EvGetBlock Latest])))
  /\ (forall bm s', fetch_gas_data steady_node Latest (1000, []) = (Ok bm, s') ->
        Datetime.min_timestamp <= 1700000000 + 12 * 1000
          <= Datetime.max_timestamp
        /\ iso_utc_shape (timestamp bm)
        /\ String.length (timestamp bm) = 20%nat).
Proof.
  split.
  - destruct (fetch_timestamp_is_iso_utc
                (constant_node (sample_block 7 253402300800 30000000 15000000 0))
                Latest tt tt []
                (sample_block 7 253402300800 30000000 15000000 0)
                253402300800 eq_refl eq_refl) as [H _].
    apply H. right. unfold Datetime.max_timestamp. lia.
  - apply (fetch_timestamp_is_iso_utc steady_node Latest 1000 1000 []
             (sample_block 1000 (1700000000 + 12 * 1000) 30000000 15000000
                1000000000) (1700000000 + 12 * 1000) eq_refl eq_refl).
Defined.

(** ** The float model against the Standard Library, and sample dates *)

Example add_agrees_with_SpecFloat :
  agrees add (SpecFloat.SFadd 53 1024)
    [of_ratio 1 10; of_ratio (-7) 3; of_Z (2 ^ 53); Ffin true 1;
     of_Z (2 ^ 1023); Ffin true 0]
    [of_ratio 2 10; of_Z 1; Ffin false 3; of_Z (2 ^ 1023);
     of_Z (2 ^ 53 + 2); of_Z 0] = true.
Proof. vm_compute. reflexivity. Qed.

Example mul_agrees_with_SpecFloat :
  agrees mul (SpecFloat.SFmul 53 1024)
    [of_ratio 1 10; of_ratio (-7) 3; of_Z (2 ^ 53); Ffin true 1;
     of_Z (2 ^ 1023); of_ratio 1 (2 ^ 537)]
    [of_ratio 2 10; of_Z 100; Ffin false 3; of_Z (2 ^ 1023);
     of_ratio 1 (2 ^ 537); Ffin true 0] = true.
Proof. vm_compute. reflexivity. Qed.

Example div_agrees_with_SpecFloat :
  agrees div (SpecFloat.SFdiv 53 1024)
    [of_ratio 1 10; of_ratio (-7) 3; of_Z (2 ^ 53); Ffin true 1;
     of_Z (2 ^ 1023); of_Z 0]
    [of_ratio 2 10; of_Z 100; Ffin false 3; of_Z (2 ^ 1023);
     of_Z 1000000000; of_Z 3] = true.
Proof. vm_compute. reflexivity. Qed.

Example isoformat_epoch :
  Datetime.utc_isoformat 0 = Ok "1970-01-01T00:00:00".
Proof. vm_compute. reflexivity. Qed.

Example isoformat_2023 :
  Datetime.utc_isoformat 1700000000 = Ok "2023-11-14T22:13:20".
Proof. vm_compute. reflexivity. Qed.

Example isoformat_leap_day :
  Datetime.utc_isoformat 951782399 = Ok "2000-02-28T23:59:59"
  /\ Datetime.utc_isoformat 951782400 = Ok "2000-02-29T00:00:00"
  /\ Datetime.utc_isoformat (-1) = Ok "1969-12-31T23:59:59"
  /\ Datetime.utc_isoformat Datetime.min_timestamp = Ok "0001-01-01T00:00:00"
  /\ Datetime.utc_isoformat Datetime.max_timestamp = Ok "9999-12-31T23:59:59".
Proof. vm_compute. repeat split; reflexivity. Qed.
